(** * fetch_strava: the Strava synchronisation and weekly rollover engine

    A shallow embedding of [scripts/fetch_strava.py] and the properties of
    its cache, week partitioning, aggregation and rollover logic.

    Conventions of the embedding.
    - Python [int] is [Z]; Python [float] is the kernel's binary64 [float],
      read through [Prim2SF] where the code converts or formats it.  The
      conversions ([int], [round], [int / int], the [.1f] format) follow
      CPython: exact on the binary value, ties to even.
    - A [date] is its proleptic Gregorian ordinal ([date.toordinal()], day 1
      is Monday 0001-01-01); [timedelta(days=k)] arithmetic is [Z] addition.
      The calendar functions are those of the [datetime] module.
    - An activity is the record Strava delivers, every key present, so no
      [.get] default and no [KeyError] on a field arises.
      [start_date_local] is Strava's fixed-width stamp
      [YYYY-MM-DDTHH:MM:SSZ]; it is kept as the pair (date, second of the
      day).  Comparing two such strings character by character is comparing
      those pairs lexicographically, which is how the sort keys below are
      compared.
    - A [dict] is an association list in insertion order; a dictionary read
      from a JSON object has no repeated key.
    - [sum] over floats adds from left to right, starting from zero.
    - The file system is the state that the functions thread explicitly;
      every reading of the clock is an explicit argument.
    - A raised exception is the [Raise] outcome of the [result] type. *)

From Stdlib Require Import ZArith List Bool Lia Floats Ascii String Permutation Sorted.
From stdpp Require Import gmap strings list pretty.

Local Open Scope Z_scope.
Set Warnings "-inexact-float".

(** ** Outcomes: a value or a raised exception *)

Inductive exn :=
| KeyError | TypeError | ValueError | OverflowError | ZeroDivisionError
| OSError | HTTPError | AttributeError | SystemExit.

Inductive result (A : Type) :=
| Ok (a : A)
| Raise (e : exn).
Arguments Ok {A} a.
Arguments Raise {A} e.

Global Instance result_ret : MRet result := λ A a, Ok a.
Global Instance result_bind : MBind result := λ A B k r,
  match r with
  | Ok a => k a
  | Raise e => Raise e
  end.

Fixpoint rmap_list {A B} (f : A → result B) (l : list A) : result (list B) :=
  match l with
  | [] => Ok []
  | a :: l' => b ← f a; bs ← rmap_list f l'; Ok (b :: bs)
  end.

(** ** Text helpers *)

(** [str(n)] for an [int]. *)
Definition str_int (z : Z) : string := pretty z.

(** The format [{n:02d}]: at least two characters, padded with a zero. *)
Definition fmt_02d (z : Z) : string :=
  let s := pretty z in
  if (String.length s <? 2)%nat then "0" +:+ s else s.

Fixpoint join_lines (ls : list string) : string :=
  match ls with
  | [] => ""
  | [l] => l
  | l :: ls' => l +:+ "
" +:+ join_lines ls'
  end.

Definition newline : string := "
".

(** [s.lower()] on the ASCII letters. *)
Definition lower_ascii (c : ascii) : ascii :=
  let n := nat_of_ascii c in
  if ((65 <=? n) && (n <=? 90))%nat then ascii_of_nat (n + 32) else c.

Fixpoint lower (s : string) : string :=
  match s with
  | EmptyString => EmptyString
  | String c s' => String (lower_ascii c) (lower s')
  end.

(** [s[:n]]. *)
Fixpoint str_take (n : nat) (s : string) : string :=
  match n, s with
  | S n', String c s' => String c (str_take n' s')
  | _, _ => EmptyString
  end.

(** ** Calendar arithmetic of [datetime.date] *)

Module Calendar.

Definition date := Z.

Definition is_leap (y : Z) : bool :=
  (y mod 4 =? 0) && (negb (y mod 100 =? 0) || (y mod 400 =? 0)).

Definition days_before_year (year : Z) : Z :=
  let y := year - 1 in
  y * 365 + y / 4 - y / 100 + y / 400.

Definition days_in_month (year month : Z) : Z :=
  if (month =? 2) && is_leap year then 29
  else nth (Z.to_nat month) [0; 31; 28; 31; 30; 31; 30; 31; 31; 30; 31; 30; 31] 0.

Definition days_before_month_tbl (month : Z) : Z :=
  nth (Z.to_nat month) [0; 0; 31; 59; 90; 120; 151; 181; 212; 243; 273; 304; 334] 0.

Definition days_before_month (year month : Z) : Z :=
  days_before_month_tbl month + (if (2 <? month) && is_leap year then 1 else 0).

Definition ymd2ord (year month day : Z) : date :=
  days_before_year year + days_before_month year month + day.

Definition DI400Y : Z := 146097.
Definition DI100Y : Z := 36524.
Definition DI4Y : Z := 1461.

(** [_ord2ymd]: the (year, month, day) of an ordinal. *)
Definition ord2ymd (n0 : date) : Z * Z * Z :=
  let n := n0 - 1 in
  let n400 := n / DI400Y in
  let n := n mod DI400Y in
  let n100 := n / DI100Y in
  let n := n mod DI100Y in
  let n4 := n / DI4Y in
  let n := n mod DI4Y in
  let n1 := n / 365 in
  let n := n mod 365 in
  let year := n400 * 400 + 1 + n100 * 100 + n4 * 4 + n1 in
  if (n1 =? 4) || (n100 =? 4) then (year - 1, 12, 31)
  else
    let leapyear := (n1 =? 3) && (negb (n4 =? 24) || (n100 =? 3)) in
    let month := Z.shiftr (n + 50) 5 in
    let preceding :=
      days_before_month_tbl month + (if (2 <? month) && leapyear then 1 else 0) in
    if n <? preceding then
      let month := month - 1 in
      let preceding :=
        preceding
        - (nth (Z.to_nat month) [0; 31; 28; 31; 30; 31; 30; 31; 31; 30; 31; 30; 31] 0
           + (if (month =? 2) && leapyear then 1 else 0)) in
      (year, month, n - preceding + 1)
    else (year, month, n - preceding + 1).

Definition year_of (d : date) : Z := fst (fst (ord2ymd d)).
Definition month_of (d : date) : Z := snd (fst (ord2ymd d)).
Definition day_of (d : date) : Z := snd (ord2ymd d).

(** [date.min] and [date.max]. *)
Definition min_ord : date := 1.
Definition max_ord : date := 3652059.

(** [d.weekday()]: Monday is 0. *)
Definition weekday (d : date) : Z := (d + 6) mod 7.

Definition isoweek1monday (year : Z) : date :=
  let firstday := ymd2ord year 1 1 in
  let firstweekday := (firstday + 6) mod 7 in
  let week1monday := firstday - firstweekday in
  if 3 <? firstweekday then week1monday + 7 else week1monday.

(** [d.isocalendar()]: (ISO year, ISO week, ISO weekday). *)
Definition isocalendar (d : date) : Z * Z * Z :=
  let year := year_of d in
  let week1monday := isoweek1monday year in
  let week := (d - week1monday) / 7 in
  let day := (d - week1monday) mod 7 in
  if week <? 0 then
    let year := year - 1 in
    let week1monday := isoweek1monday year in
    (year, (d - week1monday) / 7 + 1, (d - week1monday) mod 7 + 1)
  else if (52 <=? week) && (isoweek1monday (year + 1) <=? d) then
    (year + 1, 1, day + 1)
  else (year, week + 1, day + 1).

Definition month_abbr (m : Z) : string :=
  nth (Z.to_nat m)
    [""; "Jan"; "Feb"; "Mar"; "Apr"; "May"; "Jun";
     "Jul"; "Aug"; "Sep"; "Oct"; "Nov"; "Dec"] "".

(** [d.strftime('%b %d')] in the C locale. *)
Definition strftime_b_d (d : date) : string :=
  month_abbr (month_of d) +:+ " " +:+ fmt_02d (day_of d).

End Calendar.
Import Calendar.


(** ** Python's numeric conversions on binary64 floats *)

(** [m / 2^k] rounded to the nearest integer, ties to the even one. *)
Definition round_half_even (m k : Z) : Z :=
  let q := m / 2 ^ k in
  let r := m mod 2 ^ k in
  let h := 2 ^ (k - 1) in
  if r <? h then q
  else if h <? r then q + 1
  else if Z.even q then q else q + 1.

(** [int(x)]: truncation toward zero; not defined on NaN and infinities. *)
Definition int_of_float (x : float) : result Z :=
  match Prim2SF x with
  | S754_nan => Raise ValueError
  | S754_infinity _ => Raise OverflowError
  | S754_zero _ => Ok 0
  | S754_finite s m e => Ok (cond_Zopp s (Z.shiftl (Z.pos m) e))
  end.

(** [round(x)] with one argument: the nearest [int], ties to even. *)
Definition round_float (x : float) : result Z :=
  match Prim2SF x with
  | S754_nan => Raise ValueError
  | S754_infinity _ => Raise OverflowError
  | S754_zero _ => Ok 0
  | S754_finite s m e =>
      Ok (cond_Zopp s
            (if 0 <=? e then Z.pos m * 2 ^ e else round_half_even (Z.pos m) (- e)))
  end.

(** The conversion of an [int] operand in mixed arithmetic: the nearest
    float, [OverflowError] beyond the largest one. *)
Definition float_of_int (z : Z) : result float :=
  match binary_normalize prec emax z 0 false with
  | S754_infinity _ => Raise OverflowError
  | y => Ok (SF2Prim y)
  end.

(** [a / b] on two [int]s: the correctly rounded quotient. *)
Definition int_truediv (a b : Z) : result float :=
  if b =? 0 then Raise ZeroDivisionError
  else if a =? 0 then Ok (if b <? 0 then PrimFloat.neg_zero else PrimFloat.zero)
  else
    let '(q, e, l) := SFdiv_core_binary prec emax (Z.abs a) 0 (Z.abs b) 0 in
    match binary_round_aux prec emax (xorb (a <? 0) (b <? 0)) q e l with
    | S754_infinity _ => Raise OverflowError
    | y => Ok (SF2Prim y)
    end.

(** [x / y] on floats. *)
Definition float_div (x y : float) : result float :=
  if (y =? 0)%float then Raise ZeroDivisionError else Ok (x / y)%float.

(** The format [{x:.1f}]: the exact binary value rounded to one decimal,
    ties to even. *)
Definition fmt_1f (x : float) : string :=
  match Prim2SF x with
  | S754_nan => "nan"
  | S754_infinity s => if s then "-inf" else "inf"
  | S754_zero s => if s then "-0.0" else "0.0"
  | S754_finite s m e =>
      let t := if 0 <=? e then 10 * Z.pos m * 2 ^ e
               else round_half_even (10 * Z.pos m) (- e) in
      (if s then "-" else "") +:+ pretty (t / 10) +:+ "." +:+ pretty (t mod 10)
  end.

(** ** Activity records and the cache *)

(** A local wall-clock instant: calendar date and second of the day. *)
Record stamp := { st_date : date; st_secs : Z }.

Definition stamp_ltb (a b : stamp) : bool :=
  (st_date a <? st_date b)
  || ((st_date a =? st_date b) && (st_secs a <? st_secs b)).

Definition stamp_leb (a b : stamp) : bool := negb (stamp_ltb b a).

(** [int(dt.timestamp())] of a stamp carrying the offset [+00:00]. *)
Definition epoch_of_stamp (s : stamp) : Z :=
  (st_date s - 719163) * 86400 + st_secs s.

Record activity := {
  act_id : Z;
  act_type : string;
  act_name : string;
  start_date_local : stamp;
  distance : float;
  moving_time : Z;
  has_heartrate : bool;
  average_heartrate : option float;
}.

(** The cache: [{activity_id_str: activity_dict}], in insertion order. *)
Definition cache := list (string * activity).

Definition dict_get (c : cache) (k : string) : option activity :=
  snd <$> List.find (fun kv => String.eqb (fst kv) k) c.

Definition dict_mem (k : string) (c : cache) : bool :=
  existsb (fun kv => String.eqb (fst kv) k) c.

(** [d[k] = v]: replaces the value of a present key in place, appends a new
    key at the end. *)
Fixpoint dict_set (c : cache) (k : string) (v : activity) : cache :=
  match c with
  | [] => [(k, v)]
  | (k', v') :: c' =>
      if String.eqb k' k then (k', v) :: c' else (k', v') :: dict_set c' k v
  end.

Definition values (c : cache) : list activity := map snd c.

Definition activity_key (a : activity) : string := str_int (act_id a).

(** *** Persisted state and [load_cache] *)

(** An element of a legacy list-shaped document. *)
Inductive legacy_item :=
| LRecord (a : activity)          (* an object carrying an ["id"] *)
| LNoId                            (* an object without the ["id"] key *)
| LNotObject.                      (* any other JSON value *)

(** What [json.loads] returned. *)
Inductive document :=
| DObject (c : cache)
| DArray (items : list legacy_item)
| DScalar (truthy : bool).         (* null, a boolean, a number or a string *)

(** The cache file as [load_cache] finds it. *)
Inductive persisted :=
| Missing                          (* [CACHE_PATH.exists()] is false *)
| Unreadable                       (* [read_text()] raises *)
| Malformed                        (* [json.loads] raises [JSONDecodeError] *)
| Parsed (d : document).

(** The comprehension [{str(a["id"]): a for a in data}]. *)
Fixpoint rekey (acc : cache) (items : list legacy_item) : result cache :=
  match items with
  | [] => Ok acc
  | LRecord a :: rest => rekey (dict_set acc (activity_key a) a) rest
  | LNoId :: _ => Raise KeyError
  | LNotObject :: _ => Raise TypeError
  end.

(** The value [load_cache] returns: a mapping, or the scalar it read. *)
Inductive loaded :=
| LDict (c : cache)
| LScalar (truthy : bool).

Definition load_cache (f : persisted) : result loaded :=
  match f with
  | Missing => Ok (LDict [])
  | Unreadable => Raise OSError
  | Malformed => Ok (LDict [])
  | Parsed (DArray items) =>
      match rekey [] items with
      | Ok c => Ok (LDict c)
      | Raise KeyError => Ok (LDict [])
      | Raise e => Raise e
      end
  | Parsed (DObject c) => Ok (LDict c)
  | Parsed (DScalar t) => Ok (LScalar t)
  end.

Definition save_cache (c : cache) : persisted := Parsed (DObject c).

(** *** The most recent activity and the merge loop of [main] *)

(** [max(l, key=...)] scanning from [best]: the first maximal element. *)
Fixpoint max_by_start (best : activity) (l : list activity) : activity :=
  match l with
  | [] => best
  | a :: l' =>
      if stamp_ltb (start_date_local best) (start_date_local a)
      then max_by_start a l' else max_by_start best l'
  end.

Definition get_most_recent_timestamp (c : cache) : option Z :=
  match values c with
  | [] => None
  | a :: l => Some (epoch_of_stamp (start_date_local (max_by_start a l)))
  end.

Definition BACKFILL_DAYS : Z := 14.

(** Lines 437-442 of [main]: deduplicate by identifier. *)
Fixpoint merge (c : cache) (new_activities : list activity) (added : Z) : cache * Z :=
  match new_activities with
  | [] => (c, added)
  | a :: rest =>
      let aid := activity_key a in
      if dict_mem aid c then merge c rest added
      else merge (dict_set c aid a) rest (added + 1)
  end.

(** ** Formatting helpers *)

Definition METERS_PER_MILE : float := 1609.34%float.

Definition dash : string := "—".

Definition format_duration (seconds : Z) : string :=
  let h := seconds / 3600 in
  let rem := seconds mod 3600 in
  let m := rem / 60 in
  let s := rem mod 60 in
  if 0 <? h then str_int h +:+ ":" +:+ fmt_02d m +:+ ":" +:+ fmt_02d s
  else str_int m +:+ ":" +:+ fmt_02d s.

Definition format_duration_hm (seconds : Z) : string :=
  let h := seconds / 3600 in
  let rem := seconds mod 3600 in
  let m := rem / 60 in
  if 0 <? h then str_int h +:+ "h " +:+ fmt_02d m +:+ "m"
  else str_int m +:+ "m".

(** The minutes and seconds [format_pace] prints, after the carry. *)
Definition carry_minute (whole_min frac_sec : Z) : Z * Z :=
  if frac_sec =? 60 then (whole_min + 1, 0) else (whole_min, frac_sec).

Definition pace_text (ms : Z * Z) : string :=
  str_int (fst ms) +:+ ":" +:+ fmt_02d (snd ms) +:+ "/mi".

(** [pace_min]: minutes per mile. *)
Definition pace_minutes (moving_time_sec : Z) (distance_mi : float) : result float :=
  minutes ← int_truediv moving_time_sec 60;
  Ok (minutes / distance_mi)%float.

Definition format_pace (moving_time_sec : Z) (distance_mi : float) : result string :=
  if (distance_mi =? 0)%float then Ok dash
  else
    pace_min ← pace_minutes moving_time_sec distance_mi;
    whole_min ← int_of_float pace_min;
    whole_f ← float_of_int whole_min;
    frac_sec ← round_float ((pace_min - whole_f) * 60)%float;
    Ok (pace_text (carry_minute whole_min frac_sec)).

Definition format_speed (distance_mi : float) (moving_time_sec : Z) : result string :=
  if moving_time_sec =? 0 then Ok dash
  else
    hours ← int_truediv moving_time_sec 3600;
    mph ← float_div distance_mi hours;
    Ok (fmt_1f mph +:+ " mph").

Definition str_in (s : string) (l : list string) : bool := existsb (String.eqb s) l.

Definition is_run (a : activity) : bool :=
  str_in (lower (act_type a)) ["run"; "virtualrun"].

Definition is_ride (a : activity) : bool :=
  str_in (lower (act_type a)) ["ride"; "virtualride"].

Definition pace_or_speed (a : activity) : result string :=
  let dist_mi := (distance a / METERS_PER_MILE)%float in
  let moving := moving_time a in
  if is_run a then format_pace moving dist_mi
  else if is_ride a then format_speed dist_mi moving
  else Ok dash.

Definition activity_type_short (a : activity) : string :=
  let t := act_type a in
  match
    List.find (fun kv => String.eqb (fst kv) t)
      [("Run", "Run"); ("VirtualRun", "Run"); ("Ride", "Ride");
       ("VirtualRide", "Ride"); ("Swim", "Swim"); ("Walk", "Walk");
       ("Hike", "Hike"); ("Yoga", "Yoga"); ("WeightTraining", "Wts");
       ("Workout", "Wrkt")]
  with
  | Some kv => snd kv
  | None => str_take 4 t
  end.

(** ** Week helpers *)

Definition week_monday (d : date) : date := d - weekday d.

Definition iso_week_label (monday_date : date) : string :=
  let iso := isocalendar monday_date in
  str_int (fst (fst iso)) +:+ "-W" +:+ fmt_02d (snd (fst iso)).

Definition week_date_range_str (monday_date : date) : string :=
  let sunday := monday_date + 6 in
  "Mon " +:+ strftime_b_d monday_date +:+ " - Sun " +:+ strftime_b_d sunday.

Definition activity_date (a : activity) : date := st_date (start_date_local a).

Definition in_week (monday_date : date) (a : activity) : bool :=
  (monday_date <=? activity_date a) && (activity_date a <=? monday_date + 6).

(** [list.sort(key=...)]: a stable sort, here by straight insertion. *)
Fixpoint insert_by_start (a : activity) (l : list activity) : list activity :=
  match l with
  | [] => [a]
  | b :: l' =>
      if stamp_leb (start_date_local a) (start_date_local b)
      then a :: l else b :: insert_by_start a l'
  end.

Definition sort_by_start (l : list activity) : list activity :=
  fold_right insert_by_start [] l.

Definition activities_for_week (c : cache) (monday_date : date) : list activity :=
  sort_by_start (List.filter (in_week monday_date) (values c)).

(** ** Markdown generation *)

(** Truth value of [a.get("has_heartrate") and a.get("average_heartrate")]. *)
Definition heartrate_shown (a : activity) : option float :=
  if has_heartrate a then
    match average_heartrate a with
    | Some h => if (h =? 0)%float then None else Some h
    | None => None
    end
  else None.

Definition build_activity_row (a : activity) : result string :=
  let date_str := strftime_b_d (activity_date a) in
  let act := activity_type_short a in
  let name := act_name a in
  let dist_mi := (distance a / METERS_PER_MILE)%float in
  let dur := format_duration (moving_time a) in
  ps ← pace_or_speed a;
  hr ← match heartrate_shown a with
       | Some h => n ← int_of_float h; Ok (str_int n)
       | None => Ok ""
       end;
  let dist_str := if (0.05 <? dist_mi)%float then fmt_1f dist_mi +:+ " mi" else dash in
  Ok ("| " +:+ date_str +:+ " | " +:+ act +:+ " | " +:+ name +:+ " | " +:+ dist_str
      +:+ " | " +:+ dur +:+ " | " +:+ ps +:+ " | " +:+ hr +:+ " |").

Definition sum_miles (l : list activity) : float :=
  fold_left (fun acc a => (acc + distance a / METERS_PER_MILE)%float) l PrimFloat.zero.

Definition sum_time (l : list activity) : Z :=
  fold_left (fun acc a => acc + moving_time a) l 0.

Definition runs_of (activities : list activity) : list activity := List.filter is_run activities.
Definition rides_of (activities : list activity) : list activity := List.filter is_ride activities.

(** [run_pace] of [build_week_totals]. *)
Definition run_pace (activities : list activity) : result string :=
  let run_miles := sum_miles (runs_of activities) in
  let run_time := sum_time (runs_of activities) in
  if (0 <? run_miles)%float then format_pace run_time run_miles else Ok dash.

(** [active_days]: the set of calendar dates carrying an activity. *)
Definition active_days (activities : list activity) : gset Z :=
  list_to_set (map activity_date activities).

Definition days_so_far (monday_date today : date) : Z :=
  (Z.min today (monday_date + 6) - monday_date) + 1.

Definition rest_days (activities : list activity) (monday_date today : date) : Z :=
  days_so_far monday_date today - Z.of_nat (size (active_days activities)).

Definition is_current (monday_date today : date) : bool :=
  (monday_date <=? today) && (today <=? monday_date + 6).

Definition plural (n : nat) (one many : string) : string :=
  if (n =? 1)%nat then one else many.

Definition build_week_totals (activities : list activity) (monday_date today : date)
  : result string :=
  let runs := runs_of activities in
  let rides := rides_of activities in
  let run_miles := sum_miles runs in
  let ride_miles := sum_miles rides in
  let ride_time := sum_time rides in
  let total_time := sum_time activities in
  pace ← run_pace activities;
  let rest := rest_days activities monday_date today in
  Ok (join_lines
        [ "- Running: " +:+ fmt_1f run_miles +:+ " mi | "
            +:+ pretty (length runs) +:+ " " +:+ plural (length runs) "run" "runs"
            +:+ " | avg pace " +:+ pace;
          "- Cycling: " +:+ fmt_1f ride_miles +:+ " mi | "
            +:+ pretty (length rides) +:+ " " +:+ plural (length rides) "ride" "rides"
            +:+ " | " +:+ format_duration_hm ride_time;
          "- Strength: (see status.md)";
          (if is_current monday_date today
           then "- Rest days so far: " +:+ str_int rest +:+ "/"
                  +:+ str_int (days_so_far monday_date today)
           else "- Rest days: " +:+ str_int rest);
          "- Total training hours: " +:+ format_duration_hm total_time ]).

Definition table_head : list string :=
  [ "## Activities";
    "| Date | Type | Name | Dist | Time | Pace/Speed | Avg HR |";
    "|------|------|------|------|------|------------|--------|" ].

Definition no_activities_row : string := "| — | — | No activities | — | — | — | — |".
Definition no_activities_yet_row : string := "| — | — | No activities yet | — | — | — | — |".

(** The rows of the activity table, or the placeholder row. *)
Definition table_rows (placeholder : string) (activities : list activity)
  : result (list string) :=
  match activities with
  | [] => Ok [placeholder]
  | _ => rmap_list build_activity_row activities
  end.

(** [now.strftime('%Y-%m-%d %H:%M')]. *)
Definition strftime_ymd_hm (now : stamp) : string :=
  let d := st_date now in
  str_int (year_of d) +:+ "-" +:+ fmt_02d (month_of d) +:+ "-" +:+ fmt_02d (day_of d)
  +:+ " " +:+ fmt_02d (st_secs now / 3600) +:+ ":" +:+ fmt_02d (st_secs now mod 3600 / 60).

(** [write_current_week]: the text it writes to [data/current_week.md];
    [today] is the clock as [build_week_totals] reads it. *)
Definition write_current_week (c : cache) (now : stamp) (today : date) : result string :=
  let monday := week_monday (st_date now) in
  let activities := activities_for_week c monday in
  let header := "# Current Week (" +:+ week_date_range_str monday +:+ ")" in
  let updated := "*Last updated: " +:+ strftime_ymd_hm now +:+ "*" in
  totals ← build_week_totals activities monday today;
  rows ← table_rows no_activities_yet_row activities;
  Ok (join_lines ([header; updated; ""; "## Totals"; totals; ""] ++ table_head
                  ++ rows ++ [""]) +:+ newline).

(** The text of a permanent weekly report. *)
Definition weekly_summary_text (c : cache) (monday_date today : date) : result string :=
  let activities := activities_for_week c monday_date in
  let iso_wk := snd (fst (isocalendar monday_date)) in
  let header :=
    "# Week " +:+ fmt_02d iso_wk +:+ " (" +:+ week_date_range_str monday_date +:+ ")" in
  totals ← build_week_totals activities monday_date today;
  rows ← table_rows no_activities_row activities;
  Ok (join_lines ([header; ""; "## Totals"; totals; ""] ++ table_head ++ rows
                  ++ [""; "## Body & Injury Notes"; "- (to be filled in)"; "";
                      "## Training Notes"; "- (to be filled in)"; ""]) +:+ newline).

(** ** The weekly directory and the rollover *)

(** [data/weekly]: file name to content. *)
Abbreviation weekly_dir := (gmap string string).

Definition week_file (label : string) : string := label +:+ ".md".

Definition generate_weekly_summary (c : cache) (monday_date today : date)
    (files : weekly_dir) : result weekly_dir :=
  let label := iso_week_label monday_date in
  let week_path := week_file label in
  match files !! week_path with
  | Some _ => Ok files
  | None =>
      text ← weekly_summary_text c monday_date today;
      Ok (<[week_path := text]> files)
  end.

Definition last_monday (now : stamp) : date := week_monday (st_date now) - 7.

Definition check_weekly_rollover (c : cache) (now : stamp) (today : date)
    (files : weekly_dir) : result (weekly_dir * option string) :=
  let this_monday := week_monday (st_date now) in
  let last_monday := this_monday - 7 in
  let label := iso_week_label last_monday in
  let week_path := week_file label in
  match files !! week_path with
  | None =>
      files' ← generate_weekly_summary c last_monday today files;
      Ok (files', Some label)
  | Some _ => Ok (files, None)
  end.

(** ** One run of [main] *)

(** The files the script owns. *)
Record world := {
  cache_file : persisted;
  weekly_files : weekly_dir;
  current_week : option string;
}.

(** What a run receives from outside: whether [.env] holds the three
    credentials, the [--force] flag, the machine's
    time zone ([int(dt.timestamp())] of a naive local instant), the Strava
    collaborators (token refresh and paginated fetch after a cursor), and
    the clock at each place where the script reads it. *)
Record run_env := {
  has_credentials : bool;
  force : bool;
  local_epoch : stamp → Z;
  fetch_activities_after : Z → result (list activity);
  at_window : stamp;
  at_rollover : stamp;
  at_rollover_totals : date;
  at_current : stamp;
  at_current_totals : date;
}.

(** Lines 424-430 of [main]: the lower bound of the fetch. *)
Definition fetch_window (env : run_env) (c : cache) : Z :=
  match get_most_recent_timestamp c with
  | None =>
      local_epoch env
        {| st_date := st_date (at_window env) - BACKFILL_DAYS;
           st_secs := st_secs (at_window env) |}
  | Some most_recent => most_recent
  end.

Definition status_line (added : Z) (rollover_label : option string) : string :=
  (if 0 <? added
   then "Fetched " +:+ str_int added +:+ " new "
          +:+ (if added =? 1 then "activity" else "activities") +:+ "."
   else "No new activities.")
  +:+ " Current week file updated."
  +:+ match rollover_label with
      | Some label => " Generated weekly summary: " +:+ label +:+ "."
      | None => ""
      end.

(** [main] from the merge onward, on a cache that is a mapping. *)
Definition main_on_cache (env : run_env) (w : world) (c0 : cache)
  : world * result string :=
  match fetch_activities_after env (fetch_window env c0) with
  | Raise e => (w, Raise e)
  | Ok new_activities =>
      let '(c, added) := merge c0 new_activities 0 in
      let w1 := {| cache_file := save_cache c;
                   weekly_files := weekly_files w;
                   current_week := current_week w |} in
      match check_weekly_rollover c (at_rollover env) (at_rollover_totals env)
              (weekly_files w) with
      | Raise e => (w1, Raise e)
      | Ok (files, rollover_label) =>
          let w2 := {| cache_file := save_cache c;
                       weekly_files := files;
                       current_week := current_week w |} in
          match write_current_week c (at_current env) (at_current_totals env) with
          | Raise e => (w2, Raise e)
          | Ok text =>
              ({| cache_file := save_cache c;
                  weekly_files := files;
                  current_week := Some text |},
               Ok (status_line added rollover_label))
          end
      end
  end.

(** [main].  A scalar that [load_cache] handed back is not a mapping: a
    truthy one fails at [cache.values()], a falsy one at the first
    membership test or, with nothing fetched, at [cache.values()] of the
    week listing; the files keep their content in each case. *)
Definition main (env : run_env) (w : world) : world * result string :=
  if negb (has_credentials env) then (w, Raise SystemExit) else
  match load_cache (cache_file w) with
  | Raise e => (w, Raise e)
  | Ok (LDict c) => main_on_cache env w (if force env then [] else c)
  | Ok (LScalar truthy) =>
      if force env then main_on_cache env w []
      else if truthy then (w, Raise AttributeError)
      else
        match fetch_activities_after env (fetch_window env []) with
        | Raise e => (w, Raise e)
        | Ok [] => (w, Raise AttributeError)
        | Ok (_ :: _) => (w, Raise TypeError)
        end
  end.

(** The files after a sequence of runs, oldest first. *)
Definition runs (envs : list run_env) (w : world) : world :=
  fold_left (fun w env => fst (main env w)) envs w.

(** ** Vocabulary of the statements *)

(** [a] starts no later than [b]. *)
Definition start_le (a b : activity) : Prop :=
  stamp_leb (start_date_local a) (start_date_local b) = true.

(** The dates [lo, lo + n). *)
Definition in_range (lo : date) (n : Z) (a : activity) : bool :=
  (lo <=? activity_date a) && (activity_date a <? lo + n).

Definition sample_activity (i : Z) (kind : string) (day secs : Z) (meters : float)
    (moving : Z) : activity :=
  {| act_id := i; act_type := kind; act_name := "Morning";
     start_date_local := {| st_date := day; st_secs := secs |};
     distance := meters; moving_time := moving;
     has_heartrate := false; average_heartrate := None |}.

(** The file of the week before the one [now] falls in. *)
Definition last_week_file (now : stamp) : string :=
  week_file (iso_week_label (last_monday now)).

(** The rest-day line of the totals of a week without activities. *)
Definition empty_rest_line (monday_date today : date) : string :=
  if is_current monday_date today
  then "- Rest days so far: " +:+ str_int (days_so_far monday_date today) +:+ "/"
         +:+ str_int (days_so_far monday_date today)
  else "- Rest days: " +:+ str_int (days_so_far monday_date today).

(** The permanent report of a week without activities. *)
Definition empty_week_report (monday_date today : date) : string :=
  join_lines
    [ "# Week " +:+ fmt_02d (snd (fst (isocalendar monday_date)))
        +:+ " (" +:+ week_date_range_str monday_date +:+ ")";
      "";
      "## Totals";
      "- Running: 0.0 mi | 0 runs | avg pace —";
      "- Cycling: 0.0 mi | 0 rides | 0m";
      "- Strength: (see status.md)";
      empty_rest_line monday_date today;
      "- Total training hours: 0m";
      "";
      "## Activities";
      "| Date | Type | Name | Dist | Time | Pace/Speed | Avg HR |";
      "|------|------|------|------|------|------------|--------|";
      "| — | — | No activities | — | — | — | — |";
      "";
      "## Body & Injury Notes";
      "- (to be filled in)";
      "";
      "## Training Notes";
      "- (to be filled in)";
      "" ] +:+ newline.

Definition sample_env (now : stamp) (batch : list activity) : run_env :=
  {| has_credentials := true;
     force := false;
     local_epoch := epoch_of_stamp;
     fetch_activities_after := fun _ => Ok batch;
     at_window := now;
     at_rollover := now;
     at_rollover_totals := st_date now;
     at_current := now;
     at_current_totals := st_date now |}.

Definition empty_world : world :=
  {| cache_file := Missing; weekly_files := ∅; current_week := None |}.

(** Zero, finite or infinite with the sign bit clear, or not a number. *)
Definition sf_nonneg (y : spec_float) : Prop :=
  match y with
  | S754_zero s | S754_infinity s | S754_finite s _ _ => s = false
  | S754_nan => True
  end.

(** ** The Strava collaborators *)

(** *** The refresh token kept in [.env] *)

Definition TOKEN_KEY : string := "STRAVA_REFRESH_TOKEN=".

(** [line.startswith(pre)]. *)
Definition startswith (line pre : string) : bool := String.prefix pre line.

(** The loop of [update_env_token] over the lines that [splitlines()]
    returned. *)
Definition update_env_lines (lines : list string) (new_token : string) : list string :=
  map (fun line => if startswith line TOKEN_KEY then TOKEN_KEY +:+ new_token else line)
    lines.

(** The text [update_env_token] writes back: the lines joined by a line
    feed, and a final line feed. *)
Definition update_env_token (lines : list string) (new_token : string) : string :=
  join_lines (update_env_lines lines new_token) +:+ newline.

(** The answer of the token endpoint: its status, and the two keys the
    script reads from the JSON object of the body. *)
Record token_response := {
  status_code : Z;
  body_refresh_token : option string;
  body_access_token : option string;
}.

(** [refresh_access_token], given the lines of [.env] and the answer to the
    POST: what it writes to [.env] (nothing when [None]) and what it returns
    or raises. *)
Definition refresh_access_token (env_lines : list string) (refresh_token : string)
    (resp : token_response) : option string * result string :=
  if negb (status_code resp =? 200) then (None, Raise SystemExit)
  else
    let new_refresh := default refresh_token (body_refresh_token resp) in
    let written :=
      if negb (String.eqb new_refresh refresh_token)
      then Some (update_env_token env_lines new_refresh) else None in
    (written,
     match body_access_token resp with
     | Some token => Ok token
     | None => Raise KeyError
     end).

(** *** The paginated fetch *)

Definition PER_PAGE : nat := 100.

(** The [while True] loop of [fetch_activities_after].  [get_page p] is the
    request for page [p] followed by [raise_for_status] and [resp.json()];
    [requests] bounds the number of requests, and [None] is a loop that has
    not ended within the bound. *)
Fixpoint fetch_loop (get_page : Z → result (list activity)) (requests : nat) (page : Z)
    (all_activities : list activity) : option (result (list activity)) :=
  match requests with
  | O => None
  | S requests' =>
      match get_page page with
      | Raise e => Some (Raise e)
      | Ok [] => Some (Ok all_activities)
      | Ok batch =>
          let all_activities := all_activities ++ batch in
          if (length batch <? PER_PAGE)%nat then Some (Ok all_activities)
          else fetch_loop get_page requests' (page + 1) all_activities
      end
  end.

Definition fetch_activities_after_pages (get_page : Z → result (list activity))
    (requests : nat) : option (result (list activity)) :=
  fetch_loop get_page requests 1 [].

(** ** Further vocabulary *)

(** No key of the mapping occurs twice. *)
Fixpoint unique_keys (c : cache) : bool :=
  match c with
  | [] => true
  | (k, _) :: c' => negb (dict_mem k c') && unique_keys c'
  end.

(** Every record is filed under the decimal form of its identifier. *)
Definition keyed_by_id (c : cache) : bool :=
  forallb (fun kv => String.eqb (fst kv) (activity_key (snd kv))) c.

Definition well_keyed (c : cache) : bool := unique_keys c && keyed_by_id c.

(** The second of the day of every record lies within the day. *)
Definition within_day (a : activity) : bool :=
  (0 <=? st_secs (start_date_local a)) && (st_secs (start_date_local a) <? 86400).

(** A server that holds [records] and answers page [p] with the [p]-th
    block of [PER_PAGE] of them. *)
Definition serve (records : list activity) (page : Z) : result (list activity) :=
  Ok (take PER_PAGE (drop (PER_PAGE * (Z.to_nat page - 1)) records)).

(** The distance cell of [build_activity_row]. *)
Definition dist_str (a : activity) : string :=
  let dist_mi := (distance a / METERS_PER_MILE)%float in
  if (0.05 <? dist_mi)%float then fmt_1f dist_mi +:+ " mi" else dash.

(** The live report of a week without activities. *)
Definition empty_current_report (now : stamp) (today : date) : string :=
  join_lines
    [ "# Current Week (" +:+ week_date_range_str (week_monday (st_date now)) +:+ ")";
      "*Last updated: " +:+ strftime_ymd_hm now +:+ "*";
      "";
      "## Totals";
      "- Running: 0.0 mi | 0 runs | avg pace —";
      "- Cycling: 0.0 mi | 0 rides | 0m";
      "- Strength: (see status.md)";
      empty_rest_line (week_monday (st_date now)) today;
      "- Total training hours: 0m";
      "";
      "## Activities";
      "| Date | Type | Name | Dist | Time | Pace/Speed | Avg HR |";
      "|------|------|------|------|------|------------|--------|";
      "| — | — | No activities yet | — | — | — | — |";
      "" ] +:+ newline.

(** The activity starts at the instant [s]. *)
Definition starts_at (s : stamp) (a : activity) : bool :=
  (st_date (start_date_local a) =? st_date s)
  && (st_secs (start_date_local a) =? st_secs s).

(** Zero, plus infinity, or a positive number with an exponent of at least
    [-952], which a normal number of at least [2 ^ -900] has. *)
Definition sf_sane (y : spec_float) : Prop :=
  match y with
  | S754_zero _ => True
  | S754_infinity s => s = false
  | S754_nan => False
  | S754_finite s _ e => s = false ∧ -952 ≤ e
  end.

(** A record as Strava delivers them: a moving time from zero to below
    [2 ^ 32] seconds, a distance of zero or of at least one metre, and an
    average heart rate that is a finite number. *)
Definition sane (a : activity) : bool :=
  (0 <=? moving_time a) && (moving_time a <? 2 ^ 32)
  && ((distance a =? 0)%float || (1 <=? distance a)%float)
  && match average_heartrate a with
     | Some h => is_finite h
     | None => true
     end.

(** * Properties *)

(** ** The embedding on concrete inputs *)

Example ord_2024_01_01 :
  ymd2ord 2024 1 1 = 738886 ∧ ord2ymd 738886 = (2024, 1, 1) ∧ weekday 738886 = 0.
Proof. repeat split; reflexivity. Qed.

Example isocalendar_year_ends :
  isocalendar (ymd2ord 2024 12 30) = (2025, 1, 1)
  ∧ isocalendar (ymd2ord 2021 1 3) = (2020, 53, 7)
  ∧ iso_week_label (ymd2ord 2020 12 28) = "2020-W53".
Proof. repeat split; reflexivity. Qed.

Example strftime_leap_day : strftime_b_d (ymd2ord 2024 2 29) = "Feb 29".
Proof. reflexivity. Qed.

Example fmt_1f_ties :
  fmt_1f 0.25%float = "0.2" ∧ fmt_1f 0.35%float = "0.3" ∧ fmt_1f (-0.04)%float = "-0.0".
Proof. repeat split; vm_compute; reflexivity. Qed.

Example int_truediv_rounds_once :
  int_truediv 9007199254740993 1 = Ok 9007199254740992%float
  ∧ int_truediv 3720 60 = Ok 62%float.
Proof. split; vm_compute; reflexivity. Qed.

Example format_duration_forms :
  format_duration 3725 = "1:02:05" ∧ format_duration 59 = "0:59"
  ∧ format_duration_hm 7300 = "2h 01m".
Proof. repeat split; vm_compute; reflexivity. Qed.

Example format_pace_carries :
  format_pace 599 1%float = Ok "9:59/mi" ∧ format_pace 3599 6%float = Ok "10:00/mi".
Proof. split; vm_compute; reflexivity. Qed.

Example build_activity_row_run :
  build_activity_row (sample_activity 1 "Run" 738886 3600 9977.908%float 3720)
  = Ok "| Jan 01 | Run | Morning | 6.2 mi | 1:02:00 | 10:00/mi |  |".
Proof. vm_compute. reflexivity. Qed.

(** ** The cache as a dictionary *)

Lemma dict_mem_get (c : cache) (k : string) :
  dict_mem k c = true ↔ is_Some (dict_get c k).
Proof.
  unfold dict_mem, dict_get. induction c as [|[k' v] c IH]; simpl.
  - split; [discriminate | intros [? ?]; discriminate].
  - destruct (String.eqb k' k); simpl; [split; eauto | exact IH].
Qed.

Lemma dict_mem_false (c : cache) (k : string) :
  dict_mem k c = false ↔ dict_get c k = None.
Proof.
  pose proof (dict_mem_get c k) as H.
  destruct (dict_mem k c), (dict_get c k) as [a|]; split; intros; try done.
  - destruct (proj1 H eq_refl); discriminate.
  - assert (true = false → False) by discriminate.
    exfalso. destruct H as [_ H]. specialize (H (ex_intro _ a eq_refl)). discriminate.
Qed.

Lemma dict_get_app (c1 c2 : cache) (k : string) :
  dict_get (c1 ++ c2) k =
  match dict_get c1 k with Some a => Some a | None => dict_get c2 k end.
Proof.
  unfold dict_get. induction c1 as [|[k' v] c1 IH]; simpl; [done|].
  destruct (String.eqb k' k); simpl; [done | exact IH].
Qed.

Lemma dict_set_absent (c : cache) (k : string) (v : activity) :
  dict_get c k = None → dict_set c k v = c ++ [(k, v)].
Proof.
  unfold dict_get. induction c as [|[k' v'] c IH]; simpl; [done|].
  destruct (String.eqb k' k); simpl; [discriminate|].
  intros H. by rewrite IH.
Qed.

Lemma dict_get_set (c : cache) (k k' : string) (v : activity) :
  dict_get (dict_set c k v) k' = if String.eqb k k' then Some v else dict_get c k'.
Proof.
  unfold dict_get. induction c as [|[k0 v0] c IH]; simpl.
  - destruct (String.eqb k k'); done.
  - destruct (String.eqb_spec k0 k) as [->|Hne]; simpl.
    + destruct (String.eqb k k'); done.
    + destruct (String.eqb_spec k0 k') as [->|Hne']; simpl.
      * destruct (String.eqb_spec k k') as [->|]; [done | done].
      * exact IH.
Qed.

(** ** Merge (lines 437-442 of [main]) *)

Lemma merge_spec (batch : list activity) :
  ∀ (c : cache) (n : Z),
    ∃ fresh : cache,
      merge c batch n = (c ++ fresh, n + Z.of_nat (length fresh))
      ∧ ∀ k, dict_get (c ++ fresh) k =
             match dict_get c k with
             | Some a => Some a
             | None => List.find (fun a => String.eqb (activity_key a) k) batch
             end.
Proof.
  induction batch as [|a rest IH]; intros c n; cbn [merge List.find].
  - exists []. rewrite app_nil_r. split; [f_equal; simpl; lia|].
    intros k. by destruct (dict_get c k).
  - destruct (dict_mem (activity_key a) c) eqn:Hmem.
    + destruct (IH c n) as (fresh & Hm & Hget). exists fresh. split; [done|].
      intros k. rewrite Hget. destruct (dict_get c k) eqn:Hk; [done|].
      destruct (String.eqb_spec (activity_key a) k) as [Heq|]; [|done].
      subst k. apply dict_mem_get in Hmem as [? Hmem]. congruence.
    + apply dict_mem_false in Hmem.
      rewrite (dict_set_absent _ _ _ Hmem).
      destruct (IH (c ++ [(activity_key a, a)]) (n + 1)) as (fresh & Hm & Hget).
      exists ((activity_key a, a) :: fresh).
      replace (c ++ (activity_key a, a) :: fresh)
        with ((c ++ [(activity_key a, a)]) ++ fresh) by by rewrite <- app_assoc.
      split.
      * rewrite Hm. f_equal. simpl length. lia.
      * intros k. rewrite Hget, dict_get_app.
        destruct (dict_get c k); [done|].
        unfold dict_get at 1. simpl.
        by destruct (String.eqb (activity_key a) k).
Qed.

Lemma merge_all_present (batch : list activity) (c : cache) (n : Z) :
  (∀ a, In a batch → dict_mem (activity_key a) c = true) →
  merge c batch n = (c, n).
Proof.
  induction batch as [|a rest IH]; cbn [merge]; intros H; [done|].
  rewrite (H a) by (simpl; auto). apply IH. simpl in H. auto.
Qed.

Lemma find_key_in (batch : list activity) (a : activity) :
  In a batch →
  is_Some (List.find (fun b => String.eqb (activity_key b) (activity_key a)) batch).
Proof.
  induction batch as [|b rest IH]; cbn [List.find In]; [done|].
  intros [->|Hin].
  - rewrite String.eqb_refl. eauto.
  - destruct (String.eqb _ _); eauto.
Qed.

(** C1.  Merging a batch into a cache keeps every entry the cache had,
    puts under each identifier that was absent the first incoming record
    carrying it, returns the number of entries it added, and is idempotent:
    merging the same batch again changes nothing and adds nothing. *)
Theorem merge_insert_absent_idempotent (c : cache) (batch : list activity) :
  (∀ k a, dict_get c k = Some a → dict_get (fst (merge c batch 0)) k = Some a)
  ∧ (∀ k, dict_get c k = None →
          dict_get (fst (merge c batch 0)) k
          = List.find (fun a => String.eqb (activity_key a) k) batch)
  ∧ (∃ fresh, fst (merge c batch 0) = c ++ fresh
              ∧ snd (merge c batch 0) = Z.of_nat (length fresh))
  ∧ merge (fst (merge c batch 0)) batch 0 = (fst (merge c batch 0), 0).
Proof.
  destruct (merge_spec batch c 0) as (fresh & Hm & Hget).
  rewrite Hm. simpl fst. simpl snd.
  repeat split.
  - intros k a Hk. rewrite Hget, Hk. done.
  - intros k Hk. rewrite Hget, Hk. done.
  - exists fresh. done.
  - apply merge_all_present. intros a Hin.
    apply dict_mem_get. rewrite Hget.
    destruct (dict_get c (activity_key a)); [eauto|].
    by apply find_key_in.
Qed.

Lemma merge_insert_absent_idempotent_witness :
  dict_get
    (fst (merge [("7", sample_activity 7 "Run" 738886 3600 5000 1500)]
            [sample_activity 7 "Ride" 738887 60 9000 1800;
             sample_activity 8 "Run" 738888 3600 5000 1500] 0))
    "7"
  = Some (sample_activity 7 "Run" 738886 3600 5000 1500).
Proof.
  apply (proj1 (merge_insert_absent_idempotent
                  [("7", sample_activity 7 "Run" 738886 3600 5000 1500)]
                  [sample_activity 7 "Ride" 738887 60 9000 1800;
                   sample_activity 8 "Run" 738888 3600 5000 1500])).
  reflexivity.
Defined.

(** ** Loading the cache *)

Lemma find_app_r {A} (f : A → bool) (l1 l2 : list A) :
  List.find f (l1 ++ l2) =
  match List.find f l1 with Some a => Some a | None => List.find f l2 end.
Proof. induction l1 as [|a l1 IH]; simpl; [done|]. by destruct (f a). Qed.

Lemma rekey_records (records : list activity) :
  ∀ acc : cache,
    ∃ c, rekey acc (map LRecord records) = Ok c
         ∧ ∀ k, dict_get c k =
                match List.find (fun a => String.eqb (activity_key a) k) (rev records) with
                | Some a => Some a
                | None => dict_get acc k
                end.
Proof.
  induction records as [|a rest IH]; intros acc; cbn [map rekey].
  - exists acc. done.
  - destruct (IH (dict_set acc (activity_key a) a)) as (c & Hc & Hget).
    exists c. split; [done|]. intros k. rewrite Hget. cbn [rev].
    rewrite find_app_r, dict_get_set. cbn [List.find].
    destruct (List.find _ (rev rest)); [done|].
    by destruct (String.eqb (activity_key a) k).
Qed.

Lemma rekey_first_bad (records : list activity) (bad : legacy_item) (rest : list legacy_item) :
  ∀ acc : cache,
    rekey acc (map LRecord records ++ bad :: rest) =
    match bad with
    | LRecord a => rekey acc (map LRecord records ++ bad :: rest)
    | LNoId => Raise KeyError
    | LNotObject => Raise TypeError
    end.
Proof.
  induction records as [|a records IH]; intros acc; cbn [map app rekey].
  - by destruct bad.
  - rewrite IH. by destruct bad.
Qed.

(** C3 (as stated it fails): a cache file that cannot be read, and a
    list-shaped document holding something that is not an object, both make
    [load_cache] raise instead of returning the empty cache. *)
Lemma load_cache_corrupt_can_raise :
  load_cache Unreadable = Raise OSError
  ∧ load_cache (Parsed (DArray [LNotObject])) = Raise TypeError.
Proof. split; reflexivity. Qed.

(** C3 (amended).  [load_cache] returns the empty cache, and does not
    raise, when the file is missing, when it is not JSON, and when it is a
    list in which the first element that is not a record with an identifier
    is an object without one.  A well-formed legacy list is migrated by
    re-keying: each identifier maps to the last record of the list that
    carries it. *)
Theorem load_cache_recovery_and_migration :
  load_cache Missing = Ok (LDict [])
  ∧ load_cache Malformed = Ok (LDict [])
  ∧ (∀ records rest,
       load_cache (Parsed (DArray (map LRecord records ++ LNoId :: rest))) = Ok (LDict []))
  ∧ (∀ records,
       ∃ c, load_cache (Parsed (DArray (map LRecord records))) = Ok (LDict c)
            ∧ ∀ k, dict_get c k
                   = List.find (fun a => String.eqb (activity_key a) k) (rev records)).
Proof.
  repeat split.
  - intros records rest. cbn [load_cache]. by rewrite rekey_first_bad.
  - intros records. cbn [load_cache].
    destruct (rekey_records records []) as (c & -> & Hget).
    exists c. split; [done|]. intros k. rewrite Hget.
    by destruct (List.find _ _).
Qed.

(** ** The order of start stamps *)

(** Decides goals made of integer comparisons under boolean connectives. *)
Ltac zcases :=
  repeat match goal with
  | |- context [?a <=? ?b] => destruct (Z.leb_spec a b)
  | |- context [?a <? ?b] => destruct (Z.ltb_spec a b)
  | |- context [?a =? ?b] => destruct (Z.eqb_spec a b)
  end;
  simpl; try reflexivity; try lia.

Ltac stamp_order :=
  unfold start_le, stamp_leb, stamp_ltb in *;
  repeat match goal with
  | s : stamp |- _ => destruct s
  end;
  simpl in *;
  rewrite ?negb_true_iff, ?negb_false_iff, ?orb_true_iff, ?orb_false_iff,
    ?andb_true_iff, ?andb_false_iff, ?Z.ltb_lt, ?Z.ltb_ge, ?Z.eqb_eq, ?Z.eqb_neq in *;
  lia.

Lemma stamp_leb_refl (a : stamp) : stamp_leb a a = true.
Proof. stamp_order. Qed.

Lemma stamp_leb_trans (a b c : stamp) :
  stamp_leb a b = true → stamp_leb b c = true → stamp_leb a c = true.
Proof. intros H1 H2. stamp_order. Qed.

Lemma stamp_ltb_leb (a b : stamp) : stamp_ltb a b = true → stamp_leb a b = true.
Proof. intros H. stamp_order. Qed.

Lemma stamp_not_ltb_leb (a b : stamp) : stamp_ltb a b = false → stamp_leb b a = true.
Proof. intros H. stamp_order. Qed.

Lemma stamp_not_leb_leb (a b : stamp) : stamp_leb a b = false → stamp_leb b a = true.
Proof. intros H. stamp_order. Qed.

Global Instance start_le_trans : Transitive start_le.
Proof. intros a b c. unfold start_le. apply stamp_leb_trans. Qed.

(** ** The most recent timestamp and the fetch window *)

Lemma max_by_start_spec (l : list activity) :
  ∀ best,
    (max_by_start best l = best ∨ In (max_by_start best l) l)
    ∧ start_le best (max_by_start best l)
    ∧ ∀ b, In b l → start_le b (max_by_start best l).
Proof.
  induction l as [|a l IH]; intros best; cbn [max_by_start].
  - repeat split; [by left | apply stamp_leb_refl | intros b []].
  - destruct (stamp_ltb _ _) eqn:Hlt.
    + destruct (IH a) as (Hin & Hle & Hall). repeat split.
      * right. destruct Hin as [->|Hin]; [by left | by right].
      * etrans; [|exact Hle]. by apply stamp_ltb_leb.
      * intros b [<-|Hb]; [exact Hle | by apply Hall].
    + destruct (IH best) as (Hin & Hle & Hall). repeat split.
      * destruct Hin as [->|Hin]; [by left | right; by right].
      * exact Hle.
      * intros b [<-|Hb]; [|by apply Hall].
        etrans; [|exact Hle]. by apply stamp_not_ltb_leb.
Qed.

(** The epoch second of a stamp, spelled out on the calendar: whole days
    since 1970-01-01 at 86400 seconds each, and the second of the day. *)
Lemma epoch_of_stamp_calendar (s : stamp) :
  epoch_of_stamp s = (st_date s - ymd2ord 1970 1 1) * 86400 + st_secs s.
Proof. reflexivity. Qed.

Lemma epoch_of_stamp_order (a b : stamp) :
  0 ≤ st_secs a < 86400 → 0 ≤ st_secs b < 86400 →
  (stamp_leb a b = true ↔ epoch_of_stamp a ≤ epoch_of_stamp b).
Proof.
  unfold stamp_leb, stamp_ltb, epoch_of_stamp. destruct a as [da sa], b as [db sb]. cbn.
  intros Ha Hb.
  rewrite negb_true_iff, orb_false_iff, andb_false_iff, !Z.ltb_ge, Z.eqb_neq.
  lia.
Qed.

(** C5.  [get_most_recent_timestamp] is [None] exactly on the empty cache.
    On any other cache it is the start instant of a cached record that
    starts no earlier than every cached record, as seconds since
    1970-01-01T00:00:00: 86400 for each day from 1970-01-01 to the date of
    the start, plus the second of the day.  When the seconds of the day are
    valid the value is the greatest of the instants of all cached records,
    and the date and the time of day of the start are read back from it.
    The cursor of the fetch is that timestamp when there is one and the run
    is not forced, and the local instant 14 days before now otherwise;
    [main] fetches at that cursor, so a fetch that fails there ends the
    run. *)
Theorem most_recent_timestamp_and_window (c : cache) :
  (get_most_recent_timestamp c = None ↔ c = [])
  ∧ (c ≠ [] →
     ∃ a, In a (values c)
          ∧ get_most_recent_timestamp c = Some (epoch_of_stamp (start_date_local a))
          ∧ get_most_recent_timestamp c
            = Some ((activity_date a - ymd2ord 1970 1 1) * 86400
                    + st_secs (start_date_local a))
          ∧ (∀ b, In b (values c) → start_le b a)
          ∧ (∀ b, In b (values c) →
                  activity_date b < activity_date a
                  ∨ activity_date b = activity_date a
                    ∧ st_secs (start_date_local b) ≤ st_secs (start_date_local a))
          ∧ ((∀ b, In b (values c) → within_day b = true) →
             (∀ b t, In b (values c) → get_most_recent_timestamp c = Some t →
                     (activity_date b - ymd2ord 1970 1 1) * 86400
                     + st_secs (start_date_local b) ≤ t)
             ∧ (∀ t, get_most_recent_timestamp c = Some t →
                     ymd2ord 1970 1 1 + t / 86400 = activity_date a
                     ∧ t mod 86400 = st_secs (start_date_local a))))
  ∧ (∀ env t, force env = false → get_most_recent_timestamp c = Some t →
              fetch_window env (if force env then [] else c) = t)
  ∧ (∀ env, force env = true ∨ c = [] →
            fetch_window env (if force env then [] else c)
            = local_epoch env {| st_date := st_date (at_window env) - 14;
                                 st_secs := st_secs (at_window env) |})
  ∧ (∀ env w e, has_credentials env = true →
                load_cache (cache_file w) = Ok (LDict c) →
                fetch_activities_after env
                  (fetch_window env (if force env then [] else c)) = Raise e →
                main env w = (w, Raise e)).
Proof.
  split; [|split; [|split; [|split]]].
  - unfold get_most_recent_timestamp, values. destruct c; simpl; split; done.
  - intros Hne. destruct c as [|[k a] c]; [done|].
    unfold get_most_recent_timestamp. cbn [values map snd].
    destruct (max_by_start_spec (map snd c) a) as (Hin & Hle & Hall).
    set (best := max_by_start a (map snd c)) in *.
    assert (Hbest : In best (a :: map snd c)).
    { destruct Hin as [->|Hin]; [by left | by right]. }
    assert (Hmax : ∀ b, In b (a :: map snd c) → start_le b best).
    { intros b [<-|Hb]; [exact Hle | by apply Hall]. }
    exists best. split; [done|]. split; [done|]. split; [by rewrite epoch_of_stamp_calendar|].
    split; [done|]. split.
    + intros b Hb. specialize (Hmax b Hb). unfold activity_date.
      clear -Hmax. stamp_order.
    + intros Hday.
      assert (Hsecs : ∀ b, In b (a :: map snd c) →
                           0 ≤ st_secs (start_date_local b) < 86400).
      { intros b Hb. specialize (Hday b Hb). unfold within_day in Hday.
        apply andb_true_iff in Hday as [H0 H1].
        apply Z.leb_le in H0. apply Z.ltb_lt in H1. done. }
      split.
      * intros b t Hb [= <-]. unfold activity_date.
        rewrite <- (epoch_of_stamp_calendar (start_date_local b)).
        apply epoch_of_stamp_order; [by apply Hsecs..|]. by apply Hmax.
      * intros t [= <-]. rewrite epoch_of_stamp_calendar. unfold activity_date.
        pose proof (Hsecs best Hbest) as Hs.
        split.
        -- rewrite Z.div_add_l by lia. rewrite Z.div_small by lia. lia.
        -- rewrite Z.add_comm, Z.mod_add by lia. by apply Z.mod_small.
  - intros env t Hf Ht. rewrite Hf. unfold fetch_window. by rewrite Ht.
  - intros env [Hf| ->].
    + rewrite Hf. reflexivity.
    + destruct (force env); reflexivity.
  - intros env w e Hcred Hload Hfetch. unfold main. rewrite Hcred, Hload.
    unfold main_on_cache. by rewrite Hfetch.
Qed.

(** 2024-01-01T01:00:00, 2024-01-03T06:00:00 and 2024-01-02T23:59:59: the
    most recent one is the second. *)
Lemma most_recent_timestamp_and_window_witness :
  get_most_recent_timestamp
    [("7", sample_activity 7 "Run" 738886 3600 5000 1500);
     ("9", sample_activity 9 "Ride" 738888 21600 9000 1800);
     ("8", sample_activity 8 "Run" 738887 86399 5000 1500)]
  = Some 1704261600.
Proof.
  destruct (proj1 (proj2 (most_recent_timestamp_and_window
                            [("7", sample_activity 7 "Run" 738886 3600 5000 1500);
                             ("9", sample_activity 9 "Ride" 738888 21600 9000 1800);
                             ("8", sample_activity 8 "Run" 738887 86399 5000 1500)])))
    as (a & Hin & _ & Hvalue & Hmax & _).
  - discriminate.
  - rewrite Hvalue.
    pose proof (Hmax (sample_activity 9 "Ride" 738888 21600 9000 1800)
                  ltac:(simpl; tauto)) as Hlate.
    destruct Hin as [<-|[<-|[<-|[]]]]; [discriminate Hlate|reflexivity|discriminate Hlate].
Defined.

(** ** Listing the activities of a week *)

Lemma insert_by_start_perm (a : activity) (l : list activity) :
  Permutation (insert_by_start a l) (a :: l).
Proof.
  induction l as [|b l IH]; cbn [insert_by_start]; [done|].
  destruct (stamp_leb _ _); [done|].
  rewrite IH. apply perm_swap.
Qed.

Lemma sort_by_start_perm (l : list activity) : Permutation (sort_by_start l) l.
Proof.
  induction l as [|a l IH]; cbn [sort_by_start fold_right]; [done|].
  fold (sort_by_start l). rewrite insert_by_start_perm. by constructor.
Qed.

Lemma insert_by_start_hdrel (x a : activity) (l : list activity) :
  start_le x a → HdRel start_le x l → HdRel start_le x (insert_by_start a l).
Proof.
  intros Hxa Hx. destruct l as [|b l]; cbn [insert_by_start].
  - by constructor.
  - destruct (stamp_leb _ _); constructor; [done|].
    by inversion Hx.
Qed.

Lemma insert_by_start_sorted (a : activity) (l : list activity) :
  Sorted start_le l → Sorted start_le (insert_by_start a l).
Proof.
  induction 1 as [|b l Hs IH Hhd]; cbn [insert_by_start].
  - repeat constructor.
  - destruct (stamp_leb _ _) eqn:Hle.
    + constructor; [by constructor|]. by constructor.
    + constructor; [exact IH|].
      apply insert_by_start_hdrel; [|done].
      by apply stamp_not_leb_leb.
Qed.

Lemma sort_by_start_sorted (l : list activity) : Sorted start_le (sort_by_start l).
Proof.
  induction l as [|a l IH]; cbn [sort_by_start fold_right]; [constructor|].
  by apply insert_by_start_sorted.
Qed.

Lemma filter_false {A} (f : A → bool) (l : list A) :
  (∀ a, In a l → f a = false) → List.filter f l = [].
Proof.
  induction l as [|a l IH]; cbn [List.filter]; intros H; [done|].
  rewrite (H a) by (by left). apply IH. intros b Hb. apply H. by right.
Qed.

Lemma filter_split {A} (f g h : A → bool) (l : list A) :
  (∀ a, In a l → h a = f a || g a) →
  (∀ a, In a l → f a && g a = false) →
  Permutation (List.filter f l ++ List.filter g l) (List.filter h l).
Proof.
  induction l as [|a l IH]; cbn [List.filter]; intros Hh Hd; [done|].
  assert (IH' : Permutation (List.filter f l ++ List.filter g l) (List.filter h l)).
  { apply IH; intros b Hb; [apply Hh | apply Hd]; by right. }
  specialize (Hh a (or_introl eq_refl)). specialize (Hd a (or_introl eq_refl)).
  rewrite Hh. destruct (f a), (g a); simpl in *; try discriminate.
  - by constructor.
  - rewrite <- Permutation_middle. by constructor.
  - done.
Qed.

Lemma weeks_cover (c : cache) (monday_date : date) (n : nat) :
  Permutation
    (concat (map (fun i => activities_for_week c (monday_date + 7 * Z.of_nat i)) (seq 0 n)))
    (List.filter (in_range monday_date (7 * Z.of_nat n)) (values c)).
Proof.
  induction n as [|n IH].
  - cbn [seq map concat]. rewrite filter_false; [done|].
    intros a _. unfold in_range. zcases.
  - rewrite seq_S, map_app, concat_app, IH. cbn [map concat plus].
    rewrite app_nil_r. unfold activities_for_week at 1.
    rewrite sort_by_start_perm.
    apply filter_split; intros a _; unfold in_range, in_week; zcases.
Qed.

Lemma activities_for_week_in (c : cache) (monday_date : date) (a : activity) :
  In a (activities_for_week c monday_date) →
  monday_date ≤ activity_date a ≤ monday_date + 6.
Proof.
  unfold activities_for_week.
  rewrite (Permutation_in' (eq_refl a) (sort_by_start_perm _)), filter_In.
  unfold in_week. rewrite andb_true_iff, !Z.leb_le. tauto.
Qed.

(** C4.  [activities_for_week] returns exactly the cached records whose
    local start date lies in the seven days from the anchor, ordered by
    start stamp; listing [n] consecutive weeks yields, together, exactly the
    cached records of those [7 n] days. *)
Theorem activities_for_week_exact (c : cache) (monday_date : date) :
  Permutation (activities_for_week c monday_date)
    (List.filter (in_week monday_date) (values c))
  ∧ (∀ a, In a (activities_for_week c monday_date)
          ↔ In a (values c)
            ∧ monday_date ≤ activity_date a ≤ monday_date + 6)
  ∧ StronglySorted start_le (activities_for_week c monday_date)
  ∧ ∀ n : nat,
      Permutation
        (concat (map (fun i => activities_for_week c (monday_date + 7 * Z.of_nat i))
                   (seq 0 n)))
        (List.filter (in_range monday_date (7 * Z.of_nat n)) (values c)).
Proof.
  assert (Hperm : Permutation (activities_for_week c monday_date)
                    (List.filter (in_week monday_date) (values c)))
    by apply sort_by_start_perm.
  split; [exact Hperm|]. split; [|split].
  - intros a. rewrite (Permutation_in' (eq_refl a) Hperm), filter_In.
    unfold in_week. rewrite andb_true_iff, !Z.leb_le. tauto.
  - apply Sorted_StronglySorted; [apply start_le_trans|].
    apply sort_by_start_sorted.
  - apply weeks_cover.
Qed.

Lemma activities_for_week_exact_witness :
  In (sample_activity 7 "Run" 738886 3600 5000 1500)
    (values [("7", sample_activity 7 "Run" 738886 3600 5000 1500);
             ("8", sample_activity 8 "Run" 738893 3600 5000 1500)])
  ∧ 738886 ≤ activity_date (sample_activity 7 "Run" 738886 3600 5000 1500) ≤ 738886 + 6.
Proof.
  apply (proj1 (proj1 (proj2 (activities_for_week_exact
                                [("7", sample_activity 7 "Run" 738886 3600 5000 1500);
                                 ("8", sample_activity 8 "Run" 738893 3600 5000 1500)]
                                738886)) _)).
  vm_compute. left. reflexivity.
Defined.

(** ** Rest days *)

Lemma elem_of_active_days (acts : list activity) (d : Z) :
  d ∈ active_days acts ↔ ∃ a, In a acts ∧ activity_date a = d.
Proof.
  unfold active_days. rewrite elem_of_list_to_set, list_elem_of_In, in_map_iff.
  split; intros (a & H1 & H2); exists a; done.
Qed.

Lemma active_days_bound (acts : list activity) (lo hi : Z) :
  (∀ a, In a acts → lo ≤ activity_date a ≤ hi) →
  Z.of_nat (size (active_days acts)) ≤ Z.max 0 (hi - lo + 1).
Proof.
  intros Hall.
  assert (Hsub : active_days acts ⊆ list_to_set (seqZ lo (hi - lo + 1))).
  { intros d Hd. apply elem_of_active_days in Hd as (a & Ha & <-).
    rewrite elem_of_list_to_set, elem_of_seqZ. specialize (Hall a Ha). lia. }
  apply subseteq_size in Hsub.
  rewrite size_list_to_set in Hsub by apply NoDup_seqZ.
  rewrite length_seqZ in Hsub. lia.
Qed.

(** C6 (as stated it fails): on a Monday, a cache that already holds an
    activity dated Tuesday of the same week (stamps are local to the
    activity, the clock is the machine's) gives one elapsed day, two active
    days and a rest-day count of -1. *)
Lemma rest_days_can_be_negative :
  is_current 738886 738886 = true
  ∧ days_so_far 738886 738886 = 1
  ∧ rest_days
      (activities_for_week
         [("1", sample_activity 1 "Run" 738886 72000 5000 1500);
          ("2", sample_activity 2 "Run" 738887 21600 5000 1500)] 738886)
      738886 738886 = -1.
Proof. repeat split; vm_compute; reflexivity. Qed.

(** C6 (amended).  The rest-day count is the days considered minus the
    number of distinct dates carrying an activity of the week; the days
    considered are the days from the anchor through today in the week that
    contains today, and 7 in a week that is over.  The count never exceeds
    the days considered; it is at least 0 for a week that is over, and for
    a week that has begun when no activity of the week is dated after
    today. *)
Theorem rest_days_bounds (c : cache) (monday_date today : date) :
  rest_days (activities_for_week c monday_date) monday_date today
  = days_so_far monday_date today
    - Z.of_nat (size (active_days (activities_for_week c monday_date)))
  ∧ (∀ d, d ∈ active_days (activities_for_week c monday_date)
          ↔ ∃ a, In a (activities_for_week c monday_date) ∧ activity_date a = d)
  ∧ (monday_date ≤ today ≤ monday_date + 6 →
     days_so_far monday_date today = today - monday_date + 1)
  ∧ (monday_date + 6 < today → days_so_far monday_date today = 7)
  ∧ rest_days (activities_for_week c monday_date) monday_date today
    ≤ days_so_far monday_date today
  ∧ (monday_date + 6 < today →
     0 ≤ rest_days (activities_for_week c monday_date) monday_date today)
  ∧ (monday_date ≤ today →
     (∀ a, In a (activities_for_week c monday_date) → activity_date a ≤ today) →
     0 ≤ rest_days (activities_for_week c monday_date) monday_date today).
Proof.
  assert (Hin : ∀ a, In a (activities_for_week c monday_date) →
                     monday_date ≤ activity_date a ≤ monday_date + 6).
  { intros a Ha. by apply (activities_for_week_in c monday_date a). }
  split; [reflexivity|]. split; [apply elem_of_active_days|].
  unfold rest_days, days_so_far. repeat split; try lia.
  - intros Hpast.
    pose proof (active_days_bound _ monday_date (monday_date + 6) Hin). lia.
  - intros Hbegun Hnot_after.
    assert (Hb : ∀ a, In a (activities_for_week c monday_date) →
                      monday_date ≤ activity_date a ≤ Z.min today (monday_date + 6)).
    { intros a Ha. specialize (Hin a Ha). specialize (Hnot_after a Ha). lia. }
    pose proof (active_days_bound _ monday_date _ Hb). lia.
Qed.

Lemma rest_days_bounds_witness :
  0 ≤ rest_days
        (activities_for_week
           [("1", sample_activity 1 "Run" 738886 72000 5000 1500);
            ("2", sample_activity 2 "Run" 738887 21600 5000 1500)] 738886)
        738886 738900.
Proof.
  apply (proj1 (proj2 (proj2 (proj2 (proj2 (proj2
           (rest_days_bounds
              [("1", sample_activity 1 "Run" 738886 72000 5000 1500);
               ("2", sample_activity 2 "Run" 738887 21600 5000 1500)]
              738886 738900))))))).
  lia.
Defined.

(** ** Floats that are zero *)

Lemma Prim2SF_zero : Prim2SF 0%float = S754_zero false.
Proof. reflexivity. Qed.

Lemma float_eqb_zero_not_pos (x : float) :
  (x =? 0)%float = true → (0 <? x)%float = false.
Proof.
  rewrite FloatAxioms.eqb_spec, FloatAxioms.ltb_spec, Prim2SF_zero.
  destruct (Prim2SF x) as [s|s| |s m e]; simpl; try done.
  - by destruct s.
  - by destruct s.
Qed.

(** ** Calendar facts *)

Lemma days_before_year_step (y : Z) :
  days_before_year (y + 1) - days_before_year y = 365
  ∨ days_before_year (y + 1) - days_before_year y = 366.
Proof.
  unfold days_before_year. Z.div_mod_to_equations. lia.
Qed.

Lemma year_of_eq (n : date) :
  year_of n =
  let r1 := (n - 1) mod 146097 in
  let r2 := r1 mod 36524 in
  let r3 := r2 mod 1461 in
  let year := (n - 1) / 146097 * 400 + 1 + r1 / 36524 * 100 + r2 / 1461 * 4 + r3 / 365 in
  if (r3 / 365 =? 4) || (r1 / 36524 =? 4) then year - 1 else year.
Proof.
  unfold year_of, ord2ymd, DI400Y, DI100Y, DI4Y. cbv zeta.
  destruct (_ || _); [reflexivity|].
  destruct (_ <? _); reflexivity.
Qed.

(** The year [_ord2ymd] finds is the year the ordinal falls in. *)
Lemma year_of_bounds (n : date) :
  days_before_year (year_of n) < n ≤ days_before_year (year_of n + 1).
Proof.
  rewrite year_of_eq. cbv zeta.
  set (n400 := (n - 1) / 146097).
  set (r1 := (n - 1) mod 146097).
  set (n100 := r1 / 36524).
  set (r2 := r1 mod 36524).
  set (n4 := r2 / 1461).
  set (r3 := r2 mod 1461).
  set (n1 := r3 / 365).
  assert (H1 : n - 1 = 146097 * n400 + r1 ∧ 0 ≤ r1 < 146097).
  { unfold n400, r1. Z.div_mod_to_equations. lia. }
  assert (H2 : r1 = 36524 * n100 + r2 ∧ 0 ≤ r2 < 36524).
  { unfold n100, r2. Z.div_mod_to_equations. lia. }
  assert (H3 : r2 = 1461 * n4 + r3 ∧ 0 ≤ r3 < 1461).
  { unfold n4, r3. Z.div_mod_to_equations. lia. }
  assert (H4 : r3 = 365 * n1 + r3 mod 365 ∧ 0 ≤ r3 mod 365 < 365).
  { unfold n1. Z.div_mod_to_equations. lia. }
  set (r4 := r3 mod 365) in *.
  clearbody n400 r1 n100 r2 n4 r3 n1 r4.
  assert (0 ≤ n100 ≤ 4) by lia.
  assert (0 ≤ n4 ≤ 24) by lia.
  assert (0 ≤ n1 ≤ 4) by lia.
  destruct (Z.eqb_spec n1 4) as [E1|E1]; [|destruct (Z.eqb_spec n100 4) as [E2|E2]]; simpl;
  unfold days_before_year; Z.div_mod_to_equations; lia.
Qed.

Lemma ymd2ord_jan1 (y : Z) : ymd2ord y 1 1 = days_before_year y + 1.
Proof.
  unfold ymd2ord. replace (days_before_month y 1) with 0 by reflexivity. lia.
Qed.

(** Week 1 of an ISO year starts on the Monday nearest to January 1. *)
Lemma isoweek1monday_spec (y : Z) :
  (isoweek1monday y + 6) mod 7 = 0
  ∧ days_before_year y - 2 ≤ isoweek1monday y ≤ days_before_year y + 4.
Proof.
  unfold isoweek1monday. rewrite ymd2ord_jan1. cbv zeta.
  destruct (Z.ltb_spec 3 ((days_before_year y + 1 + 6) mod 7));
    Z.div_mod_to_equations; lia.
Qed.

Ltac iso_close :=
  repeat match goal with
  | w := isoweek1monday ?y |- _ =>
      progress (try change (isoweek1monday y) with w); clearbody w
  end;
  Z.div_mod_to_equations; lia.

(** The ISO year and week of a Monday determine it. *)
Lemma isocalendar_monday (m : date) :
  weekday m = 0 →
  m = isoweek1monday (fst (fst (isocalendar m))) + 7 * (snd (fst (isocalendar m)) - 1)
  ∧ 1 ≤ snd (fst (isocalendar m)) ≤ 53.
Proof.
  unfold weekday. intros Hmon. unfold isocalendar. cbv zeta.
  pose proof (year_of_bounds m) as Hy.
  set (y := year_of m) in *. clearbody y.
  pose proof (isoweek1monday_spec (y - 1)) as [Ha1 Ha2].
  pose proof (isoweek1monday_spec y) as [Hb1 Hb2].
  pose proof (isoweek1monday_spec (y + 1)) as [Hc1 Hc2].
  pose proof (days_before_year_step (y - 1)) as Hs1.
  pose proof (days_before_year_step y) as Hs2.
  replace (y - 1 + 1) with y in Hs1 by lia.
  set (wa := isoweek1monday (y - 1)) in *.
  set (wb := isoweek1monday y) in *.
  set (wc := isoweek1monday (y + 1)) in *.
  set (da := days_before_year (y - 1)) in *.
  set (db := days_before_year y) in *.
  set (dc := days_before_year (y + 1)) in *.
  clearbody da db dc.
  assert (Hab : wb - wa = 364 ∨ wb - wa = 371).
  { clear Hmon Hy Hc1 Hc2 Hs2. clearbody wa wb. Z.div_mod_to_equations. lia. }
  assert (Hbc : wc - wb = 364 ∨ wc - wb = 371).
  { clear Hmon Hy Ha1 Ha2 Hs1 Hab. clearbody wb wc. Z.div_mod_to_equations. lia. }
  assert (Hma : (m - wa) mod 7 = 0).
  { clear - Hmon Ha1. clearbody wa. Z.div_mod_to_equations. lia. }
  assert (Hmb : (m - wb) mod 7 = 0).
  { clear - Hmon Hb1. clearbody wb. Z.div_mod_to_equations. lia. }
  assert (Hmc : (m - wc) mod 7 = 0).
  { clear - Hmon Hc1. clearbody wc. Z.div_mod_to_equations. lia. }
  destruct (Z.ltb_spec ((m - wb) / 7) 0) as [Hneg|Hnn]; cbn [fst snd].
  - iso_close.
  - destruct (Z.leb_spec 52 ((m - wb) / 7)) as [H52|H52]; cbn [andb].
    + destruct (Z.leb_spec wc m) as [Hge|Hlt]; cbn [fst snd].
      * iso_close.
      * iso_close.
    + cbn [fst snd]. iso_close.
Qed.

(** ** Week labels *)

Lemma str_app_length (s t : string) :
  String.length (s +:+ t) = (String.length s + String.length t)%nat.
Proof. induction s as [|ch s IH]; simpl; [done | by rewrite IH]. Qed.

Lemma str_app_inj_l (s1 s2 t1 t2 : string) :
  String.length s1 = String.length s2 →
  s1 +:+ t1 = s2 +:+ t2 → s1 = s2 ∧ t1 = t2.
Proof.
  revert s2. induction s1 as [|ch s1 IH]; intros [|ch2 s2]; simpl; try done.
  intros [= Hlen] [= -> Happ]. destruct (IH s2 Hlen Happ) as [-> ->]. done.
Qed.

Lemma str_app_inj_r (s1 s2 t1 t2 : string) :
  String.length t1 = String.length t2 →
  s1 +:+ t1 = s2 +:+ t2 → s1 = s2 ∧ t1 = t2.
Proof.
  intros Hlen Happ. apply str_app_inj_l; [|done].
  apply (f_equal String.length) in Happ. rewrite !str_app_length in Happ. lia.
Qed.

Lemma forallb_range (P : Z → bool) (lo n : Z) :
  forallb P (seqZ lo n) = true → ∀ z, lo ≤ z < lo + n → P z = true.
Proof.
  intros H z Hz. rewrite forallb_forall in H. apply H.
  apply list_elem_of_In, elem_of_seqZ. lia.
Qed.

Lemma fmt_02d_week_length (w : Z) : 1 ≤ w ≤ 53 → String.length (fmt_02d w) = 2%nat.
Proof.
  intros Hw.
  apply Nat.eqb_eq.
  apply (forallb_range (fun w => Nat.eqb (String.length (fmt_02d w)) 2) 1 53);
    [vm_compute; reflexivity | lia].
Qed.

Lemma fmt_02d_week_inj (w w' : Z) :
  1 ≤ w ≤ 53 → 1 ≤ w' ≤ 53 → fmt_02d w = fmt_02d w' → w = w'.
Proof.
  intros Hw Hw' Heq.
  assert (H : forallb (fun v' => implb (String.eqb (fmt_02d w) (fmt_02d v')) (w =? v'))
                (seqZ 1 53) = true).
  { apply (forallb_range
             (fun v => forallb (fun v' => implb (String.eqb (fmt_02d v) (fmt_02d v')) (v =? v'))
                         (seqZ 1 53)) 1 53); [vm_compute; reflexivity | lia]. }
  pose proof (forallb_range _ 1 53 H w' ltac:(lia)) as Hp. cbv beta in Hp.
  rewrite Heq, String.eqb_refl in Hp. simpl in Hp. by apply Z.eqb_eq.
Qed.

Lemma week_monday_is_monday (d : date) : weekday (week_monday d) = 0.
Proof. unfold week_monday, weekday. Z.div_mod_to_equations. lia. Qed.

Lemma week_monday_le (d : date) : d - 6 ≤ week_monday d ≤ d.
Proof. unfold week_monday, weekday. Z.div_mod_to_equations. lia. Qed.

Lemma last_monday_is_monday (now : stamp) : weekday (last_monday now) = 0.
Proof.
  pose proof (week_monday_is_monday (st_date now)) as H.
  unfold last_monday, weekday in *. Z.div_mod_to_equations. lia.
Qed.

(** Two Mondays with the same label are the same Monday. *)
Lemma iso_week_label_inj (m m' : date) :
  weekday m = 0 → weekday m' = 0 → iso_week_label m = iso_week_label m' → m = m'.
Proof.
  intros Hm Hm' Hlabel.
  destruct (isocalendar_monday m Hm) as [Em Wm].
  destruct (isocalendar_monday m' Hm') as [Em' Wm'].
  unfold iso_week_label in Hlabel. cbv zeta in Hlabel.
  apply str_app_inj_r in Hlabel as [Hy Hw].
  - apply (inj pretty) in Hy.
    apply str_app_inj_l in Hw as [_ Hw]; [|done].
    apply fmt_02d_week_inj in Hw; [|done..].
    rewrite Em, Em', Hy, Hw. done.
  - rewrite !str_app_length, !fmt_02d_week_length by done. done.
Qed.

Lemma week_file_inj (l l' : string) : week_file l = week_file l' → l = l'.
Proof. unfold week_file. intros H. by apply str_app_inj_r in H as [-> _]. Qed.

(** ** The rollover *)


Lemma rollover_existing (c : cache) (now : stamp) (today : date) (files : weekly_dir) :
  is_Some (files !! last_week_file now) →
  check_weekly_rollover c now today files = Ok (files, None).
Proof.
  intros [t Ht]. unfold check_weekly_rollover. cbv zeta.
  unfold last_week_file, last_monday in Ht. by rewrite Ht.
Qed.

Lemma rollover_missing (c : cache) (now : stamp) (today : date) (files : weekly_dir) :
  files !! last_week_file now = None →
  check_weekly_rollover c now today files =
  match weekly_summary_text c (last_monday now) today with
  | Ok text => Ok (<[last_week_file now := text]> files,
                   Some (iso_week_label (last_monday now)))
  | Raise e => Raise e
  end.
Proof.
  intros Hnone. unfold check_weekly_rollover, generate_weekly_summary. cbv zeta.
  unfold last_week_file, last_monday in *. rewrite !Hnone.
  by destruct (weekly_summary_text _ _ _).
Qed.

(** What a rollover can have done to the weekly directory. *)
Lemma rollover_effect (c : cache) (now : stamp) (today : date)
    (files files' : weekly_dir) (label : option string) :
  check_weekly_rollover c now today files = Ok (files', label) →
  (files' = files ∧ label = None ∧ is_Some (files !! last_week_file now))
  ∨ (∃ text, files !! last_week_file now = None
             ∧ weekly_summary_text c (last_monday now) today = Ok text
             ∧ files' = <[last_week_file now := text]> files
             ∧ label = Some (iso_week_label (last_monday now))).
Proof.
  destruct (files !! last_week_file now) as [t|] eqn:Hf.
  - rewrite rollover_existing by eauto. intros [= <- <-]. left. eauto.
  - rewrite rollover_missing by done.
    destruct (weekly_summary_text _ _ _) as [text|e]; [|done].
    intros [= <- <-]. right. exists text. done.
Qed.

(** What a run can have done to the weekly directory. *)
Lemma main_on_cache_effect (env : run_env) (w : world) (c0 : cache) :
  (weekly_files (fst (main_on_cache env w c0)) = weekly_files w
   ∧ (∀ status, snd (main_on_cache env w c0) = Ok status →
                is_Some (weekly_files w !! last_week_file (at_rollover env))))
  ∨ (∃ c text,
       weekly_files w !! last_week_file (at_rollover env) = None
       ∧ weekly_summary_text c (last_monday (at_rollover env)) (at_rollover_totals env)
         = Ok text
       ∧ cache_file (fst (main_on_cache env w c0)) = save_cache c
       ∧ weekly_files (fst (main_on_cache env w c0))
         = <[last_week_file (at_rollover env) := text]> (weekly_files w)).
Proof.
  unfold main_on_cache.
  destruct (fetch_activities_after env _) as [new_activities|e]; [|left; done].
  destruct (merge c0 new_activities 0) as [c added].
  destruct (check_weekly_rollover _ _ _ _) as [[files label]|e] eqn:Hroll; [|left; done].
  apply rollover_effect in Hroll as [(-> & -> & Hsome)|(text & Hnone & Htext & -> & ->)].
  - left. destruct (write_current_week _ _ _); done.
  - right. exists c, text. destruct (write_current_week _ _ _); done.
Qed.

Lemma main_effect (env : run_env) (w : world) :
  (weekly_files (fst (main env w)) = weekly_files w
   ∧ (∀ status, snd (main env w) = Ok status →
                is_Some (weekly_files w !! last_week_file (at_rollover env))))
  ∨ (∃ c text,
       weekly_files w !! last_week_file (at_rollover env) = None
       ∧ weekly_summary_text c (last_monday (at_rollover env)) (at_rollover_totals env)
         = Ok text
       ∧ cache_file (fst (main env w)) = save_cache c
       ∧ weekly_files (fst (main env w))
         = <[last_week_file (at_rollover env) := text]> (weekly_files w)).
Proof.
  unfold main.
  destruct (has_credentials env); cbn [negb]; [|left; done].
  destruct (load_cache (cache_file w)) as [[c|truthy]|e]; [| |left; done].
  - apply main_on_cache_effect.
  - destruct (force env); [apply main_on_cache_effect|].
    destruct truthy; [left; done|].
    destruct (fetch_activities_after env _) as [[|a l]|e]; left; done.
Qed.


Lemma main_other_reports (env : run_env) (w : world) (p : string) :
  p ≠ last_week_file (at_rollover env) →
  weekly_files (fst (main env w)) !! p = weekly_files w !! p.
Proof.
  intros Hp.
  destruct (main_effect env w) as [[-> _]|(c & t & Hnone & _ & _ & ->)]; [done|].
  by rewrite lookup_insert_ne.
Qed.




(** C8.  A rollover writes at most the file of the week before the current
    one: every other file of the weekly directory is as it was.  A run
    therefore leaves the report of any strictly earlier week as it found
    it, and a missing report of a week that every later run sees as
    strictly earlier than its previous week stays missing. *)
Theorem rollover_checks_only_previous_week :
  (∀ c now today files files' label p,
     check_weekly_rollover c now today files = Ok (files', label) →
     p ≠ last_week_file now → files' !! p = files !! p)
  ∧ (∀ env w m,
       weekday m = 0 → m < last_monday (at_rollover env) →
       weekly_files (fst (main env w)) !! week_file (iso_week_label m)
       = weekly_files w !! week_file (iso_week_label m))
  ∧ (∀ envs w m,
       weekday m = 0 →
       (∀ env, In env envs → m < last_monday (at_rollover env)) →
       weekly_files w !! week_file (iso_week_label m) = None →
       weekly_files (runs envs w) !! week_file (iso_week_label m) = None).
Proof.
  assert (Hrun : ∀ env w m,
             weekday m = 0 → m < last_monday (at_rollover env) →
             weekly_files (fst (main env w)) !! week_file (iso_week_label m)
             = weekly_files w !! week_file (iso_week_label m)).
  { intros env w m Hm Hlt. apply main_other_reports.
    unfold last_week_file. intros Heq.
    apply week_file_inj, iso_week_label_inj in Heq;
      [lia | done | apply last_monday_is_monday]. }
  split; [|split; [exact Hrun|]].
  - intros c now today files files' label p Hroll Hp.
    apply rollover_effect in Hroll as [(-> & _)|(text & _ & _ & -> & _)]; [done|].
    by rewrite lookup_insert_ne.
  - intros envs. unfold runs.
    induction envs as [|env envs IH]; intros w m Hm Hall Hnone; cbn [fold_left].
    + done.
    + apply IH; [done | intros e He; apply Hall; by right |].
      rewrite Hrun; [done | done | apply Hall; by left].
Qed.

Lemma rollover_checks_only_previous_week_witness :
  weekly_files
    (runs [sample_env {| st_date := 738890; st_secs := 0 |} [];
           sample_env {| st_date := 738897; st_secs := 0 |} []] empty_world)
  !! week_file (iso_week_label 738872) = None.
Proof.
  apply (proj2 (proj2 rollover_checks_only_previous_week)).
  - vm_compute. reflexivity.
  - intros env [<-|[<-|[]]]; vm_compute; reflexivity.
  - vm_compute. reflexivity.
Defined.

(** ** Rolling over a week without activities *)

Lemma str_app_assoc (a b c : string) : (a +:+ b) +:+ c = a +:+ (b +:+ c).
Proof.
  induction a as [|ch a IH]; [reflexivity|].
  change (String ch ((a +:+ b) +:+ c) = String ch (a +:+ (b +:+ c))).
  by rewrite IH.
Qed.

Lemma join_lines_cons (x y : string) (l : list string) :
  join_lines (x :: y :: l) = x +:+ newline +:+ join_lines (y :: l).
Proof. reflexivity. Qed.

(** A block of lines joined beforehand joins like its lines. *)
Lemma join_lines_flatten (inner rest : list string) :
  inner ≠ [] → join_lines (join_lines inner :: rest) = join_lines (inner ++ rest).
Proof.
  induction inner as [|x [|y tl] IH]; intros Hne; [done|done|].
  rewrite join_lines_cons.
  change ((x :: y :: tl) ++ rest) with (x :: (y :: tl) ++ rest).
  change ((y :: tl) ++ rest) with (y :: tl ++ rest) at 1. rewrite join_lines_cons.
  change (y :: tl ++ rest) with ((y :: tl) ++ rest). rewrite <- IH by done.
  destruct rest as [|r rest].
  - reflexivity.
  - rewrite !join_lines_cons, !str_app_assoc. reflexivity.
Qed.

Lemma join_lines_flatten_at (pre inner rest : list string) :
  inner ≠ [] →
  join_lines (pre ++ join_lines inner :: rest) = join_lines (pre ++ inner ++ rest).
Proof.
  intros Hne. induction pre as [|x pre IH];
    [exact (join_lines_flatten inner rest Hne)|].
  cbn [app].
  destruct (pre ++ join_lines inner :: rest) as [|y l] eqn:E1;
    [by destruct pre|].
  destruct (pre ++ inner ++ rest) as [|y' l'] eqn:E2;
    [by destruct pre, inner|].
  by rewrite !join_lines_cons, IH.
Qed.

Lemma build_week_totals_nil (monday_date today : date) :
  build_week_totals [] monday_date today
  = Ok (join_lines
          [ "- Running: 0.0 mi | 0 runs | avg pace —";
            "- Cycling: 0.0 mi | 0 rides | 0m";
            "- Strength: (see status.md)";
            empty_rest_line monday_date today;
            "- Total training hours: 0m" ]).
Proof.
  unfold build_week_totals, empty_rest_line. cbv zeta.
  assert (Hrest : rest_days [] monday_date today = days_so_far monday_date today).
  { unfold rest_days, active_days. cbn [map].
    rewrite list_to_set_nil, size_empty. lia. }
  rewrite Hrest. reflexivity.
Qed.

Lemma empty_rest_line_past (monday_date today : date) :
  monday_date + 6 < today → empty_rest_line monday_date today = "- Rest days: 7".
Proof.
  intros Hpast. unfold empty_rest_line.
  replace (is_current monday_date today) with false
    by (symmetry; unfold is_current; zcases).
  replace (days_so_far monday_date today) with 7 by (unfold days_so_far; lia).
  reflexivity.
Qed.

(** C10.  When the previous week has no cached activity and no report yet,
    the rollover still writes its report: the totals are those of the empty
    set, the table holds the row "No activities", and on a clock that does
    not run backwards the rest-day line counts all seven days.  From then
    on a rollover for that week writes nothing, whatever the cache has come
    to hold. *)
Theorem rollover_writes_empty_week (c : cache) (now : stamp) (today : date)
    (files : weekly_dir) :
  files !! last_week_file now = None →
  activities_for_week c (last_monday now) = [] →
  check_weekly_rollover c now today files
  = Ok (<[last_week_file now := empty_week_report (last_monday now) today]> files,
        Some (iso_week_label (last_monday now)))
  ∧ weekly_summary_text [] (last_monday now) today
    = Ok (empty_week_report (last_monday now) today)
  ∧ (st_date now ≤ today →
     empty_rest_line (last_monday now) today = "- Rest days: 7")
  ∧ ∀ c' now' today',
      last_monday now' = last_monday now →
      check_weekly_rollover c' now' today'
        (<[last_week_file now := empty_week_report (last_monday now) today]> files)
      = Ok (<[last_week_file now := empty_week_report (last_monday now) today]> files,
            None).
Proof.
  intros Hnone Hempty.
  assert (Htext : ∀ c0, activities_for_week c0 (last_monday now) = [] →
                        weekly_summary_text c0 (last_monday now) today
                        = Ok (empty_week_report (last_monday now) today)).
  { intros c0 Hc0. unfold weekly_summary_text. cbv zeta.
    rewrite Hc0, build_week_totals_nil. cbn [mbind result_bind table_rows].
    unfold empty_week_report. f_equal.
    apply (f_equal (fun text => text +:+ newline)).
    exact (join_lines_flatten_at
             [ "# Week " +:+ fmt_02d (snd (fst (isocalendar (last_monday now))))
                 +:+ " (" +:+ week_date_range_str (last_monday now) +:+ ")";
               ""; "## Totals" ]
             [ "- Running: 0.0 mi | 0 runs | avg pace —";
               "- Cycling: 0.0 mi | 0 rides | 0m";
               "- Strength: (see status.md)";
               empty_rest_line (last_monday now) today;
               "- Total training hours: 0m" ]
             ("" :: table_head ++ [no_activities_row]
                 ++ [""; "## Body & Injury Notes"; "- (to be filled in)"; "";
                     "## Training Notes"; "- (to be filled in)"; ""])
             ltac:(discriminate)). }
  split; [|split; [|split]].
  - rewrite rollover_missing by done. by rewrite Htext.
  - by apply Htext.
  - intros Hclock. apply empty_rest_line_past.
    pose proof (week_monday_le (st_date now)). unfold last_monday. lia.
  - intros c' now' today' Hsame.
    apply rollover_existing. unfold last_week_file. rewrite Hsame.
    rewrite lookup_insert_eq. eauto.
Qed.

Lemma rollover_writes_empty_week_witness :
  check_weekly_rollover [("1", sample_activity 1 "Run" 738886 3600 5000 1500)]
    {| st_date := 738890; st_secs := 0 |} 738890 ∅
  = Ok (<[last_week_file {| st_date := 738890; st_secs := 0 |}
          := empty_week_report (last_monday {| st_date := 738890; st_secs := 0 |})
               738890]> ∅,
        Some (iso_week_label (last_monday {| st_date := 738890; st_secs := 0 |}))).
Proof.
  pose proof (rollover_writes_empty_week
                [("1", sample_activity 1 "Run" 738886 3600 5000 1500)]
                {| st_date := 738890; st_secs := 0 |} 738890 ∅) as Hempty.
  refine (proj1 (Hempty _ _)); vm_compute; reflexivity.
Defined.

(** ** Rounding to binary64: the shift and its remainder *)

Lemma nat_iter_plus {A} (f : A → A) (a b : nat) (x : A) :
  Nat.iter (a + b) f x = Nat.iter a f (Nat.iter b f x).
Proof. induction a as [|a IH]; simpl; [done | by rewrite IH]. Qed.

Lemma nat_iter_S {A} (f : A → A) (n : nat) (x : A) :
  Nat.iter (S n) f x = f (Nat.iter n f x).
Proof. reflexivity. Qed.

Lemma iter_pos_nat {A} (f : A → A) (p : positive) (x : A) :
  SpecFloat.iter_pos f p x = Nat.iter (Pos.to_nat p) f x.
Proof.
  revert x. induction p as [p IH|p IH|]; intros x; cbn [SpecFloat.iter_pos].
  - rewrite !IH, <- nat_iter_plus.
    change (f x) with (Nat.iter 1 f x). rewrite <- nat_iter_plus.
    f_equal. lia.
  - rewrite !IH, <- nat_iter_plus. f_equal. lia.
  - reflexivity.
Qed.

Lemma shr_1_spec (m : Z) (r s : bool) :
  0 ≤ m →
  shr_1 {| shr_m := m; shr_r := r; shr_s := s |}
  = {| shr_m := m / 2; shr_r := Z.odd m; shr_s := r || s |}.
Proof.
  intros Hm. rewrite <- Z.div2_div.
  destruct m as [|[p|p|]|p]; try reflexivity. lia.
Qed.

(** Shifting [n] bits out of [M]: the quotient stays, and nothing is
    recorded as lost when the bits were all zero. *)
Lemma shr_iter_spec (M : Z) (n : nat) :
  0 ≤ M →
  ∃ r s,
    Nat.iter n shr_1 {| shr_m := M; shr_r := false; shr_s := false |}
    = {| shr_m := M / 2 ^ Z.of_nat n; shr_r := r; shr_s := s |}
    ∧ (M mod 2 ^ Z.of_nat n = 0 → r = false ∧ s = false).
Proof.
  intros HM. induction n as [|n (r & s & IH & Hex)].
  - exists false, false. simpl. rewrite Z.div_1_r. done.
  - assert (Hpow : 0 < 2 ^ Z.of_nat n) by (apply Z.pow_pos_nonneg; lia).
    exists (Z.odd (M / 2 ^ Z.of_nat n)), (r || s).
    rewrite nat_iter_S, IH.
    rewrite shr_1_spec by (apply Z.div_pos; lia).
    rewrite Nat2Z.inj_succ, Z.pow_succ_r by lia. split.
    + f_equal. rewrite Z.div_div by lia. f_equal. lia.
    + intros Hmod.
      assert (Hn : M mod 2 ^ Z.of_nat n = 0 ∧ (M / 2 ^ Z.of_nat n) mod 2 = 0).
      { rewrite Z.mul_comm in Hmod. rewrite Z.rem_mul_r in Hmod by lia.
        pose proof (Z.mod_pos_bound M (2 ^ Z.of_nat n) Hpow).
        pose proof (Z.mod_pos_bound (M / 2 ^ Z.of_nat n) 2 ltac:(lia)). nia. }
      destruct Hn as [Hn1 Hn2]. destruct (Hex Hn1) as [-> ->].
      split; [|done].
      rewrite <- Z.negb_even. apply negb_false_iff.
      rewrite Z.even_spec. exists (M / 2 ^ Z.of_nat n / 2).
      Z.div_mod_to_equations. lia.
Qed.

Lemma shr_spec (M E n : Z) :
  0 ≤ M →
  ∃ mrs,
    shr {| shr_m := M; shr_r := false; shr_s := false |} E n = (mrs, E + Z.max 0 n)
    ∧ shr_m mrs = M / 2 ^ Z.max 0 n
    ∧ (M mod 2 ^ Z.max 0 n = 0 → loc_of_shr_record mrs = loc_Exact).
Proof.
  intros HM. destruct n as [|p|p]; cbn [shr].
  - eexists. rewrite Z.add_0_r. split; [done|].
    cbn. rewrite Z.div_1_r. done.
  - rewrite iter_pos_nat.
    destruct (shr_iter_spec M (Pos.to_nat p) HM) as (r & s & -> & Hex).
    rewrite positive_nat_Z in *. rewrite Z.max_r by lia.
    eexists. split; [done|]. split; [done|].
    intros Hmod. destruct (Hex Hmod) as [-> ->]. done.
  - eexists. rewrite Z.max_l by lia. rewrite Z.add_0_r. split; [done|].
    cbn. rewrite Z.div_1_r. done.
Qed.

Lemma round_nearest_even_bounds (m : Z) (l : location) :
  m ≤ round_nearest_even m l ≤ m + 1
  ∧ (l = loc_Exact → round_nearest_even m l = m).
Proof.
  destruct l as [|[| |]]; cbn [round_nearest_even];
    try destruct (Z.even m); split; (lia || done).
Qed.

Lemma digits2_bounds (p : positive) :
  2 ^ (Z.pos (digits2_pos p) - 1) ≤ Z.pos p < 2 ^ Z.pos (digits2_pos p).
Proof.
  induction p as [p IH|p IH|]; cbn [digits2_pos].
  - rewrite Pos2Z.inj_succ. replace (Z.succ (Z.pos (digits2_pos p)) - 1)
      with (Z.succ (Z.pos (digits2_pos p) - 1)) by lia.
    rewrite !Z.pow_succ_r by lia. lia.
  - rewrite Pos2Z.inj_succ. replace (Z.succ (Z.pos (digits2_pos p)) - 1)
      with (Z.succ (Z.pos (digits2_pos p) - 1)) by lia.
    rewrite !Z.pow_succ_r by lia. lia.
  - simpl. lia.
Qed.

(** A positive number below [2 ^ b] has at most [b] binary digits. *)
Lemma digits2_le (p : positive) (b : Z) :
  Z.pos p < 2 ^ b → Z.pos (digits2_pos p) ≤ b.
Proof.
  intros Hlt. pose proof (digits2_bounds p) as [Hlo _].
  destruct (Z.le_gt_cases (Z.pos (digits2_pos p)) b) as [|Hgt]; [done|].
  assert (2 ^ b ≤ 2 ^ (Z.pos (digits2_pos p) - 1)); [|lia].
  apply Z.pow_le_mono_r; lia.
Qed.

Lemma digits2_ge (p : positive) (b : Z) :
  0 ≤ b → 2 ^ b ≤ Z.pos p → b + 1 ≤ Z.pos (digits2_pos p).
Proof.
  intros Hb Hle. pose proof (digits2_bounds p) as [_ Hhi].
  destruct (Z.le_gt_cases (b + 1) (Z.pos (digits2_pos p))) as [|Hgt]; [done|].
  assert (2 ^ Z.pos (digits2_pos p) ≤ 2 ^ b); [|lia].
  apply Z.pow_le_mono_r; lia.
Qed.

Lemma pos_iter_xO (m d : positive) :
  Z.pos (Pos.iter xO m d) = Z.pos m * 2 ^ Z.pos d.
Proof.
  induction d as [|d IH] using Pos.peano_ind.
  - simpl. lia.
  - rewrite Pos.iter_succ, Pos2Z.inj_xO, IH, Pos2Z.inj_succ, Z.pow_succ_r by lia. lia.
Qed.

Lemma fexp_eq (x : Z) : fexp prec emax x = Z.max (x - 53) (-1074).
Proof. reflexivity. Qed.

Lemma div_pow2_le (a k q n : Z) :
  0 ≤ n → 0 ≤ q → 0 ≤ a → a ≤ k * 2 ^ (q + n) → a / 2 ^ n ≤ k * 2 ^ q.
Proof.
  intros Hn Hq Ha Hle. rewrite Z.pow_add_r in Hle by lia.
  assert (0 < 2 ^ n) by (apply Z.pow_pos_nonneg; lia).
  apply Z.div_le_upper_bound; [done|]. lia.
Qed.

Lemma div_pow2_lt (a k q n : Z) :
  0 ≤ n → 0 ≤ q → 0 ≤ a → a ≤ k * 2 ^ (q + n) → a mod 2 ^ n ≠ 0 →
  a / 2 ^ n + 1 ≤ k * 2 ^ q.
Proof.
  intros Hn Hq Ha Hle Hmod. rewrite Z.pow_add_r in Hle by lia.
  assert (0 < 2 ^ n) by (apply Z.pow_pos_nonneg; lia).
  assert (a / 2 ^ n < k * 2 ^ q); [|lia].
  apply Z.div_lt_upper_bound; [done|].
  assert (a ≠ 2 ^ n * (k * 2 ^ q)); [|lia].
  intros ->. apply Hmod. rewrite Z.mul_comm. apply Z.mod_mul. lia.
Qed.

Lemma below_pow2 (a k q : Z) :
  0 ≤ q → 0 < k < 2 ^ 53 → a ≤ k * 2 ^ q → a < 2 ^ (53 + q).
Proof.
  intros Hq Hk Ha. rewrite Z.pow_add_r by lia.
  assert (0 < 2 ^ q) by (apply Z.pow_pos_nonneg; lia). nia.
Qed.

(** Rounding an exact value that does not exceed [K * 2 ^ c], a value the
    format holds, gives a float that does not exceed it either. *)
Lemma binary_round_aux_le (M : positive) (E K c : Z) :
  0 < K < 2 ^ 53 → -1074 ≤ c ≤ 971 → E ≤ c → Z.pos M ≤ K * 2 ^ (c - E) →
  match binary_round_aux prec emax false (Z.pos M) E loc_Exact with
  | S754_zero s => s = false
  | S754_finite s m e => s = false ∧ e ≤ c ∧ Z.pos m ≤ K * 2 ^ (c - e)
  | _ => False
  end.
Proof.
  intros HK Hc HE HM.
  unfold binary_round_aux, shr_fexp.
  cbn [shr_record_of_loc Zdigits2]. rewrite fexp_eq.
  pose proof (digits2_le M (53 + (c - E))
                (below_pow2 (Z.pos M) K (c - E) ltac:(lia) HK HM)) as Hd.
  set (d := Z.pos (digits2_pos M)) in *.
  set (n := Z.max (d + E - 53) (-1074) - E).
  destruct (shr_spec (Z.pos M) E n ltac:(lia)) as (mrs & -> & Hm1 & Hex1).
  set (N := Z.max 0 n) in *.
  assert (HN : 0 ≤ N ∧ E + N ≤ c) by lia.
  destruct (round_nearest_even_bounds (shr_m mrs) (loc_of_shr_record mrs)) as [Hrb Hre].
  set (m2 := round_nearest_even (shr_m mrs) (loc_of_shr_record mrs)) in *.
  assert (Hm1pos : 0 ≤ shr_m mrs).
  { rewrite Hm1. apply Z.div_pos; [lia|]. apply Z.pow_pos_nonneg; lia. }
  assert (Hm2 : 0 ≤ m2 ≤ K * 2 ^ (c - (E + N))).
  { split; [lia|].
    replace (c - E) with (c - (E + N) + N) in HM by lia.
    destruct (Z.eq_dec (Z.pos M mod 2 ^ N) 0) as [Hz|Hnz].
    - rewrite (Hre (Hex1 Hz)), Hm1.
      apply div_pow2_le; lia.
    - pose proof (div_pow2_lt (Z.pos M) K (c - (E + N)) N
                    ltac:(lia) ltac:(lia) ltac:(lia) HM Hnz).
      lia. }
  clearbody m2.
  set (n2 := fexp prec emax (Zdigits2 m2 + (E + N)) - (E + N)).
  destruct (shr_spec m2 (E + N) n2 ltac:(lia)) as (mrs2 & -> & Hm3 & _).
  set (N2 := Z.max 0 n2) in *.
  assert (HN2 : 0 ≤ N2 ∧ (0 < m2 → E + N + N2 ≤ c)).
  { split; [lia|]. intros Hpos. unfold N2, n2. rewrite fexp_eq.
    destruct m2 as [|p2|p2]; [lia| |lia]. cbn [Zdigits2].
    pose proof (digits2_le p2 (53 + (c - (E + N)))
                  (below_pow2 (Z.pos p2) K (c - (E + N)) ltac:(lia) HK (proj2 Hm2))). lia. }
  destruct HN2 as [HN2 He3].
  assert (Hm3pos : 0 ≤ shr_m mrs2).
  { rewrite Hm3. apply Z.div_pos; [lia|]. apply Z.pow_pos_nonneg; lia. }
  destruct (shr_m mrs2) as [|m3|m3] eqn:Em3; [done| |lia].
  assert (Hm2pos : 0 < m2).
  { destruct (Z.eq_dec m2 0) as [->|]; [|lia]. rewrite Z.div_0_l in Hm3; [lia|].
    apply Z.pow_nonzero; lia. }
  specialize (He3 Hm2pos).
  replace (E + N + N2 <=? emax - prec) with true
    by (symmetry; apply Z.leb_le; change (emax - prec) with 971; lia).
  split; [done|]. split; [lia|].
  rewrite Hm3. apply div_pow2_le; [lia..|].
  replace (c - (E + N + N2) + N2) with (c - (E + N)) by lia. lia.
Qed.

Lemma shl_align_spec (mx : positive) (ex ex' : Z) :
  ∃ mz,
    shl_align mx ex ex' = (mz, Z.min ex ex')
    ∧ Z.pos mz = Z.pos mx * 2 ^ (ex - Z.min ex ex').
Proof.
  unfold shl_align. destruct (ex' - ex) as [|d|d] eqn:Hd.
  - exists mx. rewrite Z.min_l by lia. rewrite Z.sub_diag. split; [done|]. simpl. lia.
  - exists mx. rewrite Z.min_l by lia. rewrite Z.sub_diag. split; [done|]. simpl. lia.
  - exists (Pos.iter xO mx d). rewrite Z.min_r by lia. split; [done|].
    rewrite pos_iter_xO. f_equal. f_equal. lia.
Qed.

Lemma binary_round_le (D : positive) (ez K c : Z) :
  0 < K < 2 ^ 53 → -1074 ≤ c ≤ 971 → ez ≤ c → Z.pos D ≤ K * 2 ^ (c - ez) →
  match binary_round prec emax false D ez with
  | S754_zero s => s = false
  | S754_finite s m e => s = false ∧ e ≤ c ∧ Z.pos m ≤ K * 2 ^ (c - e)
  | _ => False
  end.
Proof.
  intros HK Hc Hez HD. unfold binary_round.
  destruct (shl_align_spec D ez (fexp prec emax (Z.pos (digits2_pos D) + ez)))
    as (mz & -> & Hmz).
  set (ez' := Z.min ez _) in *.
  apply binary_round_aux_le; [done | done | lia |].
  rewrite Hmz. replace (c - ez') with (c - ez + (ez - ez')) by lia.
  rewrite Z.pow_add_r by lia.
  assert (0 < 2 ^ (ez - ez')) by (apply Z.pow_pos_nonneg; lia). nia.
Qed.

Lemma bounded_spec (m : positive) (e : Z) :
  bounded prec emax m e = true ↔
  Z.max (Z.pos (digits2_pos m) + e - 53) (-1074) = e ∧ e ≤ 971.
Proof.
  unfold bounded, canonical_mantissa. rewrite andb_true_iff, Z.eqb_eq, Z.leb_le, fexp_eq.
  change (emax - prec) with 971. done.
Qed.

(** A canonical mantissa and exponent are not changed by rounding. *)
Lemma binary_round_aux_canonical (m : positive) (e : Z) :
  bounded prec emax m e = true →
  binary_round_aux prec emax false (Z.pos m) e loc_Exact = S754_finite false m e.
Proof.
  intros [Hcan He]%bounded_spec.
  unfold binary_round_aux, shr_fexp. cbn [shr_record_of_loc Zdigits2].
  replace (fexp prec emax (Z.pos (digits2_pos m) + e) - e) with 0
    by (rewrite fexp_eq; lia).
  cbn [shr shr_m loc_of_shr_record round_nearest_even shr_record_of_loc Zdigits2].
  replace (fexp prec emax (Z.pos (digits2_pos m) + e) - e) with 0
    by (rewrite fexp_eq; lia).
  cbn [shr shr_m].
  replace (e <=? emax - prec) with true
    by (symmetry; apply Z.leb_le; change (emax - prec) with 971; lia).
  done.
Qed.

Lemma digits2_eq (p : positive) (d : Z) :
  0 < d → 2 ^ (d - 1) ≤ Z.pos p < 2 ^ d → Z.pos (digits2_pos p) = d.
Proof.
  intros Hd [Hlo Hhi].
  pose proof (digits2_le p d Hhi). pose proof (digits2_ge p (d - 1) ltac:(lia) Hlo). lia.
Qed.

Lemma scale_bounds (a d s : Z) :
  0 < d → 0 ≤ s → 2 ^ (d - 1) ≤ a < 2 ^ d →
  2 ^ (d + s - 1) ≤ a * 2 ^ s < 2 ^ (d + s).
Proof.
  intros Hd Hs [Hlo Hhi].
  replace (d + s - 1) with (d - 1 + s) by lia.
  rewrite !Z.pow_add_r by lia.
  assert (0 < 2 ^ s) by (apply Z.pow_pos_nonneg; lia). nia.
Qed.

(** An integer below [2 ^ 53] converts to a float of the same value. *)
Lemma binary_normalize_small (whole : Z) :
  0 < whole < 2 ^ 53 →
  ∃ mw ew,
    binary_normalize prec emax whole 0 false = S754_finite false mw ew
    ∧ bounded prec emax mw ew = true
    ∧ -52 ≤ ew ≤ 0
    ∧ Z.pos mw = whole * 2 ^ (- ew).
Proof.
  intros [Hpos Hlt]. destruct whole as [|P|P]; [lia| |lia].
  cbn [binary_normalize]. unfold binary_round.
  pose proof (digits2_le P 53 Hlt) as Hd53.
  pose proof (digits2_bounds P) as HdP.
  set (d := Z.pos (digits2_pos P)) in *.
  destruct (shl_align_spec P 0 (fexp prec emax (d + 0))) as (mz & -> & Hmz).
  rewrite fexp_eq in *.
  replace (Z.min 0 (Z.max (d + 0 - 53) (-1074))) with (d - 53) in * by lia.
  replace (0 - (d - 53)) with (53 - d) in Hmz by lia.
  assert (Hdz : Z.pos (digits2_pos mz) = 53).
  { assert (Z.pos (digits2_pos mz) = d + (53 - d)); [|lia].
    apply digits2_eq; [lia|]. rewrite Hmz. apply scale_bounds; lia. }
  assert (Hb : bounded prec emax mz (d - 53) = true).
  { apply bounded_spec. lia. }
  exists mz, (d - 53). split; [by apply binary_round_aux_canonical|].
  split; [done|]. split; [lia|].
  rewrite Hmz. f_equal. f_equal. lia.
Qed.

(** A float that is an integer converts back to itself. *)
Lemma binary_normalize_integral (m : positive) (e : Z) :
  bounded prec emax m e = true → 0 ≤ e →
  binary_normalize prec emax (Z.pos m * 2 ^ e) 0 false = S754_finite false m e.
Proof.
  intros Hb He. pose proof Hb as [Hcan Hemax]%bounded_spec.
  assert (Hpow : 0 < 2 ^ e) by (apply Z.pow_pos_nonneg; lia).
  destruct (Z.pos m * 2 ^ e) as [|P|P] eqn:EP; [lia| |lia].
  cbn [binary_normalize]. unfold binary_round.
  pose proof (digits2_bounds m) as Hdm.
  assert (HdP : Z.pos (digits2_pos P) = 53 + e).
  { assert (Z.pos (digits2_pos P) = Z.pos (digits2_pos m) + e); [|lia].
    apply digits2_eq; [lia|]. rewrite <- EP. apply scale_bounds; lia. }
  rewrite HdP.
  destruct (shl_align_spec P 0 (fexp prec emax (53 + e + 0))) as (mz & -> & Hmz).
  rewrite fexp_eq in *.
  replace (Z.min 0 (Z.max (53 + e + 0 - 53) (-1074))) with 0 in * by lia.
  rewrite Z.sub_0_r, Z.pow_0_r, Z.mul_1_r in Hmz. injection Hmz as ->.
  unfold binary_round_aux, shr_fexp. cbn [shr_record_of_loc Zdigits2].
  rewrite HdP, fexp_eq.
  destruct (shr_spec (Z.pos P) 0 (Z.max (53 + e + 0 - 53) (-1074) - 0) ltac:(lia))
    as (mrs & -> & Hm1 & Hex1).
  replace (Z.max 0 (Z.max (53 + e + 0 - 53) (-1074) - 0)) with e in * by lia.
  rewrite <- EP in Hm1, Hex1.
  rewrite Z.div_mul in Hm1 by lia.
  rewrite (proj2 (round_nearest_even_bounds _ _) (Hex1 (Z.mod_mul (Z.pos m) (2 ^ e) ltac:(lia)))), Hm1.
  cbn [Zdigits2 shr_record_of_loc].
  replace (fexp prec emax (Z.pos (digits2_pos m) + (0 + e)) - (0 + e)) with 0
    by (rewrite fexp_eq; lia).
  cbn [shr shr_m].
  replace (0 + e <=? emax - prec) with true
    by (symmetry; apply Z.leb_le; change (emax - prec) with 971; lia).
  reflexivity.
Qed.

(** ** The fractional seconds of a pace *)

Lemma round_half_even_le (m k B : Z) :
  0 < k → 0 ≤ m ≤ B * 2 ^ k → 0 ≤ round_half_even m k ≤ B.
Proof.
  intros Hk [Hm0 HmB]. unfold round_half_even. cbv zeta.
  assert (Hp : 0 < 2 ^ k) by (apply Z.pow_pos_nonneg; lia).
  assert (Hh : 0 < 2 ^ (k - 1)) by (apply Z.pow_pos_nonneg; lia).
  pose proof (Z.div_pos m (2 ^ k) Hm0 Hp) as Hq0.
  pose proof (Z.div_le_upper_bound m (2 ^ k) B Hp ltac:(lia)) as HqB.
  pose proof (Z.div_mod m (2 ^ k) ltac:(lia)) as Hdm.
  pose proof (Z.mod_pos_bound m (2 ^ k) Hp) as Hr.
  destruct (Z.eq_dec (m / 2 ^ k) B) as [Hq|Hq].
  - assert (Hr0 : m mod 2 ^ k = 0) by nia.
    rewrite Hr0. replace (0 <? 2 ^ (k - 1)) with true by (symmetry; apply Z.ltb_lt; lia).
    lia.
  - destruct (_ <? _); [lia|]. destruct (_ <? _); [lia|]. destruct (Z.even _); lia.
Qed.

Lemma Prim2SF_sixty : Prim2SF 60%float = S754_finite false 8444249301319680 (-47).
Proof. reflexivity. Qed.

(** A float in [0, 1], times 60 and rounded, is a whole number of seconds
    from 0 to 60. *)
Lemma seconds_of_fraction (x : float) :
  (Prim2SF x = S754_zero false
   ∨ ∃ md ed, Prim2SF x = S754_finite false md ed ∧ ed ≤ 0 ∧ Z.pos md ≤ 2 ^ (- ed)) →
  ∃ secs, round_float (x * 60)%float = Ok secs ∧ 0 ≤ secs ≤ 60.
Proof.
  intros Hx. unfold round_float. rewrite mul_spec, Prim2SF_sixty.
  destruct Hx as [->|(md & ed & -> & Hed & Hmd)].
  - exists 0. cbn. split; [done | lia].
  - unfold SF64mul. cbn [SFmul xorb].
    assert (Hprem : Z.pos (md * 8444249301319680) ≤ 15 * 2 ^ (2 - (ed + -47))).
    { rewrite Pos2Z.inj_mul. replace (2 - (ed + -47)) with (49 + - ed) by lia.
      rewrite Z.pow_add_r by lia. change (2 ^ 49) with 562949953421312.
      assert (0 < 2 ^ (- ed)) by (apply Z.pow_pos_nonneg; lia). nia. }
    pose proof (binary_round_aux_le (md * 8444249301319680) (ed + -47) 15 2
                  ltac:(lia) ltac:(lia) ltac:(lia) Hprem) as Hle.
    destruct (binary_round_aux _ _ _ _ _ _) as [s|s| |s mx ex]; [|done|done|].
    + exists 0. split; [done | lia].
    + destruct Hle as [-> [Hex Hmx]].
      eexists. split; [reflexivity|]. cbn [cond_Zopp].
      destruct (Z.leb_spec 0 ex) as [Hnn|Hneg].
      * assert (Hcase : ex = 0 ∨ ex = 1 ∨ ex = 2) by lia.
        destruct Hcase as [-> | [-> | ->]]; cbn in Hmx |- *; lia.
      * apply round_half_even_le; [lia|]. split; [lia|].
        replace (2 - ex) with (2 + - ex) in Hmx by lia.
        rewrite Z.pow_add_r in Hmx by lia. lia.
Qed.

Lemma Prim2SF_pzero : Prim2SF PrimFloat.zero = S754_zero false.
Proof. reflexivity. Qed.

(** The whole minutes of a finite, non-negative pace convert back to a
    float, and what is left of the pace after subtracting them is a float
    in [0, 1]. *)
Lemma pace_fraction (p : float) (m : positive) (e : Z) :
  Prim2SF p = S754_finite false m e →
  0 ≤ Z.shiftl (Z.pos m) e
  ∧ ∃ wf,
      float_of_int (Z.shiftl (Z.pos m) e) = Ok wf
      ∧ (Prim2SF (p - wf)%float = S754_zero false
         ∨ ∃ md ed, Prim2SF (p - wf)%float = S754_finite false md ed
                    ∧ ed ≤ 0 ∧ Z.pos md ≤ 2 ^ (- ed)).
Proof.
  intros Hp.
  pose proof (Prim2SF_valid p) as Hb. rewrite Hp in Hb. cbn [valid_binary] in Hb.
  pose proof Hb as [Hcan Hemax]%bounded_spec.
  pose proof (digits2_bounds m) as Hdm.
  destruct (Z.le_gt_cases 0 e) as [He|He].
  - (* the pace is an integer *)
    rewrite Z.shiftl_mul_pow2 by done.
    assert (0 < 2 ^ e) by (apply Z.pow_pos_nonneg; lia).
    split; [lia|]. exists p. split.
    + unfold float_of_int. rewrite binary_normalize_integral by done.
      by rewrite <- Hp, SF2Prim_Prim2SF.
    + left. rewrite sub_spec, Hp. unfold SF64sub. cbn [SFsub cond_Zopp].
      by rewrite Z.sub_diag.
  - (* the pace has fractional bits *)
    rewrite Z.shiftl_div_pow2 by lia.
    set (k := - e) in *.
    assert (Hpk : 0 < 2 ^ k) by (apply Z.pow_pos_nonneg; lia).
    assert (Hm53 : Z.pos m < 2 ^ 53).
    { eapply Z.lt_le_trans; [apply Hdm|]. apply Z.pow_le_mono_r; lia. }
    pose proof (Z.div_pos (Z.pos m) (2 ^ k) ltac:(lia) Hpk) as Hw0.
    pose proof (Z.div_mod (Z.pos m) (2 ^ k) ltac:(lia)) as Hdiv.
    pose proof (Z.mod_pos_bound (Z.pos m) (2 ^ k) Hpk) as Hrem.
    set (whole := Z.pos m / 2 ^ k) in *.
    set (r := Z.pos m mod 2 ^ k) in *.
    split; [done|].
    destruct (Z.eq_dec whole 0) as [Hz|Hnz].
    + (* no whole minute *)
      rewrite Hz. exists PrimFloat.zero. split; [reflexivity|].
      right. exists m, e. rewrite sub_spec, Hp, Prim2SF_pzero.
      split; [reflexivity|]. split; [lia|]. fold k. lia.
    + assert (Hwhole : 0 < whole < 2 ^ 53).
      { split; [lia|]. assert (whole ≤ Z.pos m); [|lia].
        apply Z.div_le_upper_bound; [done|]. nia. }
      destruct (binary_normalize_small whole Hwhole) as (mw & ew & Hnorm & Hbw & Hew & Hmw).
      exists (SF2Prim (S754_finite false mw ew)). split.
      { unfold float_of_int. by rewrite Hnorm. }
      rewrite sub_spec, Hp, Prim2SF_SF2Prim by exact Hbw.
      unfold SF64sub. cbn [SFsub cond_Zopp].
      set (ez := Z.min e ew).
      destruct (shl_align_spec m e ez) as (am & -> & Ham).
      destruct (shl_align_spec mw ew ez) as (aw & -> & Haw).
      cbn [fst].
      replace (Z.min e ez) with ez in Ham by lia.
      replace (Z.min ew ez) with ez in Haw by lia.
      assert (HD : Z.pos am - Z.pos aw = r * 2 ^ (e - ez)).
      { rewrite Ham, Haw, Hmw, Hdiv.
        replace (whole * 2 ^ (- ew) * 2 ^ (ew - ez)) with (whole * 2 ^ (- ez)).
        2:{ rewrite <- Z.mul_assoc, <- Z.pow_add_r by lia. do 2 f_equal. lia. }
        replace (2 ^ (- ez)) with (2 ^ k * 2 ^ (e - ez)).
        2:{ rewrite <- Z.pow_add_r by lia. f_equal. lia. }
        ring. }
      assert (Hpe : 0 < 2 ^ (e - ez)) by (apply Z.pow_pos_nonneg; lia).
      assert (HDlt : Z.pos am - Z.pos aw < 2 ^ (- ez)).
      { rewrite HD. replace (2 ^ (- ez)) with (2 ^ k * 2 ^ (e - ez)).
        2:{ rewrite <- Z.pow_add_r by lia. f_equal. lia. }
        nia. }
      destruct (Z.pos am - Z.pos aw) as [|D|D] eqn:ED; [by left| |nia].
      cbn [binary_normalize].
      pose proof (binary_round_le D ez 1 0 ltac:(lia) ltac:(lia) ltac:(lia)) as Hle.
      rewrite Z.sub_0_l, Z.mul_1_l in Hle. specialize (Hle ltac:(lia)).
      destruct (binary_round prec emax false D ez) as [s|s| |s md ed]; [|done|done|].
      * left. by rewrite Hle.
      * right. destruct Hle as [-> [Hed Hmd]]. exists md, ed.
        rewrite Z.sub_0_l, Z.mul_1_l in Hmd. done.
Qed.

(** ** The sign of a pace *)

Lemma binary_round_aux_nonneg (M E : Z) (l : location) :
  sf_nonneg (binary_round_aux prec emax false M E l).
Proof.
  unfold binary_round_aux.
  destruct (shr_fexp _ _ _ _ _) as [mrs e1].
  destruct (shr_fexp _ _ _ _ _) as [mrs2 e2].
  destruct (shr_m mrs2); [done| |done]. by destruct (_ <=? _).
Qed.

Lemma binary_round_nonneg (M : positive) (E : Z) :
  sf_nonneg (binary_round prec emax false M E).
Proof.
  unfold binary_round. destruct (shl_align _ _ _). apply binary_round_aux_nonneg.
Qed.

Lemma binary_normalize_nonneg (z E : Z) :
  0 ≤ z → sf_nonneg (binary_normalize prec emax z E false).
Proof.
  intros Hz. destruct z; [done| |lia]. apply binary_round_nonneg.
Qed.

Lemma SF2Prim_nonneg (y : spec_float) : sf_nonneg y → sf_nonneg (Prim2SF (SF2Prim y)).
Proof.
  destruct y as [s|s| |s m e]; cbn [sf_nonneg]; intros Hs; subst; try done.
  cbn [SF2Prim]. rewrite Z_ldexp_spec, of_uint63_spec.
  pose proof (binary_normalize_nonneg (Uint63Axioms.to_Z (Uint63Axioms.of_Z (Z.pos m))) 0
                (proj1 (Uint63.to_Z_bounded _))) as Hn.
  destruct (binary_normalize _ _ _ _ _) as [s|s| |s m' e']; cbn [sf_nonneg] in Hn;
    subst; try done.
  cbn [SFldexp]. apply binary_round_nonneg.
Qed.

Lemma float_pos_shape (d : float) :
  (0 <? d)%float = true →
  (∃ m e, Prim2SF d = S754_finite false m e) ∨ Prim2SF d = S754_infinity false.
Proof.
  rewrite FloatAxioms.ltb_spec, Prim2SF_zero.
  destruct (Prim2SF d) as [s|s| |s m e]; cbn; try done.
  - destruct s; [done|]. by right.
  - destruct s; [done|]. left. eauto.
Qed.

Lemma float_pos_not_zero (d : float) : (0 <? d)%float = true → (d =? 0)%float = false.
Proof.
  intros Hd. rewrite FloatAxioms.eqb_spec, Prim2SF_zero.
  destruct (float_pos_shape d Hd) as [(m & e & ->)| ->]; done.
Qed.

Lemma int_truediv_nonneg (t b : Z) (q : float) :
  0 ≤ t → 0 < b → int_truediv t b = Ok q → sf_nonneg (Prim2SF q).
Proof.
  intros Ht Hb. unfold int_truediv.
  replace (b =? 0) with false by (symmetry; apply Z.eqb_neq; lia).
  replace (b <? 0) with false by (symmetry; apply Z.ltb_ge; lia).
  destruct (t =? 0); [by intros [= <-]|].
  replace (t <? 0) with false by (symmetry; apply Z.ltb_ge; lia).
  destruct (SFdiv_core_binary _ _ _ _ _ _) as [[mq eq] lq]. cbn [xorb].
  pose proof (binary_round_aux_nonneg mq eq lq) as Hn.
  destruct (binary_round_aux _ _ _ _ _ _) as [s|s| |s m e]; [|done| |]; intros [= <-].
  - exact (SF2Prim_nonneg (S754_zero s) Hn).
  - exact (SF2Prim_nonneg S754_nan Hn).
  - exact (SF2Prim_nonneg (S754_finite s m e) Hn).
Qed.

Lemma div_nonneg (x d : float) :
  sf_nonneg (Prim2SF x) → (0 <? d)%float = true → sf_nonneg (Prim2SF (x / d)%float).
Proof.
  intros Hx Hd. rewrite div_spec. unfold SF64div.
  destruct (float_pos_shape d Hd) as [(m & e & ->)| ->];
    destruct (Prim2SF x) as [s|s| |s mx ex]; cbn [sf_nonneg SFdiv] in *; subst;
    try done.
  destruct (SFdiv_core_binary _ _ _ _ _ _) as [[mq eq] lq]. cbn [xorb].
  apply binary_round_aux_nonneg.
Qed.

Lemma is_finite_shape (p : float) :
  is_finite p = true →
  match Prim2SF p with
  | S754_zero _ | S754_finite _ _ _ => True
  | _ => False
  end.
Proof.
  unfold is_finite, is_nan, is_infinity.
  rewrite !FloatAxioms.eqb_spec, abs_spec.
  change (Prim2SF infinity) with (S754_infinity false).
  destruct (Prim2SF p) as [s|s| |s m e]; cbn; try done.
  destruct s; cbn; done.
Qed.

Lemma fmt_02d_seconds_length (z : Z) : 0 ≤ z ≤ 59 → String.length (fmt_02d z) = 2%nat.
Proof.
  intros Hz. apply Nat.eqb_eq.
  apply (forallb_range (fun w => Nat.eqb (String.length (fmt_02d w)) 2) 0 60);
    [vm_compute; reflexivity | lia].
Qed.

(** C9 (as stated it fails): a distance so small that the pace exceeds the
    largest float makes [format_pace] raise instead of returning a string. *)
Lemma format_pace_overflows_on_tiny_distance :
  0 ≤ 60
  ∧ (0 <? 0x1p-1074)%float = true
  ∧ format_pace 60 0x1p-1074%float = Raise OverflowError.
Proof. split; [lia|]. split; vm_compute; reflexivity. Qed.

(** C9 (amended).  For a non-negative moving time and a strictly positive
    distance whose pace, (time / 60) / distance, is a finite float,
    [format_pace] returns minutes, a colon, two digits of seconds and
    [/mi]: the fractional minutes times 60 round to a whole number from 0 to
    60, a 60 is carried into the minutes, and the seconds printed lie in
    00..59. *)
Theorem format_pace_seconds_carry (t : Z) (d p : float) :
  0 ≤ t → (0 <? d)%float = true →
  pace_minutes t d = Ok p → is_finite p = true →
  ∃ whole whole_f secs,
    int_of_float p = Ok whole ∧ 0 ≤ whole
    ∧ float_of_int whole = Ok whole_f
    ∧ round_float ((p - whole_f) * 60)%float = Ok secs
    ∧ 0 ≤ secs ≤ 60
    ∧ format_pace t d
      = Ok (str_int (fst (carry_minute whole secs)) +:+ ":"
            +:+ fmt_02d (snd (carry_minute whole secs)) +:+ "/mi")
    ∧ 0 ≤ snd (carry_minute whole secs) ≤ 59
    ∧ String.length (fmt_02d (snd (carry_minute whole secs))) = 2%nat
    ∧ (secs = 60 → carry_minute whole secs = (whole + 1, 0))
    ∧ (secs < 60 → carry_minute whole secs = (whole, secs)).
Proof.
  intros Ht Hd Hp Hfin.
  assert (Hsign : sf_nonneg (Prim2SF p)).
  { unfold pace_minutes in Hp.
    destruct (int_truediv t 60) as [minutes|] eqn:Hmin; [|done].
    cbn in Hp. injection Hp as <-.
    apply div_nonneg; [|done]. by apply (int_truediv_nonneg t 60). }
  apply is_finite_shape in Hfin.
  assert (Hparts : ∃ whole whole_f secs,
             int_of_float p = Ok whole ∧ 0 ≤ whole
             ∧ float_of_int whole = Ok whole_f
             ∧ round_float ((p - whole_f) * 60)%float = Ok secs
             ∧ 0 ≤ secs ≤ 60).
  { unfold int_of_float.
    destruct (Prim2SF p) as [s|s| |s m e] eqn:HSF; [|done|done|];
      cbn [sf_nonneg] in Hsign; subst s.
    - exists 0, PrimFloat.zero.
      destruct (seconds_of_fraction (p - PrimFloat.zero)%float) as (secs & Hs & Hr).
      { left. by rewrite sub_spec, HSF, Prim2SF_pzero. }
      exists secs. done.
    - destruct (pace_fraction p m e HSF) as (Hw & wf & Hwf & Hfrac).
      destruct (seconds_of_fraction (p - wf)%float Hfrac) as (secs & Hs & Hr).
      exists (Z.shiftl (Z.pos m) e), wf, secs. done. }
  destruct Hparts as (whole & whole_f & secs & Hwhole & Hw0 & Hwf & Hsecs & Hrange).
  exists whole, whole_f, secs.
  assert (Hcarry : (secs = 60 → carry_minute whole secs = (whole + 1, 0))
                   ∧ (secs < 60 → carry_minute whole secs = (whole, secs))).
  { unfold carry_minute. destruct (Z.eqb_spec secs 60); split; intros; (done || lia). }
  assert (Hss : 0 ≤ snd (carry_minute whole secs) ≤ 59).
  { destruct (Z.eq_dec secs 60) as [H60|H60].
    - rewrite (proj1 Hcarry H60). simpl. lia.
    - rewrite (proj2 Hcarry ltac:(lia)). simpl. lia. }
  repeat split; try done; try lia; try tauto.
  - unfold format_pace. rewrite (float_pos_not_zero d Hd), Hp. cbn [mbind result_bind].
    rewrite Hwhole. cbn [mbind result_bind]. rewrite Hwf. cbn [mbind result_bind].
    rewrite Hsecs. reflexivity.
  - by apply fmt_02d_seconds_length.
Qed.

Lemma format_pace_seconds_carry_witness :
  ∃ whole secs,
    format_pace 3599 6%float
    = Ok (str_int (fst (carry_minute whole secs)) +:+ ":"
          +:+ fmt_02d (snd (carry_minute whole secs)) +:+ "/mi")
    ∧ 0 ≤ snd (carry_minute whole secs) ≤ 59.
Proof.
  destruct (format_pace_seconds_carry 3599 6%float 0x1.3fe93e93e93e9p+3%float)
    as (whole & whole_f & secs & _ & _ & _ & _ & _ & Hfmt & Hss & _).
  - lia.
  - vm_compute. reflexivity.
  - vm_compute. reflexivity.
  - vm_compute. reflexivity.
  - exists whole, secs. done.
Defined.

(** ** The cache across merges and runs *)

Lemma merge_app (b1 b2 : list activity) :
  ∀ (c : cache) (n : Z),
    merge c (b1 ++ b2) n = merge (fst (merge c b1 n)) b2 (snd (merge c b1 n)).
Proof.
  induction b1 as [|a b1 IH]; intros c n; [reflexivity|].
  cbn [merge app]. destruct (dict_mem (activity_key a) c); apply IH.
Qed.

Lemma merge_count (batch : list activity) :
  ∀ (c : cache) (n : Z),
    merge c batch n = (fst (merge c batch 0), n + snd (merge c batch 0)).
Proof.
  induction batch as [|a batch IH]; intros c n; [cbn; f_equal; lia|].
  cbn [merge]. destruct (dict_mem (activity_key a) c); [apply IH|].
  rewrite (IH _ (n + 1)), (IH _ (0 + 1)). cbn [fst snd]. f_equal. lia.
Qed.

(** X1. Merging a batch that arrives in two parts, one part after the other,
    gives the cache and the count of merging the whole batch at once. *)
Theorem merge_in_parts (c : cache) (b1 b2 : list activity) :
  merge c (b1 ++ b2) 0
  = (fst (merge (fst (merge c b1 0)) b2 0),
     snd (merge c b1 0) + snd (merge (fst (merge c b1 0)) b2 0)).
Proof. rewrite merge_app. apply merge_count. Qed.

Lemma dict_mem_app (c1 c2 : cache) (k : string) :
  dict_mem k (c1 ++ c2) = dict_mem k c1 || dict_mem k c2.
Proof. unfold dict_mem. apply existsb_app. Qed.

Lemma unique_keys_snoc (c : cache) (k : string) (a : activity) :
  unique_keys c = true → dict_mem k c = false → unique_keys (c ++ [(k, a)]) = true.
Proof.
  induction c as [|[k0 a0] c IH]; intros Hu Hm; [reflexivity|].
  cbn [unique_keys app] in *. apply andb_true_iff in Hu as [Hk0 Hu].
  cbn [dict_mem existsb fst] in Hm. apply orb_false_iff in Hm as [Hne Hm].
  rewrite dict_mem_app, IH by assumption.
  apply negb_true_iff in Hk0. rewrite Hk0. cbn [dict_mem existsb fst orb].
  rewrite String.eqb_sym, Hne. reflexivity.
Qed.

Lemma keyed_by_id_snoc (c : cache) (a : activity) :
  keyed_by_id c = true → keyed_by_id (c ++ [(activity_key a, a)]) = true.
Proof.
  unfold keyed_by_id. intros H. rewrite forallb_app, H. cbn.
  rewrite String.eqb_refl. reflexivity.
Qed.

Lemma well_keyed_snoc (c : cache) (a : activity) :
  well_keyed c = true → dict_mem (activity_key a) c = false →
  well_keyed (dict_set c (activity_key a) a) = true.
Proof.
  unfold well_keyed. intros [Hu Hk]%andb_true_iff Hm.
  rewrite dict_set_absent by (by apply dict_mem_false).
  by rewrite unique_keys_snoc, keyed_by_id_snoc.
Qed.

Lemma merge_well_keyed (batch : list activity) :
  ∀ (c : cache) (n : Z),
    well_keyed c = true → well_keyed (fst (merge c batch n)) = true.
Proof.
  induction batch as [|a batch IH]; intros c n Hc; [exact Hc|].
  cbn [merge]. destruct (dict_mem (activity_key a) c) eqn:Hm; [by apply IH|].
  apply IH. by apply well_keyed_snoc.
Qed.

Lemma merge_covers (batch : list activity) (c : cache) (n : Z) (a : activity) :
  In a batch → dict_mem (activity_key a) (fst (merge c batch n)) = true.
Proof.
  intros Hin. destruct (merge_spec batch c n) as (fresh & -> & Hget). cbn [fst].
  apply dict_mem_get. rewrite Hget.
  destruct (dict_get c (activity_key a)); [done|]. by apply find_key_in.
Qed.

Lemma unique_keys_get (c : cache) (k : string) (a : activity) :
  unique_keys c = true → In (k, a) c → dict_get c k = Some a.
Proof.
  induction c as [|[k0 a0] c IH]; intros Hu Hin; [destruct Hin|].
  cbn [unique_keys] in Hu. apply andb_true_iff in Hu as [Hk0 Hu].
  apply negb_true_iff, dict_mem_false in Hk0.
  unfold dict_get. cbn [List.find fst].
  destruct (String.eqb_spec k0 k) as [Heq|Hne].
  - subst k0. destruct Hin as [Heq|Hin]; [by inversion Heq|].
    apply IH in Hin; [|done]. congruence.
  - destruct Hin as [Heq|Hin]; [by inversion Heq|]. by apply IH.
Qed.

Lemma dict_get_in (c : cache) (k : string) (a : activity) :
  dict_get c k = Some a → In (k, a) c.
Proof.
  unfold dict_get. intros H.
  destruct (List.find _ c) as [[k0 a0]|] eqn:Hf; [|done].
  apply find_some in Hf as [Hin Hk]. cbn in Hk, H.
  apply String.eqb_eq in Hk. inversion H. by subst.
Qed.

(** X2. A cache in which no key occurs twice and every record is filed
    under the decimal form of its identifier stays so through a merge; after
    the merge every identifier of the batch is a key, and two cached records
    with the same identifier are one record. *)
Theorem merge_keeps_cache_well_keyed (c : cache) (batch : list activity) :
  well_keyed c = true →
  well_keyed (fst (merge c batch 0)) = true
  ∧ (∀ a, In a batch → dict_mem (activity_key a) (fst (merge c batch 0)) = true)
  ∧ (∀ k a k' a', In (k, a) (fst (merge c batch 0)) →
                  In (k', a') (fst (merge c batch 0)) →
                  act_id a = act_id a' → k = k' ∧ a = a').
Proof.
  intros Hc. pose proof (merge_well_keyed batch c 0 Hc) as Hw.
  split; [exact Hw|]. split; [intros a Ha; by apply merge_covers|].
  intros k a k' a' Hin Hin' Hid.
  apply andb_true_iff in Hw as [Hu Hk].
  unfold keyed_by_id in Hk. rewrite forallb_forall in Hk.
  pose proof (Hk _ Hin) as H1. pose proof (Hk _ Hin') as H2.
  cbn in H1, H2. apply String.eqb_eq in H1, H2.
  assert (k = k') as <- by (unfold activity_key in *; congruence).
  split; [done|].
  pose proof (unique_keys_get _ _ _ Hu Hin). pose proof (unique_keys_get _ _ _ Hu Hin').
  congruence.
Qed.

Lemma merge_keeps_cache_well_keyed_witness :
  well_keyed
    (fst (merge [("7", sample_activity 7 "Run" 738886 3600 5000 1500)]
            [sample_activity 7 "Ride" 738887 60 9000 1800;
             sample_activity 8 "Run" 738888 3600 5000 1500] 0)) = true.
Proof.
  refine (proj1 (merge_keeps_cache_well_keyed
                   [("7", sample_activity 7 "Run" 738886 3600 5000 1500)]
                   [sample_activity 7 "Ride" 738887 60 9000 1800;
                    sample_activity 8 "Run" 738888 3600 5000 1500] _)).
  reflexivity.
Defined.

Lemma find_key_some (batch : list activity) (k : string) (a : activity) :
  List.find (fun b => String.eqb (activity_key b) k) batch = Some a →
  In a batch ∧ activity_key a = k.
Proof. intros H. apply find_some in H as [Hin Hk]. by apply String.eqb_eq in Hk. Qed.

Lemma merge_lookup (c : cache) (batch : list activity) (n : Z) (k : string) :
  dict_get (fst (merge c batch n)) k =
  match dict_get c k with
  | Some a => Some a
  | None => List.find (fun a => String.eqb (activity_key a) k) batch
  end.
Proof. destruct (merge_spec batch c n) as (fresh & -> & Hget). apply Hget. Qed.

(** X3. Two batches that share no identifier can be merged in either
    order: every key of the resulting cache holds the same record. *)
Theorem merge_disjoint_batches_commute (c : cache) (b1 b2 : list activity) :
  (∀ a1 a2, In a1 b1 → In a2 b2 → act_id a1 ≠ act_id a2) →
  ∀ k, dict_get (fst (merge (fst (merge c b1 0)) b2 0)) k
       = dict_get (fst (merge (fst (merge c b2 0)) b1 0)) k.
Proof.
  intros Hdis k. rewrite !merge_lookup.
  destruct (dict_get c k); [done|].
  destruct (List.find _ b1) as [a1|] eqn:H1, (List.find _ b2) as [a2|] eqn:H2; try done.
  apply find_key_some in H1 as [Hin1 Hk1], H2 as [Hin2 Hk2].
  exfalso. apply (Hdis a1 a2 Hin1 Hin2).
  unfold activity_key, str_int in *. apply (inj pretty). congruence.
Qed.

Lemma merge_disjoint_batches_commute_witness :
  dict_get
    (fst (merge (fst (merge [] [sample_activity 7 "Run" 738886 3600 5000 1500] 0))
            [sample_activity 8 "Ride" 738887 60 9000 1800] 0)) "8"
  = dict_get
      (fst (merge (fst (merge [] [sample_activity 8 "Ride" 738887 60 9000 1800] 0))
              [sample_activity 7 "Run" 738886 3600 5000 1500] 0)) "8".
Proof.
  apply (merge_disjoint_batches_commute []
           [sample_activity 7 "Run" 738886 3600 5000 1500]
           [sample_activity 8 "Ride" 738887 60 9000 1800]).
  intros a1 a2 [<-|[]] [<-|[]]. simpl. lia.
Defined.

Lemma dict_mem_set (c : cache) (k k0 : string) (v : activity) :
  dict_mem k0 (dict_set c k v) = dict_mem k0 c || String.eqb k k0.
Proof.
  induction c as [|[k' v'] c IH]; [cbn; by rewrite orb_false_r|].
  cbn [dict_set]. destruct (String.eqb_spec k' k) as [Heq|Hne].
  - subst k'. cbn [dict_mem existsb fst].
    destruct (String.eqb k k0); [done|]. cbn [orb]. by rewrite orb_false_r.
  - cbn [dict_mem existsb fst]. fold (dict_mem k0 (dict_set c k v)).
    fold (dict_mem k0 c). rewrite IH. by rewrite orb_assoc.
Qed.

Lemma unique_keys_set (c : cache) (k : string) (v : activity) :
  unique_keys c = true → unique_keys (dict_set c k v) = true.
Proof.
  induction c as [|[k' v'] c IH]; intros Hu; [reflexivity|].
  cbn [unique_keys] in Hu. apply andb_true_iff in Hu as [Hk Hu].
  cbn [dict_set]. destruct (String.eqb_spec k' k) as [Heq|Hne].
  - cbn [unique_keys]. by rewrite Hk, Hu.
  - cbn [unique_keys]. rewrite dict_mem_set, IH by done.
    apply negb_true_iff in Hk. rewrite Hk. cbn [orb].
    destruct (String.eqb_spec k k'); [congruence|done].
Qed.

Lemma keyed_by_id_set (c : cache) (a : activity) :
  keyed_by_id c = true → keyed_by_id (dict_set c (activity_key a) a) = true.
Proof.
  unfold keyed_by_id.
  induction c as [|[k' v'] c IH]; intros Hk.
  - cbn. by rewrite String.eqb_refl.
  - cbn [forallb] in Hk. apply andb_true_iff in Hk as [Hk' Hk].
    cbn [dict_set]. destruct (String.eqb_spec k' (activity_key a)) as [Heq|Hne].
    + cbn [forallb fst snd]. rewrite Heq, String.eqb_refl. exact Hk.
    + cbn [forallb]. by rewrite Hk', IH.
Qed.

Lemma well_keyed_set (c : cache) (a : activity) :
  well_keyed c = true → well_keyed (dict_set c (activity_key a) a) = true.
Proof.
  unfold well_keyed. intros [Hu Hk]%andb_true_iff.
  by rewrite unique_keys_set, keyed_by_id_set.
Qed.

Lemma rekey_well_keyed (records : list activity) :
  ∀ acc c, well_keyed acc = true → rekey acc (map LRecord records) = Ok c →
           well_keyed c = true
           ∧ ∀ a, In a records → dict_mem (activity_key a) c = true.
Proof.
  induction records as [|a records IH]; intros acc c Hacc Hre.
  - cbn in Hre. inversion Hre. subst. split; [done|]. intros a [].
  - cbn [map rekey] in Hre.
    destruct (IH _ _ (well_keyed_set acc a Hacc) Hre) as [Hw Hall].
    split; [done|]. intros b [<-|Hb]; [|by apply Hall].
    destruct (rekey_records records (dict_set acc (activity_key a) a)) as (c' & Hc' & Hget).
    rewrite Hre in Hc'. inversion Hc'. subst c'.
    apply dict_mem_get. rewrite Hget.
    destruct (List.find _ (rev records)); [done|].
    rewrite dict_get_set, String.eqb_refl. done.
Qed.

Lemma rekey_distinct (records : list activity) :
  ∀ acc,
    NoDup (map activity_key records) →
    (∀ a, In a records → dict_get acc (activity_key a) = None) →
    rekey acc (map LRecord records)
    = Ok (acc ++ map (fun a => (activity_key a, a)) records).
Proof.
  induction records as [|a records IH]; intros acc Hnd Hfresh.
  - cbn. by rewrite app_nil_r.
  - cbn [map rekey]. apply NoDup_cons in Hnd as [Hnotin Hnd].
    rewrite dict_set_absent by (apply Hfresh; by left).
    rewrite IH; [by rewrite <- app_assoc|done|].
    intros b Hb. rewrite dict_get_app, Hfresh by (by right).
    unfold dict_get. cbn [List.find fst].
    destruct (String.eqb_spec (activity_key a) (activity_key b)) as [Heq|]; [|done].
    exfalso. apply Hnotin. rewrite Heq. apply list_elem_of_In, in_map, Hb.
Qed.

(** X4. Migrating a legacy list of records gives a mapping in which no key
    occurs twice, every record is filed under the decimal form of its
    identifier and every identifier of the list is a key; when the
    identifiers of the list are pairwise distinct the mapping holds exactly
    the records of the list, in the order of the list. *)
Theorem legacy_migration_is_well_keyed (records : list activity) :
  ∃ c, load_cache (Parsed (DArray (map LRecord records))) = Ok (LDict c)
       ∧ well_keyed c = true
       ∧ (∀ a, In a records → dict_mem (activity_key a) c = true)
       ∧ (NoDup (map act_id records) →
          c = map (fun a => (activity_key a, a)) records ∧ values c = records).
Proof.
  destruct (rekey_records records []) as (c & Hc & _).
  exists c. cbn [load_cache]. rewrite Hc. split; [done|].
  destruct (rekey_well_keyed records [] c eq_refl Hc) as [Hw Hall].
  split; [done|]. split; [done|].
  intros Hnd.
  assert (Hkeys : NoDup (map activity_key records)).
  { unfold activity_key, str_int.
    rewrite <- (map_map act_id pretty). change (@map Z string) with (@fmap list _ Z string).
    apply (NoDup_fmap_2 _). exact Hnd. }
  rewrite rekey_distinct in Hc by done. inversion Hc. cbn [app].
  split; [done|]. unfold values. rewrite map_map. cbn [snd]. apply map_id.
Qed.

Lemma main_on_cache_saved (env : run_env) (w : world) (c0 : cache) :
  (∃ e, fetch_activities_after env (fetch_window env c0) = Raise e
        ∧ main_on_cache env w c0 = (w, Raise e))
  ∨ (∃ batch, fetch_activities_after env (fetch_window env c0) = Ok batch
              ∧ cache_file (fst (main_on_cache env w c0))
                = save_cache (fst (merge c0 batch 0))).
Proof.
  unfold main_on_cache.
  destruct (fetch_activities_after env (fetch_window env c0)) as [batch|e];
    [right|left; by exists e].
  exists batch. split; [done|].
  destruct (merge c0 batch 0) as [c added]. cbn [fst].
  destruct (check_weekly_rollover _ _ _ _) as [[files label]|e]; [|done].
  by destruct (write_current_week _ _ _).
Qed.

Lemma main_saved (env : run_env) (w : world) :
  fst (main env w) = w
  ∨ ∃ c0 batch,
      (force env = true ∧ c0 = []
       ∨ force env = false ∧ load_cache (cache_file w) = Ok (LDict c0))
      ∧ cache_file (fst (main env w)) = save_cache (fst (merge c0 batch 0)).
Proof.
  unfold main. destruct (has_credentials env); cbn [negb]; [|by left].
  destruct (load_cache (cache_file w)) as [[c|truthy]|e] eqn:Hload; [| |by left].
  - destruct (main_on_cache_saved env w (if force env then [] else c))
      as [(e & _ & ->)|(batch & _ & Hsaved)]; [by left|].
    right. exists (if force env then [] else c), batch. split; [|done].
    destruct (force env); [by left|by right].
  - destruct (force env) eqn:Hforce.
    + destruct (main_on_cache_saved env w []) as [(e & _ & ->)|(batch & _ & Hsaved)];
        [by left|].
      right. exists [], batch. split; [by left|done].
    + destruct truthy; [by left|].
      destruct (fetch_activities_after env _) as [[|]|]; by left.
Qed.

(** X5. Without [--force] the mapping only grows: whatever a sequence of
    runs fetches, and whether or not the runs complete, every record the
    cache file held before them is still held under its key after them. *)
Theorem runs_never_drop_a_record (envs : list run_env) :
  ∀ (w : world) (c : cache),
    (∀ env, In env envs → force env = false) →
    load_cache (cache_file w) = Ok (LDict c) →
    ∃ c', load_cache (cache_file (runs envs w)) = Ok (LDict c')
          ∧ ∀ k a, dict_get c k = Some a → dict_get c' k = Some a.
Proof.
  induction envs as [|env envs IH]; intros w c Hforce Hload.
  - exists c. done.
  - cbn [runs fold_left]. fold (runs envs (fst (main env w))).
    assert (Hstep : ∃ c1, load_cache (cache_file (fst (main env w))) = Ok (LDict c1)
                          ∧ ∀ k a, dict_get c k = Some a → dict_get c1 k = Some a).
    { destruct (main_saved env w) as [->|(c0 & batch & Hc0 & Hsaved)]; [by exists c|].
      destruct Hc0 as [[Hf _]|[_ Hc0]].
      - rewrite (Hforce env) in Hf by (by left). done.
      - rewrite Hload in Hc0. inversion Hc0. subst c0.
        exists (fst (merge c batch 0)). rewrite Hsaved. split; [done|].
        intros k a Hk. by rewrite merge_lookup, Hk. }
    destruct Hstep as (c1 & Hload1 & Hkeep1).
    destruct (IH (fst (main env w)) c1) as (c' & Hload' & Hkeep').
    + intros env' Hin. apply Hforce. by right.
    + done.
    + exists c'. split; [done|]. intros k a Hk. by apply Hkeep', Hkeep1.
Qed.

Lemma runs_never_drop_a_record_witness :
  ∃ c', load_cache
          (cache_file
             (runs [sample_env {| st_date := 738890; st_secs := 0 |}
                      [sample_activity 7 "Ride" 738887 60 9000 1800;
                       sample_activity 8 "Run" 738888 3600 5000 1500]]
                {| cache_file :=
                     save_cache [("7", sample_activity 7 "Run" 738886 3600 5000 1500)];
                   weekly_files := ∅; current_week := None |}))
        = Ok (LDict c')
        ∧ ∀ k a, dict_get [("7", sample_activity 7 "Run" 738886 3600 5000 1500)] k = Some a →
                 dict_get c' k = Some a.
Proof.
  apply (runs_never_drop_a_record
           [sample_env {| st_date := 738890; st_secs := 0 |}
              [sample_activity 7 "Ride" 738887 60 9000 1800;
               sample_activity 8 "Run" 738888 3600 5000 1500]]).
  - intros env [<-|[]]. reflexivity.
  - reflexivity.
Defined.

(** X6. A run with [--force] that reaches the fetch starts from an empty
    mapping: it asks for the fourteen days before now, and the cache file it
    saves holds the fetched records only, whatever the file held before. *)
Theorem forced_run_rebuilds_cache (env : run_env) (w : world) (l : loaded)
    (batch : list activity) :
  has_credentials env = true →
  force env = true →
  load_cache (cache_file w) = Ok l →
  fetch_activities_after env
    (local_epoch env {| st_date := st_date (at_window env) - 14;
                        st_secs := st_secs (at_window env) |}) = Ok batch →
  cache_file (fst (main env w)) = save_cache (fst (merge [] batch 0))
  ∧ ∀ k, dict_get (fst (merge [] batch 0)) k
         = List.find (fun a => String.eqb (activity_key a) k) batch.
Proof.
  intros Hcred Hforce Hload Hfetch. split; [|intros k; by rewrite merge_lookup].
  unfold main. rewrite Hcred, Hload, Hforce. cbn [negb].
  assert (Hon : cache_file (fst (main_on_cache env w []))
                = save_cache (fst (merge [] batch 0))).
  { destruct (main_on_cache_saved env w []) as [(e & He & _)|(b & Hb & Hsaved)].
    - unfold fetch_window in He. cbn in He. unfold BACKFILL_DAYS in He. congruence.
    - unfold fetch_window in Hb. cbn in Hb. unfold BACKFILL_DAYS in Hb.
      rewrite Hfetch in Hb. inversion Hb. by subst. }
  by destruct l.
Qed.

Lemma forced_run_rebuilds_cache_witness :
  cache_file
    (fst (main {| has_credentials := true; force := true; local_epoch := epoch_of_stamp;
                  fetch_activities_after :=
                    fun _ => Ok [sample_activity 8 "Run" 738888 3600 5000 1500];
                  at_window := {| st_date := 738890; st_secs := 0 |};
                  at_rollover := {| st_date := 738890; st_secs := 0 |};
                  at_rollover_totals := 738890;
                  at_current := {| st_date := 738890; st_secs := 0 |};
                  at_current_totals := 738890 |}
            {| cache_file :=
                 save_cache [("7", sample_activity 7 "Run" 738886 3600 5000 1500)];
               weekly_files := ∅; current_week := None |}))
  = save_cache (fst (merge [] [sample_activity 8 "Run" 738888 3600 5000 1500] 0)).
Proof.
  refine (proj1 (forced_run_rebuilds_cache _ _ _ _ _ _ _ _)); reflexivity.
Defined.

(** X7. Keys stay unique and equal to the decimal identifier of their
    record across any sequence of runs, forced or not, complete or not:
    if the cache file loads to such a mapping before the runs, it does so
    after them. *)
Theorem runs_keep_cache_well_keyed (envs : list run_env) :
  ∀ w : world,
    (∀ c, load_cache (cache_file w) = Ok (LDict c) → well_keyed c = true) →
    ∀ c', load_cache (cache_file (runs envs w)) = Ok (LDict c') → well_keyed c' = true.
Proof.
  induction envs as [|env envs IH]; intros w Hw; [exact Hw|].
  cbn [runs fold_left]. fold (runs envs (fst (main env w))).
  apply IH. intros c1 Hload1.
  destruct (main_saved env w) as [Heq|(c0 & batch & Hc0 & Hsaved)].
  - rewrite Heq in Hload1. by apply Hw.
  - rewrite Hsaved in Hload1. cbn in Hload1. inversion Hload1.
    apply merge_well_keyed.
    destruct Hc0 as [[_ ->]|[_ Hc0]]; [done|by apply Hw].
Qed.

Lemma runs_keep_cache_well_keyed_witness :
  well_keyed
    (fst (merge [] [sample_activity 7 "Ride" 738887 60 9000 1800;
                    sample_activity 7 "Run" 738888 3600 5000 1500] 0)) = true.
Proof.
  apply (runs_keep_cache_well_keyed
           [sample_env {| st_date := 738890; st_secs := 0 |}
              [sample_activity 7 "Ride" 738887 60 9000 1800;
               sample_activity 7 "Run" 738888 3600 5000 1500]] empty_world).
  - intros c H. cbn in H. inversion H. reflexivity.
  - reflexivity.
Defined.

(** ** The fetch cursor *)

Lemma most_recent_spec (c : cache) :
  c ≠ [] →
  ∃ a, In a (values c)
       ∧ get_most_recent_timestamp c = Some (epoch_of_stamp (start_date_local a))
       ∧ ∀ b, In b (values c) → start_le b a.
Proof.
  intros Hne. unfold get_most_recent_timestamp.
  destruct c as [|[k a] c]; [done|]. cbn [values map snd].
  destruct (max_by_start_spec (map snd c) a) as (Hin & Hbest & Hall).
  exists (max_by_start a (map snd c)). split; [|split; [done|]].
  - destruct Hin as [->|Hin]; [by left|by right].
  - intros b [<-|Hb]; [done|by apply Hall].
Qed.

Lemma merge_values_in (batch : list activity) :
  ∀ (c : cache) (n : Z) (a : activity),
    In a (values (fst (merge c batch n))) → In a (values c) ∨ In a batch.
Proof.
  induction batch as [|b batch IH]; intros c n a Hin; [by left|].
  cbn [merge] in Hin. destruct (dict_mem (activity_key b) c) eqn:Hm.
  - destruct (IH _ _ _ Hin); [by left|right; by right].
  - rewrite dict_set_absent in Hin by (by apply dict_mem_false).
    destruct (IH _ _ _ Hin) as [Hc|Hb]; [|right; by right].
    unfold values in Hc. rewrite map_app in Hc. apply in_app_or in Hc as [Hc|[<-|[]]].
    + by left.
    + right. by left.
Qed.

Lemma epoch_of_stamp_mono (a b : activity) :
  within_day a = true → within_day b = true → start_le a b →
  epoch_of_stamp (start_date_local a) ≤ epoch_of_stamp (start_date_local b).
Proof.
  unfold within_day, start_le, stamp_leb, stamp_ltb, epoch_of_stamp.
  destruct (start_date_local a) as [da sa], (start_date_local b) as [db sb]. cbn.
  rewrite !andb_true_iff, negb_true_iff, orb_false_iff, andb_false_iff,
    !Z.leb_le, !Z.ltb_lt, Z.ltb_ge, Z.ltb_ge, Z.eqb_neq.
  lia.
Qed.

(** X8. The cursor of the incremental fetch never moves back: when every
    start stamp is a valid time of day, the most recent timestamp of the
    cache after a merge is at least the one before it, and it is the
    timestamp of a record of the old cache or of the batch. *)
Theorem most_recent_timestamp_never_decreases (c : cache) (batch : list activity) :
  c ≠ [] →
  (∀ a, In a (values c) → within_day a = true) →
  (∀ a, In a batch → within_day a = true) →
  ∃ t t' a',
    get_most_recent_timestamp c = Some t
    ∧ get_most_recent_timestamp (fst (merge c batch 0)) = Some t'
    ∧ t ≤ t'
    ∧ (In a' (values c) ∨ In a' batch)
    ∧ t' = epoch_of_stamp (start_date_local a').
Proof.
  intros Hne Hc Hb.
  destruct (most_recent_spec c Hne) as (a & Hin & Ht & Hmax).
  destruct (merge_spec batch c 0) as (fresh & Hm & _).
  assert (Hne' : fst (merge c batch 0) ≠ []).
  { rewrite Hm. cbn [fst]. destruct c; [done|]. discriminate. }
  destruct (most_recent_spec _ Hne') as (a' & Hin' & Ht' & Hmax').
  exists (epoch_of_stamp (start_date_local a)), (epoch_of_stamp (start_date_local a')), a'.
  pose proof (merge_values_in _ _ _ _ Hin') as Hsrc.
  split; [done|]. split; [done|]. split; [|done].
  apply epoch_of_stamp_mono.
  - by apply Hc.
  - destruct Hsrc; [by apply Hc|by apply Hb].
  - apply Hmax'. rewrite Hm. cbn [fst]. unfold values. rewrite map_app.
    apply in_or_app. by left.
Qed.

Lemma most_recent_timestamp_never_decreases_witness :
  ∃ t t' a',
    get_most_recent_timestamp [("7", sample_activity 7 "Run" 738886 3600 5000 1500)]
    = Some t
    ∧ get_most_recent_timestamp
        (fst (merge [("7", sample_activity 7 "Run" 738886 3600 5000 1500)]
                [sample_activity 8 "Run" 738888 3600 5000 1500] 0)) = Some t'
    ∧ t ≤ t'
    ∧ (In a' (values [("7", sample_activity 7 "Run" 738886 3600 5000 1500)])
       ∨ In a' [sample_activity 8 "Run" 738888 3600 5000 1500])
    ∧ t' = epoch_of_stamp (start_date_local a').
Proof.
  apply (most_recent_timestamp_never_decreases
           [("7", sample_activity 7 "Run" 738886 3600 5000 1500)]
           [sample_activity 8 "Run" 738888 3600 5000 1500]).
  - discriminate.
  - intros a [<-|[]]. reflexivity.
  - intros a [<-|[]]. reflexivity.
Defined.

(** ** Weeks *)

(** X9. [week_monday] cuts the calendar into weeks: its value is a Monday,
    at most six days before the date; every day from a Monday to the Sunday
    after it is sent to that Monday; and it grows with the date. *)
Theorem week_monday_partitions_days :
  (∀ d, weekday (week_monday d) = 0 ∧ d - 6 ≤ week_monday d ≤ d)
  ∧ (∀ m k, weekday m = 0 → 0 ≤ k ≤ 6 → week_monday (m + k) = m)
  ∧ (∀ d, week_monday (week_monday d) = week_monday d)
  ∧ (∀ d d', d ≤ d' → week_monday d ≤ week_monday d')
  ∧ (∀ d d', week_monday d = week_monday d' ↔ (d + 6) / 7 = (d' + 6) / 7).
Proof.
  unfold week_monday, weekday.
  repeat split; intros; Z.div_mod_to_equations; lia.
Qed.

(** X10. Two dates get the same weekly report file exactly when they fall
    in the same Monday-to-Sunday week; the file of the week before never is
    the file of the week itself. *)
Theorem week_files_identify_weeks :
  (∀ d d', week_file (iso_week_label (week_monday d))
           = week_file (iso_week_label (week_monday d'))
           ↔ week_monday d = week_monday d')
  ∧ (∀ now, last_week_file now ≠ week_file (iso_week_label (week_monday (st_date now)))).
Proof.
  split.
  - intros d d'. split; [|by intros ->].
    intros H. apply week_file_inj, iso_week_label_inj in H;
      [done|apply week_monday_is_monday..].
  - intros now H. unfold last_week_file in H.
    apply week_file_inj, iso_week_label_inj in H;
      [|apply last_monday_is_monday|apply week_monday_is_monday].
    unfold last_monday in H. lia.
Qed.

(** X11. Every cached record is listed in the week of its own Monday and
    in no other week that starts on a Monday. *)
Theorem each_record_in_exactly_its_week (c : cache) (a : activity) :
  In a (values c) →
  In a (activities_for_week c (week_monday (activity_date a)))
  ∧ ∀ m, weekday m = 0 → In a (activities_for_week c m) →
         m = week_monday (activity_date a).
Proof.
  intros Hin. split.
  - unfold activities_for_week.
    apply (Permutation_in _ (Permutation_sym (sort_by_start_perm _))).
    apply filter_In. split; [done|]. unfold in_week.
    pose proof (week_monday_le (activity_date a)). zcases.
  - intros m Hm Hw. apply activities_for_week_in in Hw.
    unfold week_monday, weekday in *. Z.div_mod_to_equations. lia.
Qed.

Lemma each_record_in_exactly_its_week_witness :
  In (sample_activity 7 "Run" 738888 3600 5000 1500)
    (activities_for_week [("7", sample_activity 7 "Run" 738888 3600 5000 1500)]
       (week_monday (activity_date (sample_activity 7 "Run" 738888 3600 5000 1500)))).
Proof.
  refine (proj1 (each_record_in_exactly_its_week
                   [("7", sample_activity 7 "Run" 738888 3600 5000 1500)]
                   (sample_activity 7 "Run" 738888 3600 5000 1500) _)).
  simpl. left. reflexivity.
Defined.

(** ** Durations *)

Lemma pretty_N_go_length (x : N) :
  ∀ s, (String.length s ≤ String.length (pretty_N_go x s))%nat.
Proof.
  induction x as [x IH] using (well_founded_induction N.lt_wf_0). intros s.
  destruct (decide (x = 0%N)) as [->|Hx]; [by rewrite pretty_N_go_0|].
  rewrite pretty_N_go_step by lia.
  etrans; [|apply IH; apply N.div_lt; lia]. simpl. lia.
Qed.

Lemma pretty_Z_length (z : Z) : 0 ≤ z → (1 ≤ String.length (pretty z))%nat.
Proof.
  intros Hz. destruct z as [|p|p]; [simpl; lia| |lia].
  change (pretty (Z.pos p)) with (pretty (N.pos p)).
  unfold pretty, pretty_N. cbn [decide_rel]. destruct (decide _) as [|_]; [done|].
  rewrite pretty_N_go_step by lia.
  etrans; [|apply pretty_N_go_length]. simpl. lia.
Qed.

Lemma pretty_small_length (z : Z) : 0 ≤ z ≤ 59 → (String.length (pretty z) ≤ 2)%nat.
Proof.
  intros Hz. apply Nat.leb_le.
  apply (forallb_range (fun w => Nat.leb (String.length (pretty w)) 2) 0 60);
    [vm_compute; reflexivity | lia].
Qed.

Lemma fmt_02d_small_inj (z z' : Z) :
  0 ≤ z ≤ 59 → 0 ≤ z' ≤ 59 → fmt_02d z = fmt_02d z' → z = z'.
Proof.
  intros Hz Hz' Heq.
  assert (H : forallb (fun v' => implb (String.eqb (fmt_02d z) (fmt_02d v')) (z =? v'))
                (seqZ 0 60) = true).
  { apply (forallb_range
             (fun v => forallb (fun v' => implb (String.eqb (fmt_02d v) (fmt_02d v')) (v =? v'))
                         (seqZ 0 60)) 0 60); [vm_compute; reflexivity | lia]. }
  pose proof (forallb_range _ 0 60 H z' ltac:(lia)) as Hp. cbv beta in Hp.
  rewrite Heq, String.eqb_refl in Hp. simpl in Hp. by apply Z.eqb_eq.
Qed.

(** The two shapes of [format_duration] and of [format_duration_hm]: a
    number, a separator, and a tail of fixed width. *)
Lemma long_form_inj (h h' m m' : Z) (sep tail' tail'' : string) :
  0 ≤ m ≤ 59 → 0 ≤ m' ≤ 59 →
  String.length tail' = String.length tail'' →
  str_int h +:+ sep +:+ fmt_02d m +:+ tail' = str_int h' +:+ sep +:+ fmt_02d m' +:+ tail'' →
  h = h' ∧ m = m' ∧ tail' = tail''.
Proof.
  intros Hm Hm' Hlen H.
  apply str_app_inj_r in H as [Hh H].
  - apply (inj pretty) in Hh.
    apply str_app_inj_l in H as [_ H]; [|done].
    apply str_app_inj_l in H as [Hmm Ht]; [|by rewrite !fmt_02d_seconds_length].
    apply fmt_02d_small_inj in Hmm; done.
  - rewrite !str_app_length, !fmt_02d_seconds_length by done. lia.
Qed.

Lemma duration_fields (seconds : Z) :
  0 ≤ seconds →
  0 ≤ seconds / 3600 ∧ 0 ≤ seconds mod 3600 / 60 ≤ 59 ∧ 0 ≤ seconds mod 3600 mod 60 ≤ 59
  ∧ seconds = seconds / 3600 * 3600 + seconds mod 3600 / 60 * 60 + seconds mod 3600 mod 60
  ∧ seconds / 60 = seconds / 3600 * 60 + seconds mod 3600 / 60.
Proof. intros. Z.div_mod_to_equations. lia. Qed.

Lemma format_duration_inj (s1 s2 : Z) :
  0 ≤ s1 → 0 ≤ s2 → format_duration s1 = format_duration s2 → s1 = s2.
Proof.
  intros H1 H2 Heq.
  destruct (duration_fields s1 H1) as (Hh1 & Hm1 & Hs1 & E1 & _).
  destruct (duration_fields s2 H2) as (Hh2 & Hm2 & Hs2 & E2 & _).
  unfold format_duration in Heq. cbv zeta in Heq.
  pose proof (f_equal String.length Heq) as Hlen.
  pose proof (pretty_Z_length _ Hh1) as L1. pose proof (pretty_Z_length _ Hh2) as L2.
  pose proof (pretty_small_length _ Hm1) as M1. pose proof (pretty_small_length _ Hm2) as M2.
  pose proof (fmt_02d_seconds_length _ Hm1) as F1.
  pose proof (fmt_02d_seconds_length _ Hm2) as F2.
  pose proof (fmt_02d_seconds_length _ Hs1) as G1.
  pose proof (fmt_02d_seconds_length _ Hs2) as G2.
  unfold str_int in *.
  destruct (Z.ltb_spec 0 (s1 / 3600)) as [P1|P1], (Z.ltb_spec 0 (s2 / 3600)) as [P2|P2].
  - apply (long_form_inj _ _ _ _ ":" (":" +:+ _) (":" +:+ _)) in Heq
      as (Hh & Hm & Ht); [|done|done|by rewrite !str_app_length, G1, G2].
    apply (str_app_inj_l ":" ":") in Ht as [_ Hs]; [|done].
    apply fmt_02d_small_inj in Hs; [|done..]. lia.
  - rewrite !str_app_length, ?F1, ?F2, ?G1, ?G2 in Hlen. simpl in Hlen. lia.
  - rewrite !str_app_length, ?F1, ?F2, ?G1, ?G2 in Hlen. simpl in Hlen. lia.
  - apply str_app_inj_r in Heq as [Hm Hs]; [|by rewrite !str_app_length, G1, G2].
    apply (inj pretty) in Hm.
    apply (str_app_inj_l ":" ":") in Hs as [_ Hs]; [|done].
    apply fmt_02d_small_inj in Hs; [|done..]. lia.
Qed.

(** X12. [format_duration] loses nothing: two different durations of zero
    seconds or more are never printed alike, be it in the form [M:SS] or in
    the form [H:MM:SS]. *)
Theorem format_duration_injective (s1 s2 : Z) :
  0 ≤ s1 → 0 ≤ s2 → s1 ≠ s2 → format_duration s1 ≠ format_duration s2.
Proof. intros H1 H2 Hne Heq. by apply Hne, format_duration_inj. Qed.

Lemma format_duration_injective_witness :
  format_duration 3599 ≠ format_duration 3600.
Proof. apply (format_duration_injective 3599 3600); lia. Defined.

(** X13. [format_duration_hm] drops the seconds and nothing else: two
    durations of zero seconds or more are printed alike exactly when they
    have the same number of whole minutes; the minutes are never rounded
    up. *)
Theorem format_duration_hm_whole_minutes (s1 s2 : Z) :
  0 ≤ s1 → 0 ≤ s2 →
  (format_duration_hm s1 = format_duration_hm s2 ↔ s1 / 60 = s2 / 60).
Proof.
  intros H1 H2.
  destruct (duration_fields s1 H1) as (Hh1 & Hm1 & _ & _ & E1).
  destruct (duration_fields s2 H2) as (Hh2 & Hm2 & _ & _ & E2).
  split.
  - intros Heq. unfold format_duration_hm in Heq. cbv zeta in Heq.
    pose proof (f_equal String.length Heq) as Hlen.
    pose proof (pretty_Z_length _ Hh1) as L1. pose proof (pretty_Z_length _ Hh2) as L2.
    pose proof (pretty_small_length _ Hm1) as M1.
    pose proof (pretty_small_length _ Hm2) as M2.
    pose proof (fmt_02d_seconds_length _ Hm1) as F1.
    pose proof (fmt_02d_seconds_length _ Hm2) as F2.
    unfold str_int in *.
    destruct (Z.ltb_spec 0 (s1 / 3600)) as [P1|P1], (Z.ltb_spec 0 (s2 / 3600)) as [P2|P2].
    + apply (long_form_inj _ _ _ _ "h " "m" "m") in Heq as (Hh & Hm & _); [lia|done..].
    + rewrite !str_app_length, ?F1, ?F2 in Hlen. simpl in Hlen. lia.
    + rewrite !str_app_length, ?F1, ?F2 in Hlen. simpl in Hlen. lia.
    + apply str_app_inj_r in Heq as [Hm _]; [|done].
      apply (inj pretty) in Hm. lia.
  - intros Heq. unfold format_duration_hm. cbv zeta.
    assert (s1 / 3600 = s2 / 3600) as -> by (Z.div_mod_to_equations; lia).
    assert (s1 mod 3600 / 60 = s2 mod 3600 / 60) as -> by (Z.div_mod_to_equations; lia).
    done.
Qed.

Lemma format_duration_hm_whole_minutes_witness :
  format_duration_hm 3659 = format_duration_hm 3600 ↔ 3659 / 60 = 3600 / 60.
Proof. apply (format_duration_hm_whole_minutes 3659 3600); lia. Defined.

(** ** Activity kinds *)

Lemma str_take_length (n : nat) (s : string) : (String.length (str_take n s) ≤ n)%nat.
Proof.
  revert s. induction n as [|n IH]; intros [|ch s]; simpl; try lia.
  specialize (IH s). lia.
Qed.

Lemma str_take_short (n : nat) (s t : string) :
  str_take n s = t → (String.length t < n)%nat → s = t.
Proof.
  revert s t. induction n as [|n IH]; intros s t H Hlen; [lia|].
  destruct s as [|ch s]; [done|]. simpl in H. destruct t as [|ch' t]; [done|].
  inversion H. subst ch'. f_equal. rewrite H2. apply IH; [done|]. simpl in Hlen. lia.
Qed.

(** The type names [activity_type_short] maps to a given label. *)
Lemma activity_type_short_cases (a : activity) :
  (In (act_type a)
      ["Run"; "VirtualRun"; "Ride"; "VirtualRide"; "Swim"; "Walk"; "Hike"; "Yoga";
       "WeightTraining"; "Workout"]
   ∧ In (act_type a, activity_type_short a)
       [("Run", "Run"); ("VirtualRun", "Run"); ("Ride", "Ride");
        ("VirtualRide", "Ride"); ("Swim", "Swim"); ("Walk", "Walk");
        ("Hike", "Hike"); ("Yoga", "Yoga"); ("WeightTraining", "Wts");
        ("Workout", "Wrkt")])
  ∨ (¬ In (act_type a)
        ["Run"; "VirtualRun"; "Ride"; "VirtualRide"; "Swim"; "Walk"; "Hike"; "Yoga";
         "WeightTraining"; "Workout"]
     ∧ activity_type_short a = str_take 4 (act_type a)).
Proof.
  unfold activity_type_short. cbv zeta. cbn [List.find fst snd].
  repeat match goal with
  | |- context [String.eqb ?k (act_type a)] =>
      destruct (String.eqb_spec k (act_type a)) as [<-|?];
        [left; cbn [In]; tauto|]
  end.
  right. split; [|done]. cbn [In]. intuition congruence.
Qed.

Lemma labels_exclusive (a : activity) :
  is_run a && is_ride a = false ∧ (is_run a = true → is_ride a = false).
Proof.
  assert (H : is_run a && is_ride a = false).
  { unfold is_run, is_ride, str_in. cbn [existsb].
    destruct (String.eqb_spec (lower (act_type a)) "run") as [->|]; [done|].
    destruct (String.eqb_spec (lower (act_type a)) "virtualrun") as [->|]; done. }
  split; [done|]. intros Hr. by rewrite Hr in H.
Qed.

(** X14. No activity is both a run and a ride.  The label [Run] is given
    to the types [Run] and [VirtualRun] and to no other, and its row shows a
    pace; the types [Ride] and [VirtualRide] are labelled [Ride] and their
    row shows a speed.  The label is never longer than four characters. *)
Theorem labels_match_metrics (a : activity) :
  is_run a && is_ride a = false
  ∧ (activity_type_short a = "Run" ↔ act_type a = "Run" ∨ act_type a = "VirtualRun")
  ∧ (activity_type_short a = "Run" →
     pace_or_speed a
     = format_pace (moving_time a) (distance a / METERS_PER_MILE)%float)
  ∧ (act_type a = "Ride" ∨ act_type a = "VirtualRide" →
     activity_type_short a = "Ride"
     ∧ pace_or_speed a
       = format_speed (distance a / METERS_PER_MILE)%float (moving_time a))
  ∧ (String.length (activity_type_short a) ≤ 4)%nat.
Proof.
  split; [apply labels_exclusive|].
  assert (Hrun : activity_type_short a = "Run" →
                 act_type a = "Run" ∨ act_type a = "VirtualRun").
  { intros H. destruct (activity_type_short_cases a) as [[_ Hin]|[Hnot Hshort]].
    - rewrite H in Hin. cbn [In] in Hin.
      repeat destruct Hin as [Hin|Hin]; try done; inversion Hin; tauto.
    - exfalso. apply Hnot. rewrite Hshort in H.
      apply str_take_short in H; [|simpl; lia]. rewrite H. by left. }
  split; [split; [done|]|].
  { unfold activity_type_short. by intros [->| ->]. }
  split; [|split].
  - intros H. unfold pace_or_speed, is_run.
    by destruct (Hrun H) as [->| ->].
  - unfold activity_type_short, pace_or_speed, is_run, is_ride.
    by intros [->| ->].
  - destruct (activity_type_short_cases a) as [[_ Hin]|[_ ->]]; [|apply str_take_length].
    cbn [In] in Hin.
    repeat destruct Hin as [Hin|Hin]; try done; inversion Hin; simpl; lia.
Qed.

Lemma float_zero_shape (x : float) :
  (x =? 0)%float = true → ∃ s, Prim2SF x = S754_zero s.
Proof.
  rewrite FloatAxioms.eqb_spec, Prim2SF_zero.
  destruct (Prim2SF x) as [s|s| |s m e]; [by exists s|by destruct s|done|by destruct s].
Qed.

Lemma miles_of_zero (x : float) :
  (x =? 0)%float = true → (x / METERS_PER_MILE =? 0)%float = true.
Proof.
  intros [s Hs]%float_zero_shape.
  rewrite FloatAxioms.eqb_spec, FloatAxioms.div_spec, Hs, Prim2SF_zero.
  by destruct s.
Qed.

(** X15. The pace-or-speed cell falls back to the dash instead of dividing
    by zero: for an activity that is neither a run nor a ride, for a run of
    distance zero, and for a ride of moving time zero. *)
Theorem pace_or_speed_dash (a : activity) :
  (is_run a = false ∧ is_ride a = false)
  ∨ (is_run a = true ∧ (distance a =? 0)%float = true)
  ∨ (is_ride a = true ∧ moving_time a = 0) →
  pace_or_speed a = Ok dash.
Proof.
  unfold pace_or_speed.
  intros [[-> ->]|[[Hr Hd]|[Hr Hm]]]; [done| |].
  - rewrite Hr. unfold format_pace. by rewrite (miles_of_zero _ Hd).
  - assert (is_run a = false) as ->.
    { pose proof (proj1 (labels_exclusive a)) as H. rewrite Hr, andb_true_r in H. done. }
    rewrite Hr. unfold format_speed. by rewrite Hm.
Qed.

Lemma pace_or_speed_dash_witness :
  pace_or_speed (sample_activity 1 "Run" 738886 3600 0 1500) = Ok dash.
Proof.
  apply (pace_or_speed_dash (sample_activity 1 "Run" 738886 3600 0 1500)).
  right. left. split; reflexivity.
Defined.

(** ** Totals of a week *)

Lemma sum_time_from (l : list activity) :
  ∀ acc, fold_left (fun acc a => acc + moving_time a) l acc = acc + sum_time l.
Proof.
  unfold sum_time. induction l as [|a l IH]; intros acc; [cbn; lia|].
  cbn [fold_left]. rewrite (IH (acc + moving_time a)), (IH (0 + moving_time a)). lia.
Qed.

Lemma sum_time_cons (a : activity) (l : list activity) :
  sum_time (a :: l) = moving_time a + sum_time l.
Proof. unfold sum_time at 1. cbn [fold_left]. rewrite sum_time_from. lia. Qed.

Lemma sum_time_nonneg (l : list activity) :
  (∀ a, In a l → 0 ≤ moving_time a) → 0 ≤ sum_time l.
Proof.
  induction l as [|a l IH]; intros H; [done|].
  rewrite sum_time_cons. pose proof (H a (or_introl eq_refl)).
  assert (0 ≤ sum_time l) by (apply IH; intros b Hb; apply H; by right). lia.
Qed.

(** X16. The totals count no activity twice: the runs and the rides
    together are at most the activities of the week, and when no moving time
    is negative the running time and the cycling time together are at most
    the total training time, the difference being the time of the
    activities that are neither. *)
Theorem totals_count_each_activity_once (activities : list activity) :
  (length (runs_of activities) + length (rides_of activities)
   + length (List.filter (fun a => negb (is_run a) && negb (is_ride a)) activities)
   = length activities)%nat
  ∧ sum_time (runs_of activities) + sum_time (rides_of activities)
    + sum_time (List.filter (fun a => negb (is_run a) && negb (is_ride a)) activities)
    = sum_time activities
  ∧ ((∀ a, In a activities → 0 ≤ moving_time a) →
     0 ≤ sum_time (runs_of activities)
     ∧ 0 ≤ sum_time (rides_of activities)
     ∧ sum_time (runs_of activities) + sum_time (rides_of activities)
       ≤ sum_time activities).
Proof.
  assert (Hparts :
    (length (runs_of activities) + length (rides_of activities)
     + length (List.filter (fun a => negb (is_run a) && negb (is_ride a)) activities)
     = length activities)%nat
    ∧ sum_time (runs_of activities) + sum_time (rides_of activities)
      + sum_time (List.filter (fun a => negb (is_run a) && negb (is_ride a)) activities)
      = sum_time activities).
  { unfold runs_of, rides_of.
    induction activities as [|a l [IHn IHt]]; [done|].
    cbn [List.filter]. destruct (labels_exclusive a) as [_ Hex].
    destruct (is_run a) eqn:Hr.
    - rewrite (Hex eq_refl). cbn [negb andb length]. rewrite !sum_time_cons. lia.
    - destruct (is_ride a); cbn [negb andb length]; rewrite !sum_time_cons; lia. }
  destruct Hparts as [Hn Ht]. split; [done|]. split; [done|].
  intros Hpos.
  assert (Hsub : ∀ f, 0 ≤ sum_time (List.filter f activities)).
  { intros f. apply sum_time_nonneg. intros a [Ha _]%filter_In. by apply Hpos. }
  pose proof (Hsub is_run). pose proof (Hsub is_ride).
  pose proof (Hsub (fun a => negb (is_run a) && negb (is_ride a))).
  unfold runs_of, rides_of in *. lia.
Qed.

(** ** The live report and a whole run *)

Lemma write_current_week_nil (c : cache) (now : stamp) (today : date) :
  activities_for_week c (week_monday (st_date now)) = [] →
  write_current_week c now today = Ok (empty_current_report now today).
Proof.
  intros Hc. unfold write_current_week. cbv zeta.
  rewrite Hc, build_week_totals_nil. cbn [mbind result_bind table_rows].
  unfold empty_current_report. f_equal.
  apply (f_equal (fun text => text +:+ newline)).
  exact (join_lines_flatten_at
           [ "# Current Week (" +:+ week_date_range_str (week_monday (st_date now)) +:+ ")";
             "*Last updated: " +:+ strftime_ymd_hm now +:+ "*";
             ""; "## Totals" ]
           [ "- Running: 0.0 mi | 0 runs | avg pace —";
             "- Cycling: 0.0 mi | 0 rides | 0m";
             "- Strength: (see status.md)";
             empty_rest_line (week_monday (st_date now)) today;
             "- Total training hours: 0m" ]
           ("" :: table_head ++ [no_activities_yet_row] ++ [""])
           ltac:(discriminate)).
Qed.

Lemma activities_for_week_nil (c : cache) (monday_date : date) :
  (∀ a, In a (values c) → ¬ monday_date ≤ activity_date a ≤ monday_date + 6) →
  activities_for_week c monday_date = [].
Proof.
  intros H. unfold activities_for_week. rewrite filter_false; [done|].
  intros a Ha. specialize (H a Ha). unfold in_week. zcases.
Qed.

(** X17. When the cache holds no activity of the week that [now] falls
    in, the live report is written all the same: the header and the time of
    the update, the totals of the empty set with the rest days counted so
    far, and the row "No activities yet". *)
Theorem live_report_of_empty_week (c : cache) (now : stamp) (today : date) :
  (∀ a, In a (values c) →
        ¬ week_monday (st_date now) ≤ activity_date a ≤ week_monday (st_date now) + 6) →
  write_current_week c now today = Ok (empty_current_report now today)
  ∧ (week_monday (st_date now) ≤ today ≤ week_monday (st_date now) + 6 →
     empty_rest_line (week_monday (st_date now)) today
     = "- Rest days so far: " +:+ str_int (today - week_monday (st_date now) + 1)
       +:+ "/" +:+ str_int (today - week_monday (st_date now) + 1)).
Proof.
  intros Hnone. split.
  - by apply write_current_week_nil, activities_for_week_nil.
  - intros Hweek. unfold empty_rest_line.
    replace (is_current (week_monday (st_date now)) today) with true
      by (symmetry; unfold is_current; zcases).
    replace (days_so_far (week_monday (st_date now)) today)
      with (today - week_monday (st_date now) + 1) by (unfold days_so_far; lia).
    reflexivity.
Qed.

Lemma live_report_of_empty_week_witness :
  write_current_week [("1", sample_activity 1 "Run" 738880 3600 5000 1500)]
    {| st_date := 738890; st_secs := 34200 |} 738890
  = Ok (empty_current_report {| st_date := 738890; st_secs := 34200 |} 738890).
Proof.
  refine (proj1 (live_report_of_empty_week
                   [("1", sample_activity 1 "Run" 738880 3600 5000 1500)]
                   {| st_date := 738890; st_secs := 34200 |} 738890 _)).
  intros a [<-|[]]. vm_compute. intros [H _]. apply H. reflexivity.
Defined.

(** X18. The first run on a machine without cache and without the report
    of the previous week, when Strava has nothing in the window: the run
    completes, saves an empty mapping, writes the report of the previous
    week and the live report, both of an empty week, and says so. *)
Theorem first_run_with_nothing_fetched (env : run_env) (w : world) :
  has_credentials env = true →
  cache_file w = Missing →
  weekly_files w !! last_week_file (at_rollover env) = None →
  fetch_activities_after env
    (local_epoch env {| st_date := st_date (at_window env) - 14;
                        st_secs := st_secs (at_window env) |}) = Ok [] →
  main env w
  = ({| cache_file := save_cache [];
        weekly_files :=
          <[last_week_file (at_rollover env)
            := empty_week_report (last_monday (at_rollover env)) (at_rollover_totals env)]>
            (weekly_files w);
        current_week :=
          Some (empty_current_report (at_current env) (at_current_totals env)) |},
     Ok ("No new activities. Current week file updated. Generated weekly summary: "
         +:+ iso_week_label (last_monday (at_rollover env)) +:+ ".")).
Proof.
  intros Hcred Hfile Hnone Hfetch.
  unfold main. rewrite Hcred, Hfile. cbn [negb load_cache].
  match goal with
  | |- main_on_cache env w ?c0 = ?rhs =>
      assert (Hon : main_on_cache env w [] = rhs); [|by destruct (force env)]
  end.
  unfold main_on_cache. unfold fetch_window. cbn [get_most_recent_timestamp values map].
  unfold BACKFILL_DAYS. rewrite Hfetch. cbn [merge].
  rewrite rollover_missing by done.
  assert (Hweek : weekly_summary_text [] (last_monday (at_rollover env)) (at_rollover_totals env)
                  = Ok (empty_week_report (last_monday (at_rollover env))
                          (at_rollover_totals env))).
  { unfold weekly_summary_text. cbv zeta.
    change (activities_for_week [] (last_monday (at_rollover env))) with (@nil activity).
    rewrite build_week_totals_nil. cbn [mbind result_bind table_rows].
    unfold empty_week_report. f_equal.
    apply (f_equal (fun text => text +:+ newline)).
    exact (join_lines_flatten_at
             [ "# Week "
                 +:+ fmt_02d (snd (fst (isocalendar (last_monday (at_rollover env)))))
                 +:+ " (" +:+ week_date_range_str (last_monday (at_rollover env)) +:+ ")";
               ""; "## Totals" ]
             [ "- Running: 0.0 mi | 0 runs | avg pace —";
               "- Cycling: 0.0 mi | 0 rides | 0m";
               "- Strength: (see status.md)";
               empty_rest_line (last_monday (at_rollover env)) (at_rollover_totals env);
               "- Total training hours: 0m" ]
             ("" :: table_head ++ [no_activities_row]
                 ++ [""; "## Body & Injury Notes"; "- (to be filled in)"; "";
                     "## Training Notes"; "- (to be filled in)"; ""])
             ltac:(discriminate)). }
  rewrite Hweek.
  rewrite (write_current_week_nil [] (at_current env) (at_current_totals env) eq_refl).
  reflexivity.
Qed.

Lemma first_run_with_nothing_fetched_witness :
  snd (main (sample_env {| st_date := 738890; st_secs := 34200 |} []) empty_world)
  = Ok "No new activities. Current week file updated. Generated weekly summary: 2023-W52.".
Proof.
  rewrite (first_run_with_nothing_fetched
             (sample_env {| st_date := 738890; st_secs := 34200 |} []) empty_world);
    reflexivity.
Defined.


(** ** The paginated fetch *)

Lemma serve_page (records : list activity) (i : nat) :
  serve records (Z.of_nat i + 1) = Ok (take PER_PAGE (drop (PER_PAGE * i) records)).
Proof. unfold serve. by replace (Z.to_nat (Z.of_nat i + 1) - 1)%nat with i by lia. Qed.

Lemma fetch_loop_serve (records : list activity) (requests : nat) :
  ∀ i : nat,
    (PER_PAGE * i ≤ length records)%nat →
    ((length records - PER_PAGE * i) / PER_PAGE < requests)%nat →
    fetch_loop (serve records) requests (Z.of_nat i + 1) (take (PER_PAGE * i) records)
    = Some (Ok records).
Proof.
  unfold PER_PAGE.
  induction requests as [|requests IH]; intros i Hi Hreq; [lia|].
  cbn [fetch_loop]. rewrite serve_page. unfold PER_PAGE.
  pose proof (length_drop records (100 * i)%nat) as Hdrop.
  pose proof (length_take (drop (100 * i)%nat records) 100) as Htake.
  destruct (take 100 (drop (100 * i)%nat records)) as [|a batch] eqn:Hbatch.
  - cbn [length] in Htake.
    rewrite take_ge by lia. done.
  - destruct (Nat.ltb_spec (length (a :: batch)) 100) as [Hshort|Hfull].
    + rewrite <- Hbatch. rewrite (take_ge (drop _ _)) by lia.
      by rewrite take_drop.
    + replace (Z.of_nat i + 1 + 1) with (Z.of_nat (S i) + 1) by lia.
      rewrite <- Hbatch, take_take_drop.
      replace (100 * i + 100)%nat with (100 * S i)%nat by lia.
      apply IH; [lia|].
      replace (length records - 100 * i)%nat
        with (length records - 100 * S i + 1 * 100)%nat in Hreq by lia.
      rewrite Nat.div_add in Hreq by lia. lia.
Qed.

Lemma fetch_loop_serve_short (records : list activity) (requests : nat) :
  ∀ (i : nat) (acc : list activity),
    (PER_PAGE * i ≤ length records)%nat →
    (requests ≤ (length records - PER_PAGE * i) / PER_PAGE)%nat →
    fetch_loop (serve records) requests (Z.of_nat i + 1) acc = None.
Proof.
  unfold PER_PAGE.
  induction requests as [|requests IH]; intros i acc Hi Hreq; [done|].
  cbn [fetch_loop]. rewrite serve_page. unfold PER_PAGE.
  pose proof (length_drop records (100 * i)%nat) as Hdrop.
  pose proof (length_take (drop (100 * i)%nat records) 100) as Htake.
  assert (Hfull : (100 * S i ≤ length records)%nat).
  { destruct (Nat.le_gt_cases (100 * S i) (length records)) as [|Hlt]; [done|].
    rewrite Nat.div_small in Hreq by lia. lia. }
  destruct (take 100 (drop (100 * i)%nat records)) as [|a batch] eqn:Hbatch.
  - cbn [length] in Htake. lia.
  - destruct (Nat.ltb_spec (length (a :: batch)) 100) as [Hshort|_]; [lia|].
    replace (Z.of_nat i + 1 + 1) with (Z.of_nat (S i) + 1) by lia.
    apply IH; [done|].
    replace (length records - 100 * i)%nat
      with (length records - 100 * S i + 1 * 100)%nat in Hreq by lia.
    rewrite Nat.div_add in Hreq by lia. lia.
Qed.

(** X20. Against a server that hands out its records in pages of one
    hundred, the fetch loop ends and returns all the records in order,
    after one request more than the number of full pages (so a last, empty
    page is asked for when the count is a multiple of one hundred); any
    smaller bound on the requests leaves the loop unfinished. *)
Theorem paginated_fetch_returns_all (records : list activity) (requests : nat) :
  ((length records / 100 < requests)%nat →
   fetch_activities_after_pages (serve records) requests = Some (Ok records))
  ∧ ((requests ≤ length records / 100)%nat →
     fetch_activities_after_pages (serve records) requests = None).
Proof.
  unfold fetch_activities_after_pages. split; intros Hreq.
  - apply (fetch_loop_serve records requests 0); unfold PER_PAGE; [lia|].
    by rewrite Nat.mul_0_r, Nat.sub_0_r.
  - apply (fetch_loop_serve_short records requests 0); unfold PER_PAGE; [lia|].
    by rewrite Nat.mul_0_r, Nat.sub_0_r.
Qed.

Lemma fetch_loop_raises (get_page : Z → result (list activity)) (e : exn) (k : Z)
    (requests : nat) :
  ∀ (page : Z) (acc : list activity),
    1 ≤ page ≤ k →
    k - page < Z.of_nat requests →
    (∀ p, page ≤ p < k →
          ∃ batch, get_page p = Ok batch ∧ (PER_PAGE ≤ length batch)%nat) →
    get_page k = Raise e →
    fetch_loop get_page requests page acc = Some (Raise e).
Proof.
  induction requests as [|requests IH]; intros page acc Hpage Hreq Hfull Hk; [lia|].
  cbn [fetch_loop].
  destruct (Z.eq_dec page k) as [->|Hne]; [by rewrite Hk|].
  destruct (Hfull page ltac:(lia)) as (batch & -> & Hlen).
  destruct batch as [|a batch]; [unfold PER_PAGE in Hlen; cbn in Hlen; lia|].
  destruct (Nat.ltb_spec (length (a :: batch)) PER_PAGE) as [Hshort|_]; [lia|].
  apply IH; [lia|lia| |done].
  intros p Hp. apply Hfull. lia.
Qed.

(** X21. A request that fails makes the whole fetch fail: when the pages
    before page [k] are full and page [k] raises, the fetch raises the same
    exception, and none of the records received so far are returned. *)
Theorem failed_page_fails_the_fetch (get_page : Z → result (list activity))
    (e : exn) (k : Z) (requests : nat) :
  1 ≤ k →
  k ≤ Z.of_nat requests →
  (∀ p, 1 ≤ p < k →
        ∃ batch, get_page p = Ok batch ∧ (PER_PAGE ≤ length batch)%nat) →
  get_page k = Raise e →
  fetch_activities_after_pages get_page requests = Some (Raise e).
Proof.
  intros Hk Hreq Hfull Hraise. unfold fetch_activities_after_pages.
  apply (fetch_loop_raises get_page e k); [lia|lia|done|done].
Qed.

Lemma failed_page_fails_the_fetch_witness :
  fetch_activities_after_pages
    (fun p => if p =? 1
              then Ok (repeat (sample_activity 1 "Run" 738886 3600 5000 1500) 100)
              else Raise HTTPError) 5
  = Some (Raise HTTPError).
Proof.
  apply (failed_page_fails_the_fetch _ HTTPError 2 5); [lia|lia| |reflexivity].
  intros p Hp. replace p with 1 by lia. eexists. split; [reflexivity|].
  vm_compute. lia.
Defined.

(** ** The refresh token in [.env] *)

Lemma startswith_key (token : string) : startswith (TOKEN_KEY +:+ token) TOKEN_KEY = true.
Proof. unfold startswith, TOKEN_KEY. cbn. by destruct token. Qed.

Lemma update_env_lines_lookup (lines : list string) (new_token : string) (i : nat) :
  update_env_lines lines new_token !! i
  = (fun line => if startswith line TOKEN_KEY then TOKEN_KEY +:+ new_token else line)
      <$> lines !! i.
Proof. unfold update_env_lines. apply list_lookup_fmap. Qed.

Lemma join_lines_feed (ls : list string) :
  ls ≠ [] →
  join_lines ls +:+ newline = String.concat "" (map (fun l => l +:+ newline) ls).
Proof.
  induction ls as [|l ls IH]; [done|]. intros _.
  destruct ls as [|l' ls]; [done|].
  change (join_lines (l :: l' :: ls)) with (l +:+ newline +:+ join_lines (l' :: ls)).
  change (String.concat "" (map (fun l => l +:+ newline) (l :: l' :: ls)))
    with ((l +:+ newline)
          +:+ String.concat "" (map (fun l => l +:+ newline) (l' :: ls))).
  rewrite <- IH by discriminate. by rewrite !str_app_assoc.
Qed.

(** X22. [update_env_token] works on the list of lines that
    [splitlines()] returns for [.env].  The rewritten list has the same
    length; a line that begins with [STRAVA_REFRESH_TOKEN=] becomes the key
    followed by the new token and every other line is kept, so every line
    of the result that begins with the key carries the new token.  When no
    line begins with the key the list is unchanged, so the new token is not
    stored.  The text written is the rewritten lines joined by a line feed,
    and one line feed at the end, whatever line ends the file had: each
    line followed by a line feed when there is a line, and a single line
    feed when there is none. *)
Theorem update_env_token_rewrites_token_lines (lines : list string) (new_token : string) :
  length (update_env_lines lines new_token) = length lines
  ∧ (∀ i line, lines !! i = Some line →
       update_env_lines lines new_token !! i
       = Some (if startswith line TOKEN_KEY then TOKEN_KEY +:+ new_token else line))
  ∧ (∀ line, In line (update_env_lines lines new_token) →
       startswith line TOKEN_KEY = true → line = TOKEN_KEY +:+ new_token)
  ∧ ((∀ line, In line lines → startswith line TOKEN_KEY = false) →
     update_env_lines lines new_token = lines
     ∧ update_env_token lines new_token = join_lines lines +:+ newline)
  ∧ update_env_token lines new_token
    = String.concat newline (update_env_lines lines new_token) +:+ newline
  ∧ (lines ≠ [] →
     update_env_token lines new_token
     = String.concat "" (map (fun line => line +:+ newline)
                           (update_env_lines lines new_token)))
  ∧ (lines = [] → update_env_token lines new_token = newline)
  ∧ update_env_token ["A=1"; "STRAVA_REFRESH_TOKEN=old"; "B=2"] "new"
    = "A=1
STRAVA_REFRESH_TOKEN=new
B=2
"
  ∧ update_env_token ["A=1"; "B=2"] "new"
    = "A=1
B=2
".
Proof.
  split; [apply length_map|]. split; [|split; [|split; [|split; [|split; [|split]]]]].
  - intros i line Hi. by rewrite update_env_lines_lookup, Hi.
  - intros line Hin Hkey. unfold update_env_lines in Hin.
    apply in_map_iff in Hin as (old & Hline & _).
    destruct (startswith old TOKEN_KEY) eqn:Hold; [done|]. congruence.
  - intros Hnone.
    assert (Hsame : update_env_lines lines new_token = lines).
    { unfold update_env_lines.
      induction lines as [|line lines IH]; [done|].
      cbn [map]. rewrite (Hnone line) by (by left). f_equal.
      apply IH. intros l Hl. apply Hnone. by right. }
    split; [done|]. unfold update_env_token. by rewrite Hsame.
  - unfold update_env_token. f_equal.
    induction (update_env_lines lines new_token) as [|l ls IH]; [done|].
    destruct ls as [|l' ls]; [done|].
    change (join_lines (l :: l' :: ls)) with (l +:+ newline +:+ join_lines (l' :: ls)).
    by rewrite IH.
  - intros Hne. unfold update_env_token. apply join_lines_feed.
    destruct lines; [done|]. discriminate.
  - intros ->. reflexivity.
  - split; reflexivity.
Qed.

(** X23. Of two successive updates of the token the last one wins, and
    repeating an update changes nothing. *)
Theorem update_env_token_last_wins (lines : list string) (t1 t2 : string) :
  update_env_lines (update_env_lines lines t1) t2 = update_env_lines lines t2
  ∧ update_env_token (update_env_lines lines t1) t2 = update_env_token lines t2
  ∧ update_env_lines (update_env_lines lines t1) t1 = update_env_lines lines t1.
Proof.
  assert (H : ∀ a b, update_env_lines (update_env_lines lines a) b
                     = update_env_lines lines b).
  { intros a b. unfold update_env_lines. rewrite map_map. apply map_ext.
    intros line. destruct (startswith line TOKEN_KEY) eqn:Hline.
    - by rewrite startswith_key.
    - by rewrite Hline. }
  split; [apply H|]. split; [|apply H].
  unfold update_env_token. by rewrite H.
Qed.

(** X24. [refresh_access_token] touches [.env] exactly when the answer
    has status 200 and carries a refresh token other than the one sent;
    what it writes then is the file with that token in its token lines.  An
    answer of another status ends the run, and an answer of status 200
    without access token raises [KeyError] after [.env] has been written. *)
Theorem refresh_rewrites_env_only_on_rotation (env_lines : list string)
    (refresh_token : string) (resp : token_response) :
  (status_code resp ≠ 200 →
   refresh_access_token env_lines refresh_token resp = (None, Raise SystemExit))
  ∧ (∀ text, fst (refresh_access_token env_lines refresh_token resp) = Some text ↔
       ∃ rotated, status_code resp = 200
                  ∧ body_refresh_token resp = Some rotated
                  ∧ rotated ≠ refresh_token
                  ∧ text = update_env_token env_lines rotated)
  ∧ (status_code resp = 200 →
     snd (refresh_access_token env_lines refresh_token resp)
     = match body_access_token resp with
       | Some token => Ok token
       | None => Raise KeyError
       end).
Proof.
  unfold refresh_access_token.
  destruct (Z.eqb_spec (status_code resp) 200) as [Hok|Hbad]; cbn [negb].
  - split; [done|]. split; [|done]. intros text. cbn [fst].
    destruct (body_refresh_token resp) as [rotated|]; cbv [default from_option id].
    + destruct (String.eqb_spec rotated refresh_token) as [Heq|Hne]; cbn [negb].
      * split; [done|]. intros (r & _ & [= <-] & Hr & _). done.
      * split.
        -- intros [= <-]. by exists rotated.
        -- intros (r & _ & [= <-] & _ & ->). done.
    + rewrite String.eqb_refl. cbn [negb].
      split; [done|]. intros (r & _ & Hr & _). done.
  - split; [done|]. split; [|done]. intros text. cbn [fst].
    split; [done|]. intros (r & Hr & _). done.
Qed.

(** ** Rounding a quotient: the result is a normal number *)

Lemma shr_iter_m (rec : shr_record) (n : nat) :
  0 ≤ shr_m rec → shr_m (Nat.iter n shr_1 rec) = shr_m rec / 2 ^ Z.of_nat n.
Proof.
  intros Hrec. induction n as [|n IH].
  - simpl. by rewrite Z.div_1_r.
  - rewrite nat_iter_S.
    assert (Hpow : 0 < 2 ^ Z.of_nat n) by (apply Z.pow_pos_nonneg; lia).
    assert (Hpos : 0 ≤ shr_m (Nat.iter n shr_1 rec)) by (rewrite IH; apply Z.div_pos; lia).
    destruct (Nat.iter n shr_1 rec) as [m r s]. cbn [shr_m] in *.
    rewrite shr_1_spec by done. cbn [shr_m].
    rewrite IH, Nat2Z.inj_succ, Z.pow_succ_r, Z.div_div by lia.
    f_equal. lia.
Qed.

Lemma shr_m_spec (rec : shr_record) (E n : Z) :
  0 ≤ shr_m rec →
  snd (shr rec E n) = E + Z.max 0 n
  ∧ shr_m (fst (shr rec E n)) = shr_m rec / 2 ^ Z.max 0 n.
Proof.
  intros Hrec. destruct n as [|p|p]; cbn [shr fst snd].
  - rewrite Z.add_0_r. split; [done|]. cbn. by rewrite Z.div_1_r.
  - rewrite iter_pos_nat, shr_iter_m, positive_nat_Z by done.
    rewrite Z.max_r by lia. done.
  - rewrite Z.max_l by lia. rewrite Z.add_0_r. split; [done|]. cbn. by rewrite Z.div_1_r.
Qed.

(** A mantissa of at least 53 bits, within the exponent range, rounds to a
    normal number whatever the location of the discarded part. *)
Lemma binary_round_aux_normal (M : positive) (E : Z) (l : location) :
  53 ≤ Z.pos (digits2_pos M) → -1074 ≤ E → Z.pos (digits2_pos M) + E ≤ 1023 →
  ∃ m e, binary_round_aux prec emax false (Z.pos M) E l = S754_finite false m e
         ∧ bounded prec emax m e = true
         ∧ e ≤ E + (Z.pos (digits2_pos M) - 53) + 1.
Proof.
  intros Hd HE Htop.
  pose proof (digits2_bounds M) as [Hlo Hhi].
  unfold binary_round_aux, shr_fexp. cbn [Zdigits2]. rewrite fexp_eq.
  set (d := Z.pos (digits2_pos M)) in *.
  replace (Z.max (d + E - 53) (-1074) - E) with (d - 53) by lia.
  assert (Hrec : 0 ≤ shr_m (shr_record_of_loc (Z.pos M) l))
    by (destruct l as [|[]]; cbn; lia).
  assert (Hm0 : shr_m (shr_record_of_loc (Z.pos M) l) = Z.pos M)
    by (by destruct l as [|[]]).
  destruct (shr_m_spec (shr_record_of_loc (Z.pos M) l) E (d - 53) Hrec) as [He1 Hm1].
  destruct (shr (shr_record_of_loc (Z.pos M) l) E (d - 53)) as [mrs1 e1].
  cbn [fst snd] in He1, Hm1. rewrite Hm0, Z.max_r in Hm1 by lia.
  rewrite Z.max_r in He1 by lia. subst e1.
  assert (Hpow : 0 < 2 ^ (d - 53)) by (apply Z.pow_pos_nonneg; lia).
  assert (HM1 : 2 ^ 52 ≤ shr_m mrs1 < 2 ^ 53).
  { rewrite Hm1. split.
    - apply Z.div_le_lower_bound; [lia|].
      rewrite Z.mul_comm, <- Z.pow_add_r by lia.
      by replace (52 + (d - 53)) with (d - 1) by lia.
    - apply Z.div_lt_upper_bound; [lia|].
      rewrite <- Z.pow_add_r by lia.
      by replace (d - 53 + 53) with d by lia. }
  destruct (round_nearest_even_bounds (shr_m mrs1) (loc_of_shr_record mrs1)) as [Hrb _].
  set (m2 := round_nearest_even (shr_m mrs1) (loc_of_shr_record mrs1)) in *.
  clearbody m2.
  destruct m2 as [|p2|p2]; [lia| |lia].
  cbn [Zdigits2 shr_record_of_loc]. rewrite fexp_eq.
  destruct (Z.eq_dec (Z.pos p2) (2 ^ 53)) as [Htop2|Hnot].
  - assert (Hd2 : Z.pos (digits2_pos p2) = 54)
      by (apply digits2_eq; [lia|]; change (54 - 1) with 53; lia).
    rewrite Hd2.
    replace (Z.max (54 + (E + (d - 53)) - 53) (-1074) - (E + (d - 53))) with 1 by lia.
    rewrite Htop2. cbn [shr SpecFloat.iter_pos shr_1 shr_m].
    change (shr_m (shr_1 {| shr_m := 2 ^ 53; shr_r := false; shr_s := false |}))
      with (Z.pos 4503599627370496).
    replace (E + (d - 53) + 1 <=? emax - prec) with true
      by (symmetry; apply Z.leb_le; change (emax - prec) with 971; lia).
    exists 4503599627370496%positive, (E + (d - 53) + 1). split; [reflexivity|].
    split; [|lia]. apply bounded_spec.
    change (Z.pos (digits2_pos 4503599627370496)) with 53. lia.
  - assert (Hd2 : Z.pos (digits2_pos p2) = 53)
      by (apply digits2_eq; [lia|]; change (53 - 1) with 52; lia).
    rewrite Hd2.
    replace (Z.max (53 + (E + (d - 53)) - 53) (-1074) - (E + (d - 53))) with 0 by lia.
    cbn [shr shr_m].
    replace (E + (d - 53) <=? emax - prec) with true
      by (symmetry; apply Z.leb_le; change (emax - prec) with 971; lia).
    eexists _, _. split; [done|]. split; [|lia]. apply bounded_spec. rewrite Hd2. lia.
Qed.

(** [t / b] on two positive [int]s below [2 ^ 63] is a positive normal
    float below [2 ^ 65]. *)
Lemma int_truediv_positive (t b : Z) :
  0 < t < 2 ^ 63 → 0 < b < 2 ^ 63 →
  ∃ m e, int_truediv t b = Ok (SF2Prim (S754_finite false m e))
         ∧ Prim2SF (SF2Prim (S754_finite false m e)) = S754_finite false m e
         ∧ bounded prec emax m e = true
         ∧ e ≤ 12.
Proof.
  intros Ht Hb. unfold int_truediv.
  replace (b =? 0) with false by (symmetry; apply Z.eqb_neq; lia).
  replace (b <? 0) with false by (symmetry; apply Z.ltb_ge; lia).
  replace (t =? 0) with false by (symmetry; apply Z.eqb_neq; lia).
  replace (t <? 0) with false by (symmetry; apply Z.ltb_ge; lia).
  cbn [xorb].
  destruct t as [|p|p]; [lia| |lia]. destruct b as [|pb|pb]; [lia| |lia].
  change (Z.abs (Z.pos p)) with (Z.pos p). change (Z.abs (Z.pos pb)) with (Z.pos pb).
  unfold SFdiv_core_binary. cbn [Zdigits2]. rewrite fexp_eq.
  pose proof (digits2_bounds p) as [Hlo Hhi].
  pose proof (digits2_le p 63 (proj2 Ht)) as Hd63.
  pose proof (digits2_bounds pb) as [Hblo Hbhi].
  pose proof (digits2_le pb 63 (proj2 Hb)) as Hdb63.
  set (d := Z.pos (digits2_pos p)) in *.
  set (db := Z.pos (digits2_pos pb)) in *.
  assert (Hd1 : 1 ≤ d) by (unfold d; lia).
  assert (Hdb1 : 1 ≤ db) by (unfold db; lia).
  set (sh := Z.max 0 (53 + db - d)).
  replace (Z.min (Z.max (d + 0 - (db + 0) - 53) (-1074)) (0 - 0)) with (- sh) by lia.
  replace (0 - 0 - - sh) with sh by lia.
  assert (Hshift : match sh with
                   | Z.pos _ => Z.shiftl (Z.pos p) sh
                   | 0 => Z.pos p
                   | Z.neg _ => 0
                   end = Z.pos p * 2 ^ sh).
  { assert (Hsh : 0 ≤ sh) by lia. clearbody sh.
    destruct sh as [|s|s]; [lia| |lia].
    rewrite Z.shiftl_mul_pow2 by lia. done. }
  rewrite Hshift.
  pose proof (scale_bounds (Z.pos p) d sh ltac:(lia) ltac:(lia) (conj Hlo Hhi))
    as [Hslo Hshi].
  set (K := d + sh - db - 1).
  assert (HK : 52 ≤ K) by lia.
  replace (d + sh - 1) with (Z.succ (db - 1) + K) in Hslo by lia.
  replace (d + sh) with (Z.succ (Z.succ (db - 1)) + K) in Hshi by lia.
  replace db with (Z.succ (db - 1)) in Hbhi by lia.
  rewrite Z.pow_add_r, !Z.pow_succ_r in * by lia.
  assert (HA : 0 < 2 ^ K) by (apply Z.pow_pos_nonneg; lia).
  assert (HB : 0 < 2 ^ (db - 1)) by (apply Z.pow_pos_nonneg; lia).
  set (a := Z.pos p * 2 ^ sh) in *. clearbody a.
  assert (Hq : Z.div_eucl a (Z.pos pb) = (a / Z.pos pb, a mod Z.pos pb)).
  { unfold Z.div, Z.modulo. by destruct (Z.div_eucl a (Z.pos pb)). }
  rewrite Hq.
  assert (Hqb : 2 ^ K ≤ a / Z.pos pb < 2 ^ (K + 2)).
  { replace (K + 2) with (Z.succ (Z.succ K)) by lia. rewrite !Z.pow_succ_r by lia.
    split.
    - apply Z.div_le_lower_bound; [lia|]. nia.
    - apply Z.div_lt_upper_bound; [lia|]. nia. }
  destruct (a / Z.pos pb) as [|q|q] eqn:Eq; [lia| |lia].
  pose proof (digits2_ge q K ltac:(lia) (proj1 Hqb)) as Hdq1.
  pose proof (digits2_le q (K + 2) (proj2 Hqb)) as Hdq2.
  destruct (binary_round_aux_normal q (- sh)
              (new_location (Z.pos pb) (a mod Z.pos pb)))
    as (m & e & Hround & Hbounded & He); [lia|lia|lia|].
  rewrite Hround. exists m, e. split; [done|].
  split; [by apply Prim2SF_SF2Prim|]. split; [done|]. lia.
Qed.

Lemma format_speed_positive (distance_mi : float) (moving_time_sec : Z) :
  0 < moving_time_sec < 2 ^ 63 →
  ∃ hours,
    int_truediv moving_time_sec 3600 = Ok hours
    ∧ (0 <? hours)%float = true
    ∧ format_speed distance_mi moving_time_sec
      = Ok (fmt_1f (distance_mi / hours) +:+ " mph").
Proof.
  intros Ht.
  destruct (int_truediv_positive moving_time_sec 3600 Ht ltac:(lia))
    as (m & e & Hdiv & Hsf & _).
  exists (SF2Prim (S754_finite false m e)). split; [done|].
  assert (Hlt : (0 <? SF2Prim (S754_finite false m e))%float = true)
    by (by rewrite FloatAxioms.ltb_spec, Hsf, Prim2SF_zero).
  split; [done|].
  unfold format_speed, float_div.
  replace (moving_time_sec =? 0) with false by (symmetry; apply Z.eqb_neq; lia).
  rewrite Hdiv. cbn [mbind result_bind].
  by rewrite (float_pos_not_zero _ Hlt).
Qed.

(** X25. A speed is always printed: for every distance and every moving
    time from one second to [2 ^ 63] seconds [format_speed] returns the
    text of the quotient, the hours being a positive float; with the dash
    for a moving time of zero, no such call raises. *)
Theorem format_speed_always_prints (distance_mi : float) (moving_time_sec : Z) :
  0 ≤ moving_time_sec < 2 ^ 63 →
  (moving_time_sec = 0 → format_speed distance_mi moving_time_sec = Ok dash)
  ∧ (0 < moving_time_sec →
     ∃ hours,
       int_truediv moving_time_sec 3600 = Ok hours
       ∧ (0 <? hours)%float = true
       ∧ format_speed distance_mi moving_time_sec
         = Ok (fmt_1f (distance_mi / hours) +:+ " mph")).
Proof.
  intros Ht. split; [by intros ->|]. intros Hpos.
  apply format_speed_positive. lia.
Qed.

Lemma format_speed_always_prints_witness :
  ∃ hours,
    int_truediv 5400 3600 = Ok hours
    ∧ (0 <? hours)%float = true
    ∧ format_speed 18 5400 = Ok (fmt_1f (18 / hours) +:+ " mph").
Proof.
  refine (proj2 (format_speed_always_prints 18 5400 _) _); lia.
Defined.

(** ** The cells of a row *)

Lemma round_half_even_ge_1 (m k : Z) :
  0 < k → 2 ^ (k - 1) < m → 1 ≤ round_half_even m k.
Proof.
  intros Hk Hm. unfold round_half_even. cbv zeta.
  assert (Hh : 0 < 2 ^ (k - 1)) by (apply Z.pow_pos_nonneg; lia).
  assert (Hp : 2 ^ k = 2 * 2 ^ (k - 1)).
  { replace k with (Z.succ (k - 1)) at 1 by lia. rewrite Z.pow_succ_r by lia. done. }
  pose proof (Z.div_mod m (2 ^ k) ltac:(lia)) as Hdm.
  pose proof (Z.mod_pos_bound m (2 ^ k) ltac:(lia)) as Hmod.
  assert (Hq : 0 ≤ m / 2 ^ k) by (apply Z.div_pos; lia).
  set (q := m / 2 ^ k) in *. set (r := m mod 2 ^ k) in *.
  destruct (Z.ltb_spec r (2 ^ (k - 1))); [nia|].
  destruct (Z.ltb_spec (2 ^ (k - 1)) r); [lia|].
  destruct (Z.even q) eqn:Heven; [|lia].
  destruct (Z.eq_dec q 0) as [Hq0|]; [|lia]. nia.
Qed.

Lemma Prim2SF_threshold :
  Prim2SF 0.05%float = S754_finite false 7205759403792794 (-57).
Proof. reflexivity. Qed.

(** A float above [0.05]: infinite, or finite with at least the exponent
    and more than the mantissa of [0.05]. *)
Lemma above_threshold (x : float) :
  (0.05 <? x)%float = true →
  Prim2SF x = S754_infinity false
  ∨ ∃ m e, Prim2SF x = S754_finite false m e
           ∧ bounded prec emax m e = true
           ∧ (-57 < e ∨ e = -57 ∧ 7205759403792794 < Z.pos m).
Proof.
  rewrite FloatAxioms.ltb_spec, Prim2SF_threshold.
  pose proof (Prim2SF_valid x) as Hvalid.
  destruct (Prim2SF x) as [s|s| |s m e]; cbn [SFltb SFcompare]; try done.
  - destruct s; [done|]. by left.
  - destruct s; [done|].
    destruct (Z.compare_spec (-57) e) as [Heq|Hlt|Hgt]; [| |done].
    + destruct (Pos.compare_cont Eq 7205759403792794 m) eqn:Hc; try done.
      intros _. right. exists m, e. split; [done|]. split; [done|].
      right. split; [done|].
      change (Pos.compare_cont Eq 7205759403792794 m)
        with (Pos.compare 7205759403792794 m) in Hc.
      pose proof (proj1 (Pos.compare_lt_iff _ _) Hc). lia.
    + intros _. right. exists m, e. split; [done|]. split; [done|]. by left.
Qed.

Lemma pretty_digit_length (z : Z) : 0 ≤ z ≤ 9 → String.length (pretty z) = 1%nat.
Proof.
  intros Hz. apply Nat.eqb_eq.
  apply (forallb_range (fun w => Nat.eqb (String.length (pretty w)) 1) 0 10);
    [vm_compute; reflexivity | lia].
Qed.

(** What [{x:.1f}] prints for a float above [0.05]: at least one tenth. *)
Lemma fmt_1f_above_threshold (x : float) :
  (0.05 <? x)%float = true →
  fmt_1f x = "inf"
  ∨ ∃ t, 1 ≤ t ∧ fmt_1f x = pretty (t / 10) +:+ "." +:+ pretty (t mod 10).
Proof.
  intros [Hinf|(m & e & Hx & Hb & He)]%above_threshold; unfold fmt_1f.
  - rewrite Hinf. by left.
  - rewrite Hx. right. cbv zeta.
    apply bounded_spec in Hb as [Hcan _].
    pose proof (digits2_bounds m) as [Hlo Hhi].
    eexists. split; [|reflexivity].
    destruct (Z.leb_spec 0 e) as [Hpos|Hneg].
    + assert (0 < 2 ^ e) by (apply Z.pow_pos_nonneg; lia). nia.
    + apply round_half_even_ge_1; [lia|].
      destruct He as [He|[-> Hm]].
      * assert (Hd : Z.pos (digits2_pos m) = 53) by lia.
        rewrite Hd in Hlo. change (2 ^ (53 - 1)) with 4503599627370496 in Hlo.
        assert (2 ^ (- e - 1) ≤ 2 ^ 55) by (apply Z.pow_le_mono_r; lia).
        lia.
      * change (2 ^ (- -57 - 1)) with 72057594037927936. lia.
Qed.

Lemma tenths_not_zero (t : Z) :
  1 ≤ t → pretty (t / 10) +:+ "." +:+ pretty (t mod 10) +:+ " mi" ≠ "0.0 mi".
Proof.
  intros Ht Heq.
  assert (Hr : 0 ≤ t mod 10 ≤ 9) by (pose proof (Z.mod_pos_bound t 10); lia).
  change "0.0 mi" with ("0" +:+ "." +:+ "0" +:+ " mi") in Heq.
  apply str_app_inj_r in Heq as [Hq Heq];
    [|by rewrite !str_app_length, pretty_digit_length].
  apply (str_app_inj_l "." ".") in Heq as [_ Heq]; [|done].
  apply str_app_inj_r in Heq as [Hd _]; [|done].
  change "0" with (pretty 0) in Hq, Hd.
  apply (inj pretty) in Hq, Hd. Z.div_mod_to_equations. lia.
Qed.

(** X26. The distance cell of a row is the dash unless the distance is
    above 0.05 miles, and then it shows at least one tenth of a mile: the
    text "0.0 mi" is never printed. *)
Theorem distance_cell_never_zero (a : activity) :
  (∀ row, build_activity_row a = Ok row →
     ∃ ps hr,
       row = "| " +:+ strftime_b_d (activity_date a) +:+ " | " +:+ activity_type_short a
             +:+ " | " +:+ act_name a +:+ " | " +:+ dist_str a +:+ " | "
             +:+ format_duration (moving_time a) +:+ " | " +:+ ps +:+ " | " +:+ hr
             +:+ " |")
  ∧ (dist_str a = dash
     ∨ dist_str a = "inf mi"
     ∨ ∃ t, 1 ≤ t ∧ dist_str a = pretty (t / 10) +:+ "." +:+ pretty (t mod 10) +:+ " mi")
  ∧ dist_str a ≠ "0.0 mi".
Proof.
  assert (Hcases : dist_str a = dash
     ∨ dist_str a = "inf mi"
     ∨ ∃ t, 1 ≤ t ∧ dist_str a = pretty (t / 10) +:+ "." +:+ pretty (t mod 10) +:+ " mi").
  { unfold dist_str. cbv zeta.
    destruct (0.05 <? distance a / METERS_PER_MILE)%float eqn:Hd; [|by left].
    right. destruct (fmt_1f_above_threshold _ Hd) as [->|(t & Ht & ->)]; [by left|].
    right. exists t. split; [done|]. by rewrite !str_app_assoc. }
  split; [|split; [done|]].
  - intros row Hrow. unfold build_activity_row in Hrow. cbv zeta in Hrow.
    destruct (pace_or_speed a) as [ps|]; [|done]. cbn [mbind result_bind] in Hrow.
    destruct (match heartrate_shown a with Some _ => _ | None => _ end) as [hr|]; [|done].
    cbn [mbind result_bind] in Hrow. inversion Hrow. by exists ps, hr.
  - destruct Hcases as [->|[->|(t & Ht & ->)]]; [done|done|by apply tenths_not_zero].
Qed.

(** X27. A row that is not the row of a run always renders: when the
    moving time lies between zero and [2 ^ 63] seconds and the heart rate,
    if shown, is a finite number, [build_activity_row] returns a row. *)
Theorem rows_other_than_runs_render (a : activity) :
  is_run a = false →
  0 ≤ moving_time a < 2 ^ 63 →
  (∀ h, heartrate_shown a = Some h → is_finite h = true) →
  ∃ ps hr,
    pace_or_speed a = Ok ps
    ∧ build_activity_row a
      = Ok ("| " +:+ strftime_b_d (activity_date a) +:+ " | " +:+ activity_type_short a
            +:+ " | " +:+ act_name a +:+ " | " +:+ dist_str a +:+ " | "
            +:+ format_duration (moving_time a) +:+ " | " +:+ ps +:+ " | " +:+ hr
            +:+ " |").
Proof.
  intros Hrun Htime Hhr.
  assert (Hps : ∃ ps, pace_or_speed a = Ok ps).
  { unfold pace_or_speed. rewrite Hrun. destruct (is_ride a); [|by eexists].
    destruct (Z.eq_dec (moving_time a) 0) as [Hz|Hnz].
    - unfold format_speed. rewrite Hz. by eexists.
    - destruct (format_speed_positive (distance a / METERS_PER_MILE) (moving_time a))
        as (hours & _ & _ & ->); [lia|by eexists]. }
  destruct Hps as [ps Hps]. exists ps.
  unfold build_activity_row. cbv zeta. rewrite Hps. cbn [mbind result_bind].
  destruct (heartrate_shown a) as [h|] eqn:Hh.
  - pose proof (is_finite_shape h (Hhr h eq_refl)) as Hshape.
    unfold int_of_float.
    destruct (Prim2SF h) as [s|s| |s m e]; try done; eexists; (split; [done|]);
      reflexivity.
  - exists "". split; [done|]. reflexivity.
Qed.

Lemma rows_other_than_runs_render_witness :
  ∃ ps hr,
    pace_or_speed (sample_activity 1 "Ride" 738886 3600 24140.1%float 5400) = Ok ps
    ∧ build_activity_row (sample_activity 1 "Ride" 738886 3600 24140.1%float 5400)
      = Ok ("| " +:+ strftime_b_d
                       (activity_date (sample_activity 1 "Ride" 738886 3600 24140.1%float 5400))
            +:+ " | "
            +:+ activity_type_short (sample_activity 1 "Ride" 738886 3600 24140.1%float 5400)
            +:+ " | " +:+ act_name (sample_activity 1 "Ride" 738886 3600 24140.1%float 5400)
            +:+ " | " +:+ dist_str (sample_activity 1 "Ride" 738886 3600 24140.1%float 5400)
            +:+ " | "
            +:+ format_duration
                  (moving_time (sample_activity 1 "Ride" 738886 3600 24140.1%float 5400))
            +:+ " | " +:+ ps +:+ " | " +:+ hr +:+ " |").
Proof.
  apply (rows_other_than_runs_render
           (sample_activity 1 "Ride" 738886 3600 24140.1%float 5400)).
  - reflexivity.
  - simpl. lia.
  - intros h H. discriminate H.
Defined.

(** ** Ties in the week listing *)

Lemma filter_insert_by_start (p : activity → bool) (a : activity) (l : list activity) :
  (∀ b, p a = true → p b = true →
        stamp_leb (start_date_local a) (start_date_local b) = true) →
  List.filter p (insert_by_start a l) = List.filter p (a :: l).
Proof.
  intros Hsame. induction l as [|b l IH]; [done|].
  cbn [insert_by_start].
  destruct (stamp_leb (start_date_local a) (start_date_local b)) eqn:Hle; [done|].
  cbn [List.filter] in *. rewrite IH.
  destruct (p a) eqn:Hpa; [|done].
  destruct (p b) eqn:Hpb; [|done].
  rewrite (Hsame b eq_refl Hpb) in Hle. done.
Qed.

(** X28. The sort of the week listing is stable: the activities of a week
    that start at one and the same instant are listed in the order in which
    the cache holds them. *)
Theorem week_listing_keeps_cache_order_on_ties (c : cache) (monday_date : date) (s : stamp) :
  List.filter (starts_at s) (activities_for_week c monday_date)
  = List.filter (starts_at s) (List.filter (in_week monday_date) (values c)).
Proof.
  unfold activities_for_week, sort_by_start.
  induction (List.filter (in_week monday_date) (values c)) as [|a l IH]; [done|].
  cbn [fold_right]. rewrite filter_insert_by_start.
  - cbn [List.filter]. by rewrite IH.
  - intros b Ha Hb. unfold starts_at in Ha, Hb.
    apply andb_true_iff in Ha as [Ha1 Ha2], Hb as [Hb1 Hb2].
    apply Z.eqb_eq in Ha1, Ha2, Hb1, Hb2.
    unfold stamp_leb, stamp_ltb. rewrite Ha1, Ha2, Hb1, Hb2.
    rewrite !Z.ltb_irrefl, andb_false_r. done.
Qed.

(** ** Rounding: what the result can be *)

Lemma Zdigits2_le (z b : Z) : 0 ≤ b → 0 ≤ z < 2 ^ b → Zdigits2 z ≤ b.
Proof.
  intros Hb [Hz Hlt]. destruct z as [|p|p]; [done| |lia].
  cbn [Zdigits2]. by apply digits2_le.
Qed.

Lemma Zdigits2_ge (z b : Z) : 0 ≤ b → 2 ^ b ≤ z → b + 1 ≤ Zdigits2 z.
Proof.
  intros Hb Hle.
  assert (0 < 2 ^ b) by (apply Z.pow_pos_nonneg; lia).
  destruct z as [|p|p]; [lia| |lia].
  cbn [Zdigits2]. by apply digits2_ge.
Qed.

Lemma Zdigits2_upper (z : Z) : 0 ≤ z → 0 ≤ Zdigits2 z ∧ z < 2 ^ Zdigits2 z.
Proof.
  intros Hz. destruct z as [|p|p]; [done| |lia].
  cbn [Zdigits2]. pose proof (digits2_bounds p). lia.
Qed.

(** Rounding a non-negative mantissa gives a zero, a positive number whose
    exponent is neither below the one given nor below the one its
    magnitude asks for, or plus infinity; and no infinity when the
    magnitude is within range. *)
Lemma binary_round_aux_shape (M E : Z) (l : location) :
  0 ≤ M →
  match binary_round_aux prec emax false M E l with
  | S754_zero s => s = false
  | S754_infinity s => s = false ∧ ¬ (E ≤ 970 ∧ Zdigits2 M + E ≤ 1023)
  | S754_nan => False
  | S754_finite s m e => s = false ∧ E ≤ e ∧ Zdigits2 M + E - 53 ≤ e
  end.
Proof.
  intros HM.
  destruct (Zdigits2_upper M HM) as [Hd0 HMhi].
  unfold binary_round_aux, shr_fexp. rewrite fexp_eq.
  set (d := Zdigits2 M) in *.
  set (n := Z.max (d + E - 53) (-1074) - E).
  assert (Hm0 : shr_m (shr_record_of_loc M l) = M) by (by destruct l as [|[]]).
  destruct (shr_m_spec (shr_record_of_loc M l) E n ltac:(lia)) as [He1 Hm1].
  destruct (shr (shr_record_of_loc M l) E n) as [mrs1 e1].
  cbn [fst snd] in He1, Hm1. rewrite Hm0 in Hm1. subst e1.
  set (k := Z.max 0 n) in *.
  assert (Hk : 0 ≤ k) by lia.
  assert (Hpow : 0 < 2 ^ k) by (apply Z.pow_pos_nonneg; lia).
  assert (Hm1pos : 0 ≤ shr_m mrs1) by (rewrite Hm1; apply Z.div_pos; lia).
  destruct (round_nearest_even_bounds (shr_m mrs1) (loc_of_shr_record mrs1)) as [Hrb _].
  set (m2 := round_nearest_even (shr_m mrs1) (loc_of_shr_record mrs1)) in *.
  clearbody m2.
  assert (Hd2 : Zdigits2 m2 + (E + k) ≤ Z.max (d + E + 1) (E + k + 1)).
  { destruct (Z.eq_dec (shr_m mrs1) 0) as [Hz|Hnz].
    - assert (Zdigits2 m2 ≤ 1); [|lia].
      apply Zdigits2_le; [lia|]. change (2 ^ 1) with 2. lia.
    - assert (Hkd : k < d).
      { destruct (Z.le_gt_cases d k) as [Hle|]; [|done].
        assert (2 ^ d ≤ 2 ^ k) by (apply Z.pow_le_mono_r; lia).
        rewrite Z.div_small in Hm1 by lia. lia. }
      assert (Hm1hi : shr_m mrs1 < 2 ^ (d - k)).
      { rewrite Hm1. apply Z.div_lt_upper_bound; [lia|].
        rewrite <- Z.pow_add_r by lia. by replace (k + (d - k)) with d by lia. }
      assert (Zdigits2 m2 ≤ d - k + 1); [|lia].
      apply Zdigits2_le; [lia|].
      replace (d - k + 1) with (Z.succ (d - k)) by lia. rewrite Z.pow_succ_r by lia.
      lia. }
  cbn [shr_record_of_loc]. rewrite fexp_eq.
  set (n2 := Z.max (Zdigits2 m2 + (E + k) - 53) (-1074) - (E + k)).
  destruct (shr_m_spec {| shr_m := m2; shr_r := false; shr_s := false |} (E + k) n2
              ltac:(cbn; lia)) as [He2 Hm3].
  destruct (shr {| shr_m := m2; shr_r := false; shr_s := false |} (E + k) n2)
    as [mrs2 e2].
  cbn [fst snd shr_m] in He2, Hm3. subst e2.
  assert (Hm3pos : 0 ≤ shr_m mrs2).
  { rewrite Hm3. apply Z.div_pos; [lia|]. apply Z.pow_pos_nonneg; lia. }
  destruct (shr_m mrs2) as [|m3|m3]; [done| |lia].
  destruct (Z.leb_spec (E + k + Z.max 0 n2) (emax - prec)) as [Hfin|Hinf];
    change (emax - prec) with 971 in *.
  - split; [done|]. lia.
  - split; [done|]. lia.
Qed.

(** ** Dividing floats: a pace is finite *)

Lemma div_eucl_pair (a b : Z) : Z.div_eucl a b = (a / b, a mod b).
Proof. unfold Z.div, Z.modulo. by destruct (Z.div_eucl a b). Qed.

Lemma SFdiv_core_spec (mx my : positive) (ex ey : Z) :
  ∃ sh q l,
    SFdiv_core_binary prec emax (Z.pos mx) ex (Z.pos my) ey = (q, ex - ey - sh, l)
    ∧ 0 ≤ sh
    ∧ ex - ey - sh ≤ Z.max (Z.pos (digits2_pos mx) + ex
                            - (Z.pos (digits2_pos my) + ey) - 53) (-1074)
    ∧ q = Z.pos mx * 2 ^ sh / Z.pos my.
Proof.
  unfold SFdiv_core_binary. cbn [Zdigits2]. rewrite fexp_eq.
  set (e' := Z.min _ (ex - ey)).
  exists (ex - ey - e').
  rewrite div_eucl_pair.
  eexists _, _. split.
  - replace (ex - ey - (ex - ey - e')) with e' by lia. reflexivity.
  - split; [lia|]. split; [lia|].
    assert (Hsh : 0 ≤ ex - ey - e') by lia.
    destruct (ex - ey - e') as [|s|s] eqn:Hs; [|by rewrite Z.shiftl_mul_pow2|lia].
    by rewrite Z.mul_1_r.
Qed.

Lemma bounded_digits (m : positive) (e : Z) :
  bounded prec emax m e = true →
  Z.pos (digits2_pos m) ≤ 53 ∧ -1074 ≤ e ≤ 971
  ∧ (-1074 < e → Z.pos (digits2_pos m) = 53 ∧ 2 ^ 52 ≤ Z.pos m).
Proof.
  intros [Hcan He]%bounded_spec. split; [lia|]. split; [lia|].
  intros Hnormal. assert (Hd : Z.pos (digits2_pos m) = 53) by lia.
  split; [done|]. pose proof (digits2_bounds m) as [Hlo _].
  rewrite Hd in Hlo. by change (2 ^ (53 - 1)) with (2 ^ 52) in Hlo.
Qed.

(** A quotient of a float below [2 ^ 65] by a float of exponent [-952] or
    more is finite. *)
Lemma SFdiv_finite (mx my : positive) (ex ey : Z) :
  bounded prec emax mx ex = true → ex ≤ 12 → -952 ≤ ey →
  match SFdiv prec emax (S754_finite false mx ex) (S754_finite false my ey) with
  | S754_zero s | S754_finite s _ _ => s = false
  | _ => False
  end.
Proof.
  intros Hbx Hex Hey. cbn [SFdiv xorb].
  destruct (bounded_digits mx ex Hbx) as (Hdx & _ & _).
  destruct (SFdiv_core_spec mx my ex ey) as (sh & q & l & -> & Hsh & He' & ->).
  assert (Hpow : 0 < 2 ^ sh) by (apply Z.pow_pos_nonneg; lia).
  assert (Hq : 0 ≤ Z.pos mx * 2 ^ sh / Z.pos my) by (apply Z.div_pos; lia).
  pose proof (binary_round_aux_shape (Z.pos mx * 2 ^ sh / Z.pos my) (ex - ey - sh) l Hq)
    as Hshape.
  destruct (binary_round_aux _ _ _ _ _ _) as [s|s| |s m e]; [done| |done|tauto].
  destruct Hshape as [_ Hinf]. apply Hinf. split; [lia|].
  assert (Zdigits2 (Z.pos mx * 2 ^ sh / Z.pos my) ≤ Z.pos (digits2_pos mx) + sh); [|lia].
  apply Zdigits2_le; [lia|]. split; [done|].
  pose proof (digits2_bounds mx) as [_ Hhi].
  apply Z.le_lt_trans with (Z.pos mx * 2 ^ sh).
  - apply Z.div_le_upper_bound; [lia|]. nia.
  - rewrite Z.pow_add_r by lia. nia.
Qed.

Lemma sane_positive_shape (d : float) :
  (0 <? d)%float = true → sf_sane (Prim2SF d) →
  Prim2SF d = S754_infinity false
  ∨ ∃ m e, Prim2SF d = S754_finite false m e ∧ -952 ≤ e.
Proof.
  intros Hpos Hsane.
  destruct (float_pos_shape d Hpos) as [(m & e & Hd)|Hd]; [|by left].
  right. exists m, e. rewrite Hd in Hsane. cbn in Hsane. tauto.
Qed.

(** The pace of a run of sane length: a finite float that is not negative. *)
Lemma pace_minutes_finite (t : Z) (d : float) :
  0 ≤ t < 2 ^ 63 → (0 <? d)%float = true → sf_sane (Prim2SF d) →
  ∃ p, pace_minutes t d = Ok p
       ∧ match Prim2SF p with
         | S754_zero s | S754_finite s _ _ => s = false
         | _ => False
         end.
Proof.
  intros Ht Hpos Hsane. unfold pace_minutes.
  destruct (Z.eq_dec t 0) as [->|Hnz].
  - change (int_truediv 0 60) with (Ok PrimFloat.zero). cbn [mbind result_bind].
    eexists. split; [done|]. rewrite div_spec, Prim2SF_pzero.
    destruct (sane_positive_shape d Hpos Hsane) as [->|(m & e & -> & _)]; done.
  - destruct (int_truediv_positive t 60 ltac:(lia) ltac:(lia))
      as (m & e & -> & Hsf & Hb & He).
    cbn [mbind result_bind]. eexists. split; [done|].
    rewrite div_spec, Hsf.
    destruct (sane_positive_shape d Hpos Hsane) as [->|(md & ed & -> & Hed)]; [done|].
    by apply SFdiv_finite.
Qed.

(** With a finite pace [format_pace] prints minutes and seconds. *)
Lemma format_pace_of_finite (t : Z) (d p : float) :
  (0 <? d)%float = true → pace_minutes t d = Ok p →
  match Prim2SF p with
  | S754_zero s | S754_finite s _ _ => s = false
  | _ => False
  end →
  ∃ whole secs,
    0 ≤ whole ∧ 0 ≤ secs ≤ 60
    ∧ format_pace t d = Ok (pace_text (carry_minute whole secs)).
Proof.
  intros Hd Hp Hshape.
  assert (Hparts : ∃ whole whole_f secs,
             int_of_float p = Ok whole ∧ 0 ≤ whole
             ∧ float_of_int whole = Ok whole_f
             ∧ round_float ((p - whole_f) * 60)%float = Ok secs
             ∧ 0 ≤ secs ≤ 60).
  { unfold int_of_float.
    destruct (Prim2SF p) as [s|s| |s m e] eqn:HSF; [|done|done|]; subst s.
    - exists 0, PrimFloat.zero.
      destruct (seconds_of_fraction (p - PrimFloat.zero)%float) as (secs & Hs & Hr).
      { left. by rewrite sub_spec, HSF, Prim2SF_pzero. }
      exists secs. done.
    - destruct (pace_fraction p m e HSF) as (Hw & wf & Hwf & Hfrac).
      destruct (seconds_of_fraction (p - wf)%float Hfrac) as (secs & Hs & Hr).
      exists (Z.shiftl (Z.pos m) e), wf, secs. done. }
  destruct Hparts as (whole & whole_f & secs & Hwhole & Hw0 & Hwf & Hsecs & Hrange).
  exists whole, secs. split; [done|]. split; [done|].
  unfold format_pace. rewrite (float_pos_not_zero d Hd), Hp. cbn [mbind result_bind].
  rewrite Hwhole. cbn [mbind result_bind]. rewrite Hwf. cbn [mbind result_bind].
  rewrite Hsecs. reflexivity.
Qed.

Lemma format_pace_sane (t : Z) (d : float) :
  0 ≤ t < 2 ^ 63 → sf_sane (Prim2SF d) →
  ∃ text, format_pace t d = Ok text.
Proof.
  intros Ht Hsane.
  destruct (d =? 0)%float eqn:Hz.
  - unfold format_pace. rewrite Hz. by eexists.
  - assert (Hpos : (0 <? d)%float = true).
    { rewrite FloatAxioms.ltb_spec, Prim2SF_zero.
      rewrite FloatAxioms.eqb_spec, Prim2SF_zero in Hz.
      destruct (Prim2SF d) as [s|s| |s m e]; cbn [sf_sane] in Hsane.
      - by destruct s.
      - by subst s.
      - done.
      - by destruct Hsane as [-> _]. }
    destruct (pace_minutes_finite t d Ht Hpos Hsane) as (p & Hp & Hshape).
    destruct (format_pace_of_finite t d p Hpos Hp Hshape) as (whole & secs & _ & _ & ->).
    by eexists.
Qed.

(** ** Miles and their sums *)

Lemma Prim2SF_meters_per_mile :
  Prim2SF METERS_PER_MILE = S754_finite false 7077952172180111 (-42).
Proof. reflexivity. Qed.

Lemma Prim2SF_one : Prim2SF 1%float = S754_finite false 4503599627370496 (-52).
Proof. reflexivity. Qed.

(** A distance of zero or of one metre and more, in miles. *)
Lemma miles_sane (x : float) :
  ((x =? 0) || (1 <=? x))%float = true → sf_sane (Prim2SF (x / METERS_PER_MILE)).
Proof.
  intros Hx. rewrite div_spec, Prim2SF_meters_per_mile.
  apply orb_true_iff in Hx as [Hz|Hone].
  - apply float_zero_shape in Hz as [s ->]. done.
  - rewrite FloatAxioms.leb_spec, Prim2SF_one in Hone.
    pose proof (Prim2SF_valid x) as Hvalid.
    destruct (Prim2SF x) as [s|s| |s mx ex]; cbn [SFleb SFcompare] in Hone; try done.
    + by destruct s.
    + destruct s; [done|]. cbn [valid_binary] in Hvalid.
      assert (Hex : -52 ≤ ex).
      { destruct (Z.compare_spec (-52) ex); [lia|lia|done]. }
      destruct (bounded_digits mx ex Hvalid) as (_ & _ & Hnormal).
      destruct (Hnormal ltac:(lia)) as [Hdx Hmx].
      unfold SF64div. cbn [SFdiv xorb].
      destruct (SFdiv_core_spec mx 7077952172180111 ex (-42))
        as (sh & q & l & -> & Hsh & He' & ->).
      assert (Hpow : 0 < 2 ^ sh) by (apply Z.pow_pos_nonneg; lia).
      assert (Hq : 0 ≤ Z.pos mx * 2 ^ sh / 7077952172180111) by (apply Z.div_pos; lia).
      pose proof (binary_round_aux_shape _ (ex - -42 - sh) l Hq) as Hshape.
      destruct (binary_round_aux _ _ _ _ _ _) as [s|s| |s m e]; cbn [sf_sane];
        [done|tauto|done|].
      destruct Hshape as (-> & _ & He). split; [done|].
      assert (sh ≤ Zdigits2 (Z.pos mx * 2 ^ sh / 7077952172180111)); [|lia].
      destruct (Z.eq_dec sh 0) as [->|Hnz].
      { rewrite Z.mul_1_r. destruct (Zdigits2_upper _ Hq). rewrite Z.mul_1_r in *. lia. }
      replace sh with (sh - 1 + 1) at 1 by lia.
      apply Zdigits2_ge; [lia|].
      apply Z.div_le_lower_bound; [lia|].
      replace sh with (Z.succ (sh - 1)) at 2 by lia. rewrite Z.pow_succ_r by lia.
      assert (0 < 2 ^ (sh - 1)) by (apply Z.pow_pos_nonneg; lia).
      change (2 ^ 52) with 4503599627370496 in Hmx. nia.
Qed.

Lemma SFadd_sane (x y : spec_float) :
  valid_binary x = true → valid_binary y = true →
  sf_sane x → sf_sane y → sf_sane (SFadd prec emax x y).
Proof.
  intros Hvx Hvy Hx Hy.
  destruct x as [sx|sx| |sx mx ex], y as [sy|sy| |sy my ey];
    cbn [sf_sane] in Hx, Hy; try done; cbn [SFadd].
  - destruct sx, sy; exact I.
  - subst. done.
  - destruct Hx as [-> Hex], Hy as [-> Hey]. cbn [valid_binary] in Hvx, Hvy.
    destruct (bounded_digits mx ex Hvx) as (_ & _ & Hnx).
    destruct (Hnx ltac:(lia)) as [_ Hmx].
    cbn [cond_Zopp].
    set (ez := Z.min ex ey).
    destruct (shl_align_spec mx ex ez) as (ax & -> & Hax).
    destruct (shl_align_spec my ey ez) as (ay & -> & Hay).
    cbn [fst]. change (Z.pos ax + Z.pos ay) with (Z.pos (ax + ay)).
    cbn [binary_normalize]. unfold binary_round.
    destruct (shl_align_spec (ax + ay) ez
                (fexp prec emax (Z.pos (digits2_pos (ax + ay)) + ez)))
      as (mz & -> & Hmz).
    set (ez' := Z.min ez _) in *.
    pose proof (binary_round_aux_shape (Z.pos mz) ez' loc_Exact ltac:(lia)) as Hshape.
    destruct (binary_round_aux _ _ _ _ _ _) as [s|s| |s m e]; cbn [sf_sane];
      [done|tauto|done|].
    destruct Hshape as (-> & _ & He). split; [done|].
    assert (53 + (ez - ez') ≤ Zdigits2 (Z.pos mz)); [|lia].
    replace (53 + (ez - ez')) with (52 + (ez - ez') + 1) by lia.
    apply Zdigits2_ge; [lia|].
    rewrite Hmz, Z.pow_add_r by lia.
    assert (0 < 2 ^ (ez - ez')) by (apply Z.pow_pos_nonneg; lia).
    assert (0 < 2 ^ (ex - Z.min ex ez)) by (apply Z.pow_pos_nonneg; lia).
    assert (2 ^ 52 ≤ Z.pos (ax + ay)) by (rewrite Pos2Z.inj_add; nia).
    nia.
Qed.

Lemma sum_miles_sane (l : list activity) :
  (∀ a, In a l → sf_sane (Prim2SF (distance a / METERS_PER_MILE))) →
  sf_sane (Prim2SF (sum_miles l)).
Proof.
  unfold sum_miles.
  assert (Hgen : ∀ acc, sf_sane (Prim2SF acc) →
            (∀ a, In a l → sf_sane (Prim2SF (distance a / METERS_PER_MILE))) →
            sf_sane (Prim2SF
              (fold_left (fun acc a => (acc + distance a / METERS_PER_MILE)%float) l acc))).
  { induction l as [|a l IH]; intros acc Hacc Hall; [done|].
    cbn [fold_left]. apply IH.
    - rewrite add_spec. apply SFadd_sane; try apply Prim2SF_valid; [done|].
      apply Hall. by left.
    - intros b Hb. apply Hall. by right. }
  intros Hall. apply Hgen; [|done]. by rewrite Prim2SF_pzero.
Qed.

(** ** Sane records never make a report fail *)

Lemma sane_fields (a : activity) :
  sane a = true →
  0 ≤ moving_time a < 2 ^ 32
  ∧ sf_sane (Prim2SF (distance a / METERS_PER_MILE))
  ∧ ∀ h, heartrate_shown a = Some h → is_finite h = true.
Proof.
  unfold sane. rewrite !andb_true_iff, Z.leb_le, Z.ltb_lt.
  intros [[[H0 H1] Hd] Hh]. split; [done|]. split; [by apply miles_sane|].
  intros h Hshown. unfold heartrate_shown in Hshown.
  destruct (has_heartrate a); [|done].
  destruct (average_heartrate a) as [h'|]; [|done].
  destruct (h' =? 0)%float; [done|]. by inversion Hshown; subst.
Qed.

Lemma sane_row (a : activity) :
  sane a = true → ∃ row, build_activity_row a = Ok row.
Proof.
  intros (Ht & Hd & Hh)%sane_fields.
  assert (Hps : ∃ ps, pace_or_speed a = Ok ps).
  { unfold pace_or_speed. destruct (is_run a).
    - apply format_pace_sane; [lia|done].
    - destruct (is_ride a); [|by eexists].
      destruct (Z.eq_dec (moving_time a) 0) as [Hz|Hnz].
      + unfold format_speed. rewrite Hz. by eexists.
      + destruct (format_speed_positive (distance a / METERS_PER_MILE) (moving_time a))
          as (hours & _ & _ & ->); [lia|by eexists]. }
  destruct Hps as [ps Hps].
  unfold build_activity_row. cbv zeta. rewrite Hps. cbn [mbind result_bind].
  destruct (heartrate_shown a) as [h|] eqn:Hshown; [|by eexists].
  pose proof (is_finite_shape h (Hh h eq_refl)) as Hshape.
  unfold int_of_float.
  destruct (Prim2SF h) as [s|s| |s m e]; try done; by eexists.
Qed.

Lemma sane_rows (placeholder : string) (l : list activity) :
  (∀ a, In a l → sane a = true) → ∃ rows, table_rows placeholder l = Ok rows.
Proof.
  intros Hall. unfold table_rows.
  assert (Hmap : ∃ rows, rmap_list build_activity_row l = Ok rows).
  { induction l as [|a l IH]; [by eexists|].
    destruct (sane_row a (Hall a (or_introl eq_refl))) as [row Hrow].
    destruct IH as [rows Hrows]; [intros b Hb; apply Hall; by right|].
    cbn [rmap_list]. rewrite Hrow. cbn [mbind result_bind]. rewrite Hrows. by eexists. }
  destruct l; [by eexists|done].
Qed.

Lemma sum_time_bound (l : list activity) :
  (∀ a, In a l → sane a = true) → 0 ≤ sum_time l ≤ 2 ^ 32 * Z.of_nat (length l).
Proof.
  induction l as [|a l IH]; intros Hall; [done|].
  rewrite sum_time_cons. cbn [length]. rewrite Nat2Z.inj_succ.
  destruct (sane_fields a (Hall a (or_introl eq_refl))) as (Ht & _).
  assert (0 ≤ sum_time l ≤ 2 ^ 32 * Z.of_nat (length l))
    by (apply IH; intros b Hb; apply Hall; by right).
  lia.
Qed.

Lemma sane_totals (l : list activity) (monday_date today : date) :
  (∀ a, In a l → sane a = true) → Z.of_nat (length l) < 2 ^ 31 →
  ∃ totals, build_week_totals l monday_date today = Ok totals.
Proof.
  intros Hall Hlen.
  assert (Hpace : ∃ pace, run_pace l = Ok pace).
  { unfold run_pace. destruct (0 <? sum_miles (runs_of l))%float; [|by eexists].
    assert (Hruns : ∀ a, In a (runs_of l) → sane a = true)
      by (intros a [Ha _]%filter_In; by apply Hall).
    apply format_pace_sane.
    - pose proof (sum_time_bound (runs_of l) Hruns) as Hb.
      assert (length (runs_of l) ≤ length l)%nat by apply List.filter_length_le.
      change (2 ^ 32) with 4294967296 in Hb. change (2 ^ 31) with 2147483648 in Hlen.
      change (2 ^ 63) with 9223372036854775808. lia.
    - apply sum_miles_sane. intros a Ha. by apply (sane_fields a (Hruns a Ha)). }
  destruct Hpace as [pace Hpace].
  unfold build_week_totals. cbv zeta. rewrite Hpace. by eexists.
Qed.

Lemma activities_for_week_sub (c : cache) (monday_date : date) :
  (∀ a, In a (activities_for_week c monday_date) → In a (values c))
  ∧ (length (activities_for_week c monday_date) ≤ length c)%nat.
Proof.
  unfold activities_for_week. split.
  - intros a Ha. apply (Permutation_in _ (sort_by_start_perm _)) in Ha.
    by apply filter_In in Ha as [Ha _].
  - rewrite (Permutation_length (sort_by_start_perm _)).
    etrans; [apply List.filter_length_le|]. unfold values. by rewrite length_map.
Qed.

Lemma sane_reports (c : cache) (now : stamp) (monday_date today : date) :
  (∀ a, In a (values c) → sane a = true) → Z.of_nat (length c) < 2 ^ 31 →
  (∃ text, weekly_summary_text c monday_date today = Ok text)
  ∧ (∃ text, write_current_week c now today = Ok text).
Proof.
  intros Hall Hlen.
  assert (Hweek : ∀ m,
    (∃ totals, build_week_totals (activities_for_week c m) m today = Ok totals)
    ∧ ∀ placeholder,
        ∃ rows, table_rows placeholder (activities_for_week c m) = Ok rows).
  { intros m. destruct (activities_for_week_sub c m) as [Hsub Hle].
    split.
    - apply sane_totals; [intros a Ha; by apply Hall, Hsub|lia].
    - intros placeholder. apply sane_rows. intros a Ha. by apply Hall, Hsub. }
  split.
  - destruct (Hweek monday_date) as [[totals Ht] Hrows].
    destruct (Hrows no_activities_row) as [rows Hr].
    unfold weekly_summary_text. cbv zeta. rewrite Ht. cbn [mbind result_bind].
    rewrite Hr. by eexists.
  - destruct (Hweek (week_monday (st_date now))) as [[totals Ht] Hrows].
    destruct (Hrows no_activities_yet_row) as [rows Hr].
    unfold write_current_week. cbv zeta. rewrite Ht. cbn [mbind result_bind].
    rewrite Hr. by eexists.
Qed.

Lemma merge_length (batch : list activity) :
  ∀ (c : cache) (n : Z),
    (length (fst (merge c batch n)) ≤ length c + length batch)%nat.
Proof.
  induction batch as [|a batch IH]; intros c n; [cbn; lia|].
  cbn [merge length]. destruct (dict_mem (activity_key a) c) eqn:Hm.
  - specialize (IH c n). lia.
  - specialize (IH (dict_set c (activity_key a) a) (n + 1)).
    rewrite dict_set_absent in * by (by apply dict_mem_false).
    rewrite length_app in IH. cbn [length] in IH. lia.
Qed.

(** X29. Every row of a sane record renders: with a moving time from zero
    to below [2 ^ 32] seconds, a distance of zero or at least one metre and
    a finite heart rate, [build_activity_row] returns a row, be the record
    a run, a ride or anything else. *)
Theorem sane_rows_always_render (a : activity) :
  sane a = true →
  ∃ ps hr,
    pace_or_speed a = Ok ps
    ∧ build_activity_row a
      = Ok ("| " +:+ strftime_b_d (activity_date a) +:+ " | " +:+ activity_type_short a
            +:+ " | " +:+ act_name a +:+ " | " +:+ dist_str a +:+ " | "
            +:+ format_duration (moving_time a) +:+ " | " +:+ ps +:+ " | " +:+ hr
            +:+ " |").
Proof.
  intros Hsane. destruct (sane_row a Hsane) as [row Hrow].
  unfold build_activity_row in *. cbv zeta in *.
  destruct (pace_or_speed a) as [ps|]; [|done]. cbn [mbind result_bind] in *.
  destruct (match heartrate_shown a with Some _ => _ | None => _ end) as [hr|]; [|done].
  by exists ps, hr.
Qed.

Lemma sane_rows_always_render_witness :
  ∃ ps hr,
    pace_or_speed (sample_activity 1 "Run" 738886 3600 9977.908%float 3720) = Ok ps
    ∧ build_activity_row (sample_activity 1 "Run" 738886 3600 9977.908%float 3720)
      = Ok ("| " +:+ strftime_b_d
                       (activity_date (sample_activity 1 "Run" 738886 3600 9977.908%float 3720))
            +:+ " | "
            +:+ activity_type_short (sample_activity 1 "Run" 738886 3600 9977.908%float 3720)
            +:+ " | " +:+ act_name (sample_activity 1 "Run" 738886 3600 9977.908%float 3720)
            +:+ " | " +:+ dist_str (sample_activity 1 "Run" 738886 3600 9977.908%float 3720)
            +:+ " | "
            +:+ format_duration
                  (moving_time (sample_activity 1 "Run" 738886 3600 9977.908%float 3720))
            +:+ " | " +:+ ps +:+ " | " +:+ hr +:+ " |").
Proof.
  apply (sane_rows_always_render
           (sample_activity 1 "Run" 738886 3600 9977.908%float 3720)).
  reflexivity.
Defined.

Lemma sane_main_on_cache (env : run_env) (w : world) (c0 : cache)
    (batch : list activity) :
  fetch_activities_after env (fetch_window env c0) = Ok batch →
  (∀ a, In a (values c0) ∨ In a batch → sane a = true) →
  Z.of_nat (length c0 + length batch) < 2 ^ 31 →
  ∃ status text,
    snd (main_on_cache env w c0) = Ok status
    ∧ cache_file (fst (main_on_cache env w c0)) = save_cache (fst (merge c0 batch 0))
    ∧ is_Some (weekly_files (fst (main_on_cache env w c0))
               !! last_week_file (at_rollover env))
    ∧ current_week (fst (main_on_cache env w c0)) = Some text.
Proof.
  intros Hfetch Hsane Hlen.
  unfold main_on_cache. rewrite Hfetch.
  pose proof (merge_length batch c0 0) as Hmlen.
  assert (Hmsane : ∀ a, In a (values (fst (merge c0 batch 0))) → sane a = true).
  { intros a Ha. apply Hsane.
    destruct (merge_values_in _ _ _ _ Ha) as [Hc|Hb]; [by left|by right]. }
  destruct (merge c0 batch 0) as [c1 added]. cbn [fst] in *.
  assert (Hlen1 : Z.of_nat (length c1) < 2 ^ 31) by lia.
  destruct (sane_reports c1 (at_current env) (last_monday (at_rollover env))
              (at_rollover_totals env) Hmsane Hlen1) as [[wtext Hw] _].
  destruct (sane_reports c1 (at_current env) (last_monday (at_rollover env))
              (at_current_totals env) Hmsane Hlen1) as [_ [ctext Hc]].
  destruct (weekly_files w !! last_week_file (at_rollover env)) as [old|] eqn:Hfile.
  - rewrite rollover_existing by (by rewrite Hfile). rewrite Hc.
    eexists _, _. cbn [fst snd cache_file weekly_files current_week].
    split; [done|]. split; [done|]. split; [by rewrite Hfile|done].
  - rewrite rollover_missing by done. rewrite Hw, Hc.
    eexists _, _. cbn [fst snd cache_file weekly_files current_week].
    split; [done|]. split; [done|]. split; [|done].
    rewrite lookup_insert_eq. by eexists.
Qed.

(** X30. On sane data a run never fails after the fetch: with the
    credentials present, a cache file that holds a mapping, a fetch that
    succeeds, and fewer than [2 ^ 31] records in cache and batch together,
    all of them sane, [main] completes; it saves the merged cache, leaves a
    report of the previous week in place and writes the live report. *)
Theorem sane_data_never_fails (env : run_env) (w : world) (c : cache)
    (batch : list activity) :
  has_credentials env = true →
  load_cache (cache_file w) = Ok (LDict c) →
  fetch_activities_after env (fetch_window env (if force env then [] else c)) = Ok batch →
  (∀ a, In a (values c) ∨ In a batch → sane a = true) →
  Z.of_nat (length c + length batch) < 2 ^ 31 →
  ∃ status text,
    snd (main env w) = Ok status
    ∧ cache_file (fst (main env w))
      = save_cache (fst (merge (if force env then [] else c) batch 0))
    ∧ is_Some (weekly_files (fst (main env w)) !! last_week_file (at_rollover env))
    ∧ current_week (fst (main env w)) = Some text.
Proof.
  intros Hcred Hload Hfetch Hsane Hlen.
  unfold main. rewrite Hcred, Hload. cbn [negb].
  destruct (force env).
  - apply sane_main_on_cache; [done| |cbn [length]; lia].
    intros a [[]|Ha]. apply Hsane. by right.
  - by apply sane_main_on_cache.
Qed.

Lemma sane_data_never_fails_witness :
  ∃ status text,
    snd (main (sample_env {| st_date := 738890; st_secs := 34200 |}
                 [sample_activity 8 "Run" 738888 3600 9977.908%float 3720])
           {| cache_file :=
                save_cache [("7", sample_activity 7 "Ride" 738886 3600 24140.1%float 5400)];
              weekly_files := ∅; current_week := None |}) = Ok status
    ∧ cache_file
        (fst (main (sample_env {| st_date := 738890; st_secs := 34200 |}
                      [sample_activity 8 "Run" 738888 3600 9977.908%float 3720])
                {| cache_file :=
                     save_cache
                       [("7", sample_activity 7 "Ride" 738886 3600 24140.1%float 5400)];
                   weekly_files := ∅; current_week := None |}))
      = save_cache
          (fst (merge
                  (if force (sample_env {| st_date := 738890; st_secs := 34200 |}
                               [sample_activity 8 "Run" 738888 3600 9977.908%float 3720])
                   then []
                   else [("7", sample_activity 7 "Ride" 738886 3600 24140.1%float 5400)])
                  [sample_activity 8 "Run" 738888 3600 9977.908%float 3720] 0))
    ∧ is_Some
        (weekly_files
           (fst (main (sample_env {| st_date := 738890; st_secs := 34200 |}
                         [sample_activity 8 "Run" 738888 3600 9977.908%float 3720])
                   {| cache_file :=
                        save_cache
                          [("7", sample_activity 7 "Ride" 738886 3600 24140.1%float 5400)];
                      weekly_files := ∅; current_week := None |}))
         !! last_week_file
              (at_rollover
                 (sample_env {| st_date := 738890; st_secs := 34200 |}
                    [sample_activity 8 "Run" 738888 3600 9977.908%float 3720])))
    ∧ current_week
        (fst (main (sample_env {| st_date := 738890; st_secs := 34200 |}
                      [sample_activity 8 "Run" 738888 3600 9977.908%float 3720])
                {| cache_file :=
                     save_cache
                       [("7", sample_activity 7 "Ride" 738886 3600 24140.1%float 5400)];
                   weekly_files := ∅; current_week := None |}))
      = Some text.
Proof.
  apply (sane_data_never_fails
           (sample_env {| st_date := 738890; st_secs := 34200 |}
              [sample_activity 8 "Run" 738888 3600 9977.908%float 3720])
           {| cache_file :=
                save_cache [("7", sample_activity 7 "Ride" 738886 3600 24140.1%float 5400)];
              weekly_files := ∅; current_week := None |}
           [("7", sample_activity 7 "Ride" 738886 3600 24140.1%float 5400)]
           [sample_activity 8 "Run" 738888 3600 9977.908%float 3720]).
  - reflexivity.
  - reflexivity.
  - reflexivity.
  - intros a [[<-|[]]|[<-|[]]]; reflexivity.
  - vm_compute. reflexivity.
Defined.

(** ** The aggregate run pace of a week *)

(** [round_half_even m k] is an integer nearest to [m / 2 ^ k]. *)
Lemma round_half_even_nearest (m k : Z) :
  0 < k → 0 ≤ m → Z.abs (2 * (round_half_even m k * 2 ^ k - m)) ≤ 2 ^ k.
Proof.
  intros Hk Hm. unfold round_half_even. cbv zeta.
  assert (Hp : 0 < 2 ^ (k - 1)) by (apply Z.pow_pos_nonneg; lia).
  assert (H2 : 2 ^ k = 2 * 2 ^ (k - 1)).
  { replace k with (Z.succ (k - 1)) at 1 by lia. rewrite Z.pow_succ_r by lia. done. }
  pose proof (Z.div_mod m (2 ^ k) ltac:(lia)) as Hdm.
  pose proof (Z.mod_pos_bound m (2 ^ k) ltac:(lia)) as Hr.
  set (q := m / 2 ^ k) in *. set (r := m mod 2 ^ k) in *.
  destruct (Z.ltb_spec r (2 ^ (k - 1))); [nia|].
  destruct (Z.ltb_spec (2 ^ (k - 1)) r); [nia|].
  destruct (Z.even q); nia.
Qed.

(** [int(x)] of a positive number is its integer part. *)
Lemma int_of_float_floor (x : float) (m : positive) (e whole : Z) :
  Prim2SF x = S754_finite false m e → int_of_float x = Ok whole →
  (0 ≤ e → whole = Z.pos m * 2 ^ e)
  ∧ (e < 0 → whole * 2 ^ (- e) ≤ Z.pos m < (whole + 1) * 2 ^ (- e)).
Proof.
  intros Hx. unfold int_of_float. rewrite Hx. cbn [cond_Zopp]. intros [= <-]. split.
  - intros He. by rewrite Z.shiftl_mul_pow2.
  - intros He. rewrite Z.shiftl_div_pow2 by lia.
    assert (0 < 2 ^ (- e)) by (apply Z.pow_pos_nonneg; lia).
    pose proof (Z.div_mod (Z.pos m) (2 ^ (- e)) ltac:(lia)).
    pose proof (Z.mod_pos_bound (Z.pos m) (2 ^ (- e)) ltac:(lia)). nia.
Qed.

(** [round(x)] of a positive number is an integer nearest to it. *)
Lemma round_float_nearest (x : float) (m : positive) (e secs : Z) :
  Prim2SF x = S754_finite false m e → round_float x = Ok secs →
  (0 ≤ e → secs = Z.pos m * 2 ^ e)
  ∧ (e < 0 → Z.abs (2 * (secs * 2 ^ (- e) - Z.pos m)) ≤ 2 ^ (- e)).
Proof.
  intros Hx. unfold round_float. rewrite Hx. cbn [cond_Zopp].
  destruct (Z.leb_spec 0 e) as [He|He]; intros [= <-]; (split; [done || lia|]); intros He'.
  - lia.
  - apply round_half_even_nearest; lia.
Qed.

(** The whole minutes of a pace, as a float, are that integer. *)
Lemma whole_minutes_exact (p : float) (whole : Z) (whole_f : float) :
  match Prim2SF p with
  | S754_zero s | S754_finite s _ _ => s = false
  | _ => False
  end →
  int_of_float p = Ok whole → float_of_int whole = Ok whole_f →
  int_of_float whole_f = Ok whole.
Proof.
  intros Hshape Hw Hf.
  destruct (Prim2SF p) as [s|s| |s m e] eqn:HSF; [|done|done|]; subst s.
  - unfold int_of_float in Hw. rewrite HSF in Hw. injection Hw as <-.
    vm_compute in Hf. injection Hf as <-. reflexivity.
  - pose proof (Prim2SF_valid p) as Hb. rewrite HSF in Hb. cbn [valid_binary] in Hb.
    pose proof Hb as [Hcan Hemax]%bounded_spec.
    pose proof (digits2_bounds m) as Hdm.
    destruct (int_of_float_floor p m e whole HSF Hw) as [Hint Hfloor].
    destruct (Z.le_gt_cases 0 e) as [He|He].
    + rewrite (Hint He) in Hf. unfold float_of_int in Hf.
      rewrite binary_normalize_integral in Hf by done.
      rewrite <- HSF, SF2Prim_Prim2SF in Hf. injection Hf as <-. done.
    + specialize (Hfloor He).
      assert (Hpk : 0 < 2 ^ (- e)) by (apply Z.pow_pos_nonneg; lia).
      assert (Hm53 : Z.pos m < 2 ^ 53).
      { eapply Z.lt_le_trans; [apply Hdm|]. apply Z.pow_le_mono_r; lia. }
      assert (Hw0 : 0 ≤ whole) by nia.
      destruct (Z.eq_dec whole 0) as [->|Hnz].
      * vm_compute in Hf. injection Hf as <-. reflexivity.
      * assert (Hwhole : 0 < whole < 2 ^ 53) by nia.
        destruct (binary_normalize_small whole Hwhole)
          as (mw & ew & Hnorm & Hbw & Hew & Hmw).
        assert (Hwf : float_of_int whole = Ok (SF2Prim (S754_finite false mw ew)))
          by (unfold float_of_int; by rewrite Hnorm).
        assert (whole_f = SF2Prim (S754_finite false mw ew)) as -> by congruence.
        unfold int_of_float. rewrite Prim2SF_SF2Prim by exact Hbw. cbn [cond_Zopp].
        rewrite Z.shiftl_div_pow2 by lia. rewrite Hmw.
        assert (0 < 2 ^ (- ew)) by (apply Z.pow_pos_nonneg; lia).
        by rewrite Z.div_mul by lia.
Qed.

(** The minutes and seconds of a finite pace that is not negative. *)
Lemma pace_parts (p : float) :
  match Prim2SF p with
  | S754_zero s | S754_finite s _ _ => s = false
  | _ => False
  end →
  ∃ whole whole_f secs,
    int_of_float p = Ok whole ∧ 0 ≤ whole
    ∧ float_of_int whole = Ok whole_f
    ∧ round_float ((p - whole_f) * 60)%float = Ok secs
    ∧ 0 ≤ secs ≤ 60.
Proof.
  intros Hshape. unfold int_of_float.
  destruct (Prim2SF p) as [s|s| |s m e] eqn:HSF; [|done|done|]; subst s.
  - exists 0, PrimFloat.zero.
    destruct (seconds_of_fraction (p - PrimFloat.zero)%float) as (secs & Hs & Hr).
    { left. by rewrite sub_spec, HSF, Prim2SF_pzero. }
    exists secs. done.
  - destruct (pace_fraction p m e HSF) as (Hw & wf & Hwf & Hfrac).
    destruct (seconds_of_fraction (p - wf)%float Hfrac) as (secs & Hs & Hr).
    exists (Z.shiftl (Z.pos m) e), wf, secs. done.
Qed.

Lemma sum_time_fold_right (l : list activity) :
  sum_time l = fold_right Z.add 0 (map moving_time l).
Proof.
  induction l as [|a l IH]; [done|]. rewrite sum_time_cons, IH. reflexivity.
Qed.

Lemma sum_miles_fold_left (l : list activity) :
  sum_miles l
  = fold_left (fun acc meters => (acc + meters / 1609.34)%float) (map distance l) PrimFloat.zero.
Proof.
  unfold sum_miles. generalize PrimFloat.zero.
  induction l as [|a l IH]; intros acc; [done|]. cbn [fold_left map]. apply IH.
Qed.

Lemma is_run_types (a : activity) :
  is_run a = true ↔ lower (act_type a) = "run" ∨ lower (act_type a) = "virtualrun".
Proof.
  unfold is_run, str_in. cbn [existsb].
  rewrite !orb_true_iff, !String.eqb_eq. intuition discriminate.
Qed.

(** The steps of [format_pace], and what it prints at their end. *)
Lemma format_pace_steps (t : Z) (d minutes : float) (whole : Z) (whole_f : float)
    (secs : Z) :
  (d =? 0)%float = false →
  int_truediv t 60 = Ok minutes →
  int_of_float (minutes / d)%float = Ok whole →
  float_of_int whole = Ok whole_f →
  round_float ((minutes / d - whole_f) * 60)%float = Ok secs →
  format_pace t d
  = Ok (str_int (if secs =? 60 then whole + 1 else whole) +:+ ":"
        +:+ fmt_02d (if secs =? 60 then 0 else secs) +:+ "/mi").
Proof.
  intros Hd Hm Hw Hf Hs. unfold format_pace, pace_minutes.
  rewrite Hd, Hm. cbn [mbind result_bind].
  rewrite Hw. cbn [mbind result_bind]. rewrite Hf. cbn [mbind result_bind].
  rewrite Hs. cbn [mbind result_bind]. unfold pace_text, carry_minute.
  by destruct (secs =? 60).
Qed.

(** The same steps on the totals of the runs. *)
Lemma run_pace_steps (activities : list activity) (minutes : float) (whole : Z)
    (whole_f : float) (secs : Z) :
  (0 <? sum_miles (runs_of activities))%float = true →
  int_truediv (sum_time (runs_of activities)) 60 = Ok minutes →
  int_of_float (minutes / sum_miles (runs_of activities))%float = Ok whole →
  float_of_int whole = Ok whole_f →
  round_float ((minutes / sum_miles (runs_of activities) - whole_f) * 60)%float = Ok secs →
  run_pace activities
  = Ok (str_int (if secs =? 60 then whole + 1 else whole) +:+ ":"
        +:+ fmt_02d (if secs =? 60 then 0 else secs) +:+ "/mi").
Proof.
  intros Hpos Hm Hw Hf Hs. unfold run_pace. rewrite Hpos.
  by apply (format_pace_steps _ _ minutes whole whole_f secs);
    [apply float_pos_not_zero|..].
Qed.

(** Runs that took no time at all have the pace zero. *)
Lemma run_pace_zero_time (activities : list activity) :
  (0 <? sum_miles (runs_of activities))%float = true →
  sum_time (runs_of activities) = 0 →
  run_pace activities = Ok "0:00/mi".
Proof.
  intros Hpos Ht.
  assert (Hp : Prim2SF (PrimFloat.zero / sum_miles (runs_of activities))
               = S754_zero false).
  { rewrite div_spec, Prim2SF_pzero.
    by destruct (float_pos_shape _ Hpos) as [(m & e & ->)| ->]. }
  assert (Hw : int_of_float (PrimFloat.zero / sum_miles (runs_of activities)) = Ok 0)
    by (unfold int_of_float; by rewrite Hp).
  assert (Hs : round_float
                 ((PrimFloat.zero / sum_miles (runs_of activities) - PrimFloat.zero) * 60)
               = Ok 0).
  { unfold round_float. by rewrite mul_spec, sub_spec, Hp, Prim2SF_pzero. }
  rewrite (run_pace_steps activities PrimFloat.zero 0 PrimFloat.zero 0); try done.
  by rewrite Ht.
Qed.

(** C7.  The aggregate run pace of a list of activities is computed from
    the runs alone, the records of type run or virtualrun whatever the case
    of the letters: their moving times are added up, and so are their
    distances in miles, one after the other in the order of the list.  When
    the total distance is zero, or there is no run, the pace is the dash.
    When it is positive the pace is the total time in minutes divided by the
    total distance, printed as the whole minutes, a colon, the seconds in
    two digits and [/mi]: the whole minutes are the integer part of the
    quotient, the seconds are the integer nearest to 60 times what is left,
    and 60 seconds are printed as one minute more and [00]; runs that took
    no time at all give ["0:00/mi"].  For records as Strava delivers them
    this never fails, the seconds printed lie in [00..59], and the text
    gives back the minutes and the seconds.  A run of 6.2 miles in 3720
    seconds gives ["10:00/mi"]; two runs of 1 and 3 miles in 600 and 2400
    seconds, with a ride between them, give ["12:30/mi"], which is the pace
    of the 3000 seconds over the 4 miles and not the mean of ["10:00/mi"]
    and ["13:20/mi"]; three runs of a mile in 479, 480 and 480 seconds give
    7 minutes and 60 seconds, printed ["8:00/mi"]. *)
Theorem run_pace_aggregate (activities : list activity) :
  (∀ a, In a (runs_of activities)
        ↔ In a activities
          ∧ (lower (act_type a) = "run" ∨ lower (act_type a) = "virtualrun"))
  ∧ sum_time (runs_of activities)
    = fold_right Z.add 0 (map moving_time (runs_of activities))
  ∧ sum_miles (runs_of activities)
    = fold_left (fun acc meters => (acc + meters / 1609.34)%float)
        (map distance (runs_of activities)) 0%float
  ∧ ((sum_miles (runs_of activities) =? 0)%float = true → run_pace activities = Ok "—")
  ∧ ((0 <? sum_miles (runs_of activities))%float = false → run_pace activities = Ok "—")
  ∧ (runs_of activities = [] → run_pace activities = Ok "—")
  ∧ ((0 <? sum_miles (runs_of activities))%float = true →
     run_pace activities
     = format_pace (sum_time (runs_of activities)) (sum_miles (runs_of activities)))
  ∧ (∀ minutes whole whole_f secs,
       (0 <? sum_miles (runs_of activities))%float = true →
       int_truediv (sum_time (runs_of activities)) 60 = Ok minutes →
       int_of_float (minutes / sum_miles (runs_of activities))%float = Ok whole →
       float_of_int whole = Ok whole_f →
       round_float ((minutes / sum_miles (runs_of activities) - whole_f) * 60)%float
       = Ok secs →
       run_pace activities
       = Ok (str_int (if secs =? 60 then whole + 1 else whole) +:+ ":"
             +:+ fmt_02d (if secs =? 60 then 0 else secs) +:+ "/mi"))
  ∧ ((∀ a, In a (runs_of activities) → sane a = true) →
     Z.of_nat (length (runs_of activities)) < 2 ^ 31 →
     (0 <? sum_miles (runs_of activities))%float = true →
     ∃ minutes pace whole whole_f secs,
       int_truediv (sum_time (runs_of activities)) 60 = Ok minutes
       ∧ pace = (minutes / sum_miles (runs_of activities))%float
       ∧ int_of_float pace = Ok whole
       ∧ float_of_int whole = Ok whole_f
       ∧ int_of_float whole_f = Ok whole
       ∧ round_float ((pace - whole_f) * 60)%float = Ok secs
       ∧ 0 ≤ whole ∧ 0 ≤ secs ≤ 60
       ∧ (∀ m e, Prim2SF pace = S754_finite false m e →
                 (0 ≤ e → whole = Z.pos m * 2 ^ e)
                 ∧ (e < 0 → whole * 2 ^ (- e) ≤ Z.pos m < (whole + 1) * 2 ^ (- e)))
       ∧ (∀ m e, Prim2SF ((pace - whole_f) * 60)%float = S754_finite false m e →
                 (0 ≤ e → secs = Z.pos m * 2 ^ e)
                 ∧ (e < 0 → Z.abs (2 * (secs * 2 ^ (- e) - Z.pos m)) ≤ 2 ^ (- e)))
       ∧ run_pace activities
         = Ok (str_int (if secs =? 60 then whole + 1 else whole) +:+ ":"
               +:+ fmt_02d (if secs =? 60 then 0 else secs) +:+ "/mi")
       ∧ 0 ≤ (if secs =? 60 then 0 else secs) ≤ 59
       ∧ String.length (fmt_02d (if secs =? 60 then 0 else secs)) = 2%nat)
  ∧ (∀ t d minutes whole whole_f secs,
       (d =? 0)%float = false →
       int_truediv t 60 = Ok minutes →
       int_of_float (minutes / d)%float = Ok whole →
       float_of_int whole = Ok whole_f →
       round_float ((minutes / d - whole_f) * 60)%float = Ok secs →
       format_pace t d
       = Ok (str_int (if secs =? 60 then whole + 1 else whole) +:+ ":"
             +:+ fmt_02d (if secs =? 60 then 0 else secs) +:+ "/mi"))
  ∧ ((0 <? sum_miles (runs_of activities))%float = true →
     sum_time (runs_of activities) = 0 → run_pace activities = Ok "0:00/mi")
  ∧ (∀ m s m' s', 0 ≤ s ≤ 59 → 0 ≤ s' ≤ 59 →
       str_int m +:+ ":" +:+ fmt_02d s +:+ "/mi"
       = str_int m' +:+ ":" +:+ fmt_02d s' +:+ "/mi" →
       m = m' ∧ s = s')
  ∧ format_pace 3720 6.2%float = Ok "10:00/mi"
  ∧ sum_miles (runs_of [sample_activity 1 "Run" 738886 3600 9977.908%float 3720])
    = 6.2%float
  ∧ run_pace [sample_activity 1 "Run" 738886 3600 9977.908%float 3720] = Ok "10:00/mi"
  ∧ sum_time (runs_of [sample_activity 1 "Run" 738886 3600 1609.34%float 600;
                       sample_activity 2 "Ride" 738887 3600 30000 3600;
                       sample_activity 3 "VirtualRun" 738888 3600 4828.02%float 2400])
    = 3000
  ∧ sum_miles (runs_of [sample_activity 1 "Run" 738886 3600 1609.34%float 600;
                        sample_activity 2 "Ride" 738887 3600 30000 3600;
                        sample_activity 3 "VirtualRun" 738888 3600 4828.02%float 2400])
    = 4%float
  ∧ run_pace [sample_activity 1 "Run" 738886 3600 1609.34%float 600;
              sample_activity 2 "Ride" 738887 3600 30000 3600;
              sample_activity 3 "VirtualRun" 738888 3600 4828.02%float 2400]
    = Ok "12:30/mi"
  ∧ format_pace 600 1%float = Ok "10:00/mi"
  ∧ format_pace 2400 3%float = Ok "13:20/mi"
  ∧ run_pace [sample_activity 1 "Run" 738886 3600 5000 1500;
              sample_activity 2 "Ride" 738887 3600 30000 3600;
              sample_activity 3 "Run" 738888 3600 10000 3150]
    = Ok "8:19/mi"
  ∧ int_truediv 1439 60 = Ok 0x1.7fbbbbbbbbbbcp+4%float
  ∧ int_of_float (0x1.7fbbbbbbbbbbcp+4 / 3)%float = Ok 7
  ∧ float_of_int 7 = Ok 7%float
  ∧ round_float ((0x1.7fbbbbbbbbbbcp+4 / 3 - 7) * 60)%float = Ok 60
  ∧ sum_miles (runs_of [sample_activity 1 "Run" 738886 3600 1609.34%float 479;
                        sample_activity 2 "Run" 738887 3600 1609.34%float 480;
                        sample_activity 3 "Run" 738888 3600 1609.34%float 480])
    = 3%float
  ∧ run_pace [sample_activity 1 "Run" 738886 3600 1609.34%float 479;
              sample_activity 2 "Run" 738887 3600 1609.34%float 480;
              sample_activity 3 "Run" 738888 3600 1609.34%float 480]
    = Ok "8:00/mi"
  ∧ run_pace [sample_activity 1 "Run" 738886 3600 0 600;
              sample_activity 2 "Ride" 738887 3600 30000 3600]
    = Ok "—".
Proof.
  assert (Hzero : (0 <? sum_miles (runs_of activities))%float = false →
                  run_pace activities = Ok "—").
  { intros Hz. unfold run_pace. by rewrite Hz. }
  split; [|split; [|split; [|split; [|split; [|split; [|split; [|split; [|split;
    [|split; [|split; [|split]]]]]]]]]]].
  - intros a. unfold runs_of. rewrite filter_In, is_run_types. done.
  - apply sum_time_fold_right.
  - apply sum_miles_fold_left.
  - intros Hz. apply Hzero. by apply float_eqb_zero_not_pos.
  - exact Hzero.
  - intros Hnil. apply Hzero. rewrite Hnil. reflexivity.
  - intros Hpos. unfold run_pace. by rewrite Hpos.
  - intros minutes whole whole_f secs. apply run_pace_steps.
  - intros Hsane Hlen Hpos.
    assert (Ht : 0 ≤ sum_time (runs_of activities) < 2 ^ 63).
    { pose proof (sum_time_bound (runs_of activities) Hsane) as Hb.
      change (2 ^ 32) with 4294967296 in Hb. change (2 ^ 31) with 2147483648 in Hlen.
      change (2 ^ 63) with 9223372036854775808. lia. }
    assert (Hd : sf_sane (Prim2SF (sum_miles (runs_of activities)))).
    { apply sum_miles_sane. intros a Ha. by apply (sane_fields a (Hsane a Ha)). }
    destruct (pace_minutes_finite _ _ Ht Hpos Hd) as (pace & Hpace & Hshape).
    unfold pace_minutes in Hpace.
    destruct (int_truediv (sum_time (runs_of activities)) 60) as [minutes|] eqn:Hm;
      [|done].
    cbn [mbind result_bind] in Hpace. injection Hpace as Hpace.
    destruct (pace_parts pace Hshape) as (whole & whole_f & secs & Hw & Hw0 & Hf & Hs & Hr).
    exists minutes, pace, whole, whole_f, secs.
    assert (Hprinted : 0 ≤ (if secs =? 60 then 0 else secs) ≤ 59).
    { destruct (Z.eqb_spec secs 60); lia. }
    split; [done|]. split; [done|]. split; [done|]. split; [done|].
    split; [by apply (whole_minutes_exact pace)|].
    split; [done|]. split; [done|]. split; [done|].
    split; [intros m e Hx; by apply (int_of_float_floor pace)|].
    split; [intros m e Hx; by apply (round_float_nearest ((pace - whole_f) * 60)%float)|].
    split; [|split; [done|by apply fmt_02d_seconds_length]].
    subst pace. by apply (run_pace_steps activities minutes whole whole_f secs).
  - apply format_pace_steps.
  - apply run_pace_zero_time.
  - intros m s m' s' Hs Hs' Heq.
    apply (long_form_inj m m' s s' ":" "/mi" "/mi") in Heq as (? & ? & _); done.
  - do 15 (split; [vm_compute; reflexivity|]). vm_compute. reflexivity.
Qed.

(** A run of one mile in 600 seconds, a ride, and a virtual run of three
    miles in 2400 seconds: 3000 seconds over four miles. *)
Lemma run_pace_aggregate_witness :
  run_pace [sample_activity 1 "Run" 738886 3600 1609.34%float 600;
            sample_activity 2 "Ride" 738887 3600 30000 3600;
            sample_activity 3 "VirtualRun" 738888 3600 4828.02%float 2400]
  = Ok "12:30/mi".
Proof.
  destruct (proj1 (proj2 (proj2 (proj2 (proj2 (proj2 (proj2 (proj2 (proj2
              (run_pace_aggregate
                 [sample_activity 1 "Run" 738886 3600 1609.34%float 600;
                  sample_activity 2 "Ride" 738887 3600 30000 3600;
                  sample_activity 3 "VirtualRun" 738888 3600 4828.02%float 2400]))))))))))
    as (minutes & pace & whole & whole_f & secs & Hm & Hp & Hw & Hf & _ & Hs & _ & _ & _ & _
        & Htext & _).
  - intros a Ha. vm_compute in Ha. destruct Ha as [<-|[<-|[]]]; vm_compute; reflexivity.
  - vm_compute. reflexivity.
  - vm_compute. reflexivity.
  - vm_compute in Hm. assert (minutes = 50%float) as -> by congruence.
    vm_compute in Hp. subst pace.
    vm_compute in Hw. assert (whole = 12) as -> by congruence.
    vm_compute in Hf. assert (whole_f = 12%float) as -> by congruence.
    vm_compute in Hs. assert (secs = 30) as -> by congruence.
    rewrite Htext. reflexivity.
Defined.
